(** * Chrome Cache files (dtformats/chrome_cache.py)

    A shallow embedding of the Chrome Cache reader: the SuperFastHash key
    fingerprint, the packed cache address decoder, the data block and index
    file readers and the directory parser that follows the chains of cache
    entries.

    Conventions.  Python integers are unbounded, so they are [Z] and every
    [& 0xffffffff] of the source is written out.  A byte string is a
    [list byte]; [ord] gives the value of one of its elements.  Operations
    that can raise (indexing, reading a structure, opening a file) return
    an [option] or a result carrying the exception.

    The interpreter.  The classes of the module are read as Python 3 runs
    them: a sequence of bytes of a structure is a tuple of integers and
    [bytes] of it is the byte string, a [str] has no [decode], a dict
    iterates in the order of insertion, and [os.path.join] of None raises
    TypeError.  [SuperFastHash], which
    nothing in the module calls, is written with [xrange] and with [ord]
    of the items of its key, and is read as that text. *)

From Stdlib Require Import ZArith List Lia Bool Ascii String.
From Stdlib Require Import Strings.Byte DecimalString HexadecimalString DecimalN.
From stdpp Require Import base option list gmap strings.
Import ListNotations.

Local Open Scope Z_scope.

(** ** Byte strings *)

Definition ord (b : byte) : Z := Z.of_N (Byte.to_N b).



(** ** SuperFastHash *)

Module Hash.





(** *** The algorithm as the specification words it

    The hash starts at the key length mod 2^32; every full group of four
    bytes is folded in; the one to three trailing bytes are mixed with the
    formula of their count; the avalanche closes. *)










End Hash.

(** ** String formatting *)

(** [u'{0:d}'.format(n)] for a non-negative [n]. *)
Definition format_d (n : Z) : string :=
  DecimalString.NilEmpty.string_of_uint (N.to_uint (Z.to_N n)).

(** [u'{0:x}'.format(n)] for a non-negative [n] (lower-case digits). *)
Definition format_x (n : Z) : string :=
  HexadecimalString.NilEmpty.string_of_uint (N.to_hex_uint (Z.to_N n)).

Fixpoint zeros (n : nat) : string :=
  match n with
  | O => EmptyString
  | S n' => String "0" (zeros n')
  end.

(** [u'{0:0Wx}'.format(n)]: at least [width] digits, padded with zeros. *)
Definition format_0x (width : nat) (n : Z) : string :=
  let digits := format_x n in
  (zeros (width - String.length digits) ++ digits)%string.

(** ** Cache address *)

Module CacheAddress.

Definition FILE_TYPE_SEPARATE : Z := 0.
Definition FILE_TYPE_BLOCK_RANKINGS : Z := 1.
Definition FILE_TYPE_BLOCK_256 : Z := 2.
Definition FILE_TYPE_BLOCK_1024 : Z := 3.
Definition FILE_TYPE_BLOCK_4096 : Z := 4.

Definition _BLOCK_DATA_FILE_TYPES : list Z :=
  [FILE_TYPE_BLOCK_RANKINGS; FILE_TYPE_BLOCK_256; FILE_TYPE_BLOCK_1024;
   FILE_TYPE_BLOCK_4096].

Definition _FILE_TYPE_BLOCK_SIZES : list Z := [0; 36; 256; 1024; 4096].

(** The attributes of a cache address object; [None] is Python's None. *)
Record t : Type := Build {
  block_number : option Z;
  block_offset : option Z;
  block_size : option Z;
  filename : option string;
  is_initialized : bool;
  value : Z;
  file_type : Z
}.

(** [x in tuple] *)
Definition contains (x : Z) (items : list Z) : bool := existsb (Z.eqb x) items.

(** [CacheAddress.__init__]; [None] stands for the IndexError that the
    lookup in [_FILE_TYPE_BLOCK_SIZES] could raise. *)
Definition init (cache_address : Z) : option t :=
  let is_initialized := negb (Z.land cache_address 0x80000000 =? 0) in
  let file_type := Z.shiftr (Z.land cache_address 0x70000000) 28 in
  if negb (cache_address =? 0x00000000) then
    if file_type =? FILE_TYPE_SEPARATE then
      let file_selector := Z.land cache_address 0x0fffffff in
      Some (Build None None None
              (Some ("f_" ++ format_0x 6 file_selector)%string)
              is_initialized cache_address file_type)
    else if contains file_type _BLOCK_DATA_FILE_TYPES then
      let file_selector := Z.shiftr (Z.land cache_address 0x00ff0000) 16 in
      file_block_size ← _FILE_TYPE_BLOCK_SIZES !! Z.to_nat file_type;
      let block_number := Z.land cache_address 0x0000ffff in
      let block_size := Z.shiftr (Z.land cache_address 0x03000000) 24 in
      let block_size := block_size * file_block_size in
      let block_offset := 8192 + block_number * file_block_size in
      Some (Build (Some block_number) (Some block_offset) (Some block_size)
              (Some ("data_" ++ format_d file_selector)%string)
              is_initialized cache_address file_type)
    else
      Some (Build None None None None is_initialized cache_address file_type)
  else
    Some (Build None None None None is_initialized cache_address file_type).

End CacheAddress.

(** ** Exceptions, log records and output *)

(** The [errors.ParseError] raised at each site of the module. *)
Inductive parse_error : Type :=
| MissingIndexFile
    (* u'Missing index file: {0:s}' *)
| UnableToRead (description : string)
    (* raised by _ReadStructure when the data cannot be read *)
| UnsupportedDataBlockFileSignature (signature : Z)
    (* u'Unsupported data block file signature: 0x{0:08x}' *)
| UnsupportedDataBlockFileVersion (format_version : string)
    (* u'Unsupported data block file version: {0:s}' *)
| UnsupportedIndexFileSignature (signature : Z)
    (* u'Unsupported index file signature: 0x{0:08x}' *)
| UnsupportedIndexFileVersion (format_version : string)
    (* u'Unsupported index file version: {0:s}' *)
| MissingDataBlockFiles.
    (* u'Missing data block files.' *)

Inductive exception : Type :=
| ParseError (e : parse_error)
| IndexError
| TypeError
| AttributeError
| UnicodeDecodeError
| OverflowError.

(** The severity of a [logging] call. *)
Inductive level : Type := WARNING | ERROR.

Inductive log_message : Type :=
| MissingDataBlockFile (name : string)
    (* u'Missing data block file: {0:s}' *)
| MaximumChainLengthReached
    (* u'Maximum allowed cache address chain length reached.' *)
| CacheAddressMissingFilename (value : Z)
    (* u'Cache address: 0x{0:08x} missing filename.' *)
| UndecodableKeyAtBlockOffset (block_offset : option Z)
    (* u'Unable to decode cache entry key at block offset: 0x{0:08x}. ...' *)
| UndecodableKeyAtCacheAddress (value : Z).
    (* u'Unable to decode cache entry key at cache address: 0x{0:08x}. ...' *)

(** A unicode string, as the list of its code points. *)
Definition unicode : Type := list Z.

(** What a run does that can be seen from outside.  [Print t key] is the
    line [print(u'{0!s}\t{1:s}'.format(date_string, cache_entry.key))],
    the date being 1601-01-01 plus [t] microseconds. *)
Inductive event : Type :=
| Log (severity : level) (message : log_message)
| Print (creation_time : Z) (key : unicode)
| Opened (name : string)
| Closed (name : string).

Inductive outcome (A : Type) : Type :=
| Return (a : A)
| Raise (e : exception).
Arguments Return {A} a.
Arguments Raise {A} e.

(** A computation: the events it produced and how it ended; [None] when
    the fuel given to a [while] loop ran out before the loop ended. *)
Definition run (A : Type) : Type := option (list event * outcome A).

Definition ret {A : Type} (a : A) : run A := Some ([], Return a).
Definition raise {A : Type} (e : exception) : run A := Some ([], Raise e).
Definition emit (ev : event) : run unit := Some ([ev], Return tt).
Definition out_of_fuel {A : Type} : run A := None.

Definition bind {A B : Type} (m : run A) (k : A -> run B) : run B :=
  match m with
  | None => None
  | Some (t1, Raise e) => Some (t1, Raise e)
  | Some (t1, Return a) =>
      match k a with
      | None => None
      | Some (t2, r) => Some (t1 ++ t2, r)
      end
  end.

Notation "'let*' x ':=' m 'in' k" := (bind m (fun x => k))
  (at level 10, x name, m at level 100, k at level 200).

(** [for item in items: body(state, item)] threading the loop's variables. *)
Fixpoint for_each {S I : Type} (body : S -> I -> run S) (s : S)
    (items : list I) : run S :=
  match items with
  | [] => ret s
  | i :: items' => let* s' := body s i in for_each body s' items'
  end.

(** ** File objects and structures *)

Record file_object : Type := FileObject {
  content : list byte;
  position : nat
}.

Definition tell (f : file_object) : nat := position f.

Definition seek (f : file_object) (offset : nat) : file_object :=
  FileObject (content f) offset.

(** [file_object.read(size)]: at most [size] bytes, fewer at the end. *)
Definition read (f : file_object) (size : nat) : list byte * file_object :=
  let data := take size (drop (position f) (content f)) in
  (data, FileObject (content f) (position f + length data)).

(** The layout of a structure: its members in order, with their sizes in
    bytes, as the dtfabric definitions list them. *)
Definition layout : Type := list (string * nat).

Definition GetByteSize (l : layout) : nat :=
  fold_right (fun member size => (snd member + size)%nat) 0%nat l.

Fixpoint member_bytes (l : layout) (name : string) (data : list byte)
    : list byte :=
  match l with
  | [] => []
  | (n, size) :: l' =>
      if String.eqb n name then take size data
      else member_bytes l' name (drop size data)
  end.

(** An unsigned little-endian integer. *)
Fixpoint le_uint (data : list byte) : Z :=
  match data with
  | [] => 0
  | b :: data' => ord b + 256 * le_uint data'
  end.

Definition member_uint (l : layout) (name : string) (data : list byte) : Z :=
  le_uint (member_bytes l name data).

(** The read of [data_size] bytes at an offset inside the file or past
    its end. *)
Definition read_structure_at (f : file_object) (offset : Z)
    (data_size : nat) (description : string) : run (list byte * file_object) :=
  let '(data, f') := read (seek f (Z.to_nat offset)) data_size in
  if (length data =? data_size)%nat then ret (data, f')
  else raise (ParseError (UnableToRead description)).

(** Modelled from the spec: [BinaryDataFile._ReadStructure] of
    dtformats/data_format.py, which is "read N bytes at offset into a typed
    record, fail with a decode error on short reads", and "out-of-range
    offsets fail": an offset below zero fails like a short read.  The
    record is kept as its bytes, read through [member_uint] and
    [member_bytes].  An offset of None cannot be used to seek. *)
Definition _ReadStructure (f : file_object) (file_offset : option Z)
    (data_size : nat) (description : string) : run (list byte * file_object) :=
  match file_offset with
  | None => raise TypeError
  | Some offset =>
      if offset <? 0 then raise (ParseError (UnableToRead description))
      else read_structure_at f offset data_size description
  end.

(** [bytes.decode(u'ascii')], strict or with [errors=u'replace'], which
    puts U+FFFD in the place of every byte that is not ASCII. *)
Definition REPLACEMENT_CHARACTER : Z := 0xfffd.

Definition is_ascii (b : byte) : bool := ord b <? 128.

Definition decode_ascii (data : list byte) : outcome unicode :=
  if forallb is_ascii data then Return (map ord data)
  else Raise UnicodeDecodeError.

Definition decode_ascii_replace (data : list byte) : unicode :=
  map (fun b => if is_ascii b then ord b else REPLACEMENT_CHARACTER) data.

(** [byte_string.partition(b'\x00')[0]]: the bytes before the first NUL. *)
Fixpoint before_nul (data : list byte) : list byte :=
  match data with
  | [] => []
  | b :: data' => if ord b =? 0 then [] else b :: before_nul data'
  end.

(** ** Cache entry *)

Module CacheEntry.

Record t : Type := Build {
  creation_time : Z;
  hash : Z;
  key : unicode;
  next : CacheAddress.t;
  rankings_node : CacheAddress.t
}.

End CacheEntry.

(** The constructor call [CacheAddress(value)] inside a computation. *)
Definition new_CacheAddress (cache_address : Z) : run CacheAddress.t :=
  match CacheAddress.init cache_address with
  | Some a => ret a
  | None => raise IndexError
  end.

(** The version test shared by both headers:
    [format_version in (u'2.0', u'2.1')]. *)
Definition supported_version (format_version : string) : bool :=
  existsb (String.eqb format_version) ["2.0"; "2.1"]%string.

(** ** Data block file *)

Module DataBlockFile.

Definition _FILE_HEADER : layout :=
  [ ("signature", 4); ("minor_version", 2); ("major_version", 2);
    ("file_number", 2); ("next_file_number", 2); ("block_size", 4);
    ("number_of_entries", 4); ("maximum_number_of_entries", 4);
    ("empty", 4 * 4); ("hints", 4 * 4); ("updating", 4); ("user", 4 * 5);
    ("allocation_bitmap", 4 * 2028) ]%string%nat.

Definition _FILE_HEADER_SIZE : nat := GetByteSize _FILE_HEADER.

Definition _CACHE_ENTRY : layout :=
  [ ("hash", 4); ("next_address", 4); ("rankings_node_address", 4);
    ("reuse_count", 4); ("refetch_count", 4); ("state", 4);
    ("creation_time", 8); ("key_size", 4); ("long_key_address", 4);
    ("data_stream_sizes", 4 * 4); ("data_stream_addresses", 4 * 4);
    ("flags", 4); ("unknown1", 16); ("self_hash", 4);
    ("key", 160) ]%string%nat.

Definition _CACHE_ENTRY_SIZE : nat := GetByteSize _CACHE_ENTRY.

Definition SIGNATURE : Z := 0xc104cac3.

(** The attributes of a data block file that has been read. *)
Record t : Type := Build {
  block_size : Z;
  format_version : string;
  number_of_entries : Z;
  _file_object : file_object
}.

(** [_ReadFileHeader]: the attributes it sets and the file object after
    the read. *)
Definition _ReadFileHeader (f : file_object)
    : run (Z * string * Z * file_object) :=
  let file_offset := tell f in
  let* r := _ReadStructure f (Some (Z.of_nat file_offset))
              _FILE_HEADER_SIZE "data block file header" in
  let '(file_header, f') := r in
  let signature := member_uint _FILE_HEADER "signature" file_header in
  if negb (signature =? SIGNATURE) then
    raise (ParseError (UnsupportedDataBlockFileSignature signature))
  else
    let format_version :=
      (format_d (member_uint _FILE_HEADER "major_version" file_header)
       ++ "." ++
       format_d (member_uint _FILE_HEADER "minor_version" file_header))%string in
    if negb (supported_version format_version) then
      raise (ParseError (UnsupportedDataBlockFileVersion format_version))
    else
      ret (member_uint _FILE_HEADER "block_size" file_header,
           format_version,
           member_uint _FILE_HEADER "number_of_entries" file_header,
           f').

Definition ReadFileObject (f : file_object) : run t :=
  let* r := _ReadFileHeader f in
  let '(block_size, format_version, number_of_entries, _) := r in
  ret (Build block_size format_version number_of_entries f).

(** Modelled from the spec: [BinaryDataFile.Open] of
    dtformats/data_format.py, which opens the file of that name for
    reading and reads it with [ReadFileObject]. *)
Definition Open (name : string) (data : list byte) : run t :=
  let* _ := emit (Opened name) in
  ReadFileObject (FileObject data 0).

(** [ReadCacheEntry].  Every read seeks to its offset first, so the
    position the read leaves in [_file_object] is not kept.  The key of
    the structure is a tuple of 160 integers and [bytes] of it is the
    byte string of these values, which is cut at its first NUL and
    decoded. *)
Definition ReadCacheEntry (self : t) (block_offset : option Z)
    : run CacheEntry.t :=
  let* r := _ReadStructure (_file_object self) block_offset
              _CACHE_ENTRY_SIZE "data block cache entry" in
  let cache_entry := fst r in
  let byte_string := member_bytes _CACHE_ENTRY "key" cache_entry in
  let cache_entry_key := before_nul byte_string in
  let* cache_entry_key :=
    match decode_ascii cache_entry_key with
    | Return k => ret k
    | Raise UnicodeDecodeError =>
        let* _ := emit (Log WARNING (UndecodableKeyAtBlockOffset block_offset)) in
        ret (decode_ascii_replace cache_entry_key)
    | Raise e => raise e
    end in
  let* next :=
    new_CacheAddress (member_uint _CACHE_ENTRY "next_address" cache_entry) in
  let* rankings_node :=
    new_CacheAddress
      (member_uint _CACHE_ENTRY "rankings_node_address" cache_entry) in
  ret (CacheEntry.Build
         (member_uint _CACHE_ENTRY "creation_time" cache_entry)
         (member_uint _CACHE_ENTRY "hash" cache_entry)
         cache_entry_key next rankings_node).

End DataBlockFile.

(** ** Index file *)

Module IndexFile.

Definition _FILE_HEADER : layout :=
  [ ("signature", 4); ("minor_version", 2); ("major_version", 2);
    ("number_of_entries", 4); ("stored_data_size", 4);
    ("last_created_file_number", 4); ("unknown1", 4); ("unknown2", 4);
    ("table_size", 4); ("unknown3", 4); ("unknown4", 4);
    ("creation_time", 8); ("unknown5", 208) ]%string%nat.

Definition _FILE_HEADER_SIZE : nat := GetByteSize _FILE_HEADER.

Definition _LRU_DATA : layout :=
  [ ("unknown1", 8); ("filled_flag", 4); ("sizes", 4 * 5);
    ("head_addresses", 4 * 5); ("tail_addresses", 4 * 5);
    ("transaction_address", 4); ("operation", 4); ("operation_list", 4);
    ("unknown2", 28) ]%string%nat.

Definition _LRU_DATA_SIZE : nat := GetByteSize _LRU_DATA.

Definition SIGNATURE : Z := 0xc103cac3.

(** The index table is a dict from the position of a word in the table to
    its cache address.  Positions are inserted in increasing order, each
    once, and a dict iterates in the order of insertion, so the dict is
    kept as the list of its items in that order, which is the order of
    [values()]. *)
Record t : Type := Build {
  creation_time : Z;
  format_version : string;
  index_table : list (nat * CacheAddress.t)
}.

Definition _ReadFileHeader (f : file_object) : run (Z * string * file_object) :=
  let file_offset := tell f in
  let* r := _ReadStructure f (Some (Z.of_nat file_offset))
              _FILE_HEADER_SIZE "index file header" in
  let '(file_header, f') := r in
  let signature := member_uint _FILE_HEADER "signature" file_header in
  if negb (signature =? SIGNATURE) then
    raise (ParseError (UnsupportedIndexFileSignature signature))
  else
    let format_version :=
      (format_d (member_uint _FILE_HEADER "major_version" file_header)
       ++ "." ++
       format_d (member_uint _FILE_HEADER "minor_version" file_header))%string in
    if negb (supported_version format_version) then
      raise (ParseError (UnsupportedIndexFileVersion format_version))
    else
      ret (member_uint _FILE_HEADER "creation_time" file_header,
           format_version, f').

Definition _ReadLRUData (f : file_object) : run file_object :=
  let file_offset := tell f in
  let* r := _ReadStructure f (Some (Z.of_nat file_offset))
              _LRU_DATA_SIZE "index file LRU" in
  ret (snd r).

(** The [while len(cache_address_data) == 4] loop of [_ReadIndexTable];
    one unit of fuel for each test of its condition. *)
Fixpoint _ReadIndexTable_loop (fuel : nat) (f : file_object)
    (cache_address_index : nat) (cache_address_data : list byte)
    (index_table : list (nat * CacheAddress.t))
    : run (list (nat * CacheAddress.t)) :=
  match fuel with
  | O => out_of_fuel
  | S fuel' =>
      if (length cache_address_data =? 4)%nat then
        let value := le_uint cache_address_data in
        let* index_table :=
          if negb (value =? 0) then
            let* cache_address := new_CacheAddress value in
            ret (index_table ++ [(cache_address_index, cache_address)])
          else ret index_table in
        let cache_address_index := (cache_address_index + 1)%nat in
        let '(cache_address_data, f) := read f 4 in
        _ReadIndexTable_loop fuel' f cache_address_index cache_address_data
          index_table
      else ret index_table
  end.

Definition _ReadIndexTable (fuel : nat) (f : file_object)
    : run (list (nat * CacheAddress.t)) :=
  let cache_address_index := 0%nat in
  let '(cache_address_data, f) := read f 4 in
  _ReadIndexTable_loop fuel f cache_address_index cache_address_data [].

Definition ReadFileObject (fuel : nat) (f : file_object) : run t :=
  let* r := _ReadFileHeader f in
  let '(creation_time, format_version, f) := r in
  let* f := _ReadLRUData f in
  let* index_table := _ReadIndexTable fuel f in
  ret (Build creation_time format_version index_table).

(** Modelled from the spec: [BinaryDataFile.Open], as for the data block
    file. *)
Definition Open (fuel : nat) (name : string) (data : list byte) : run t :=
  let* _ := emit (Opened name) in
  ReadFileObject fuel (FileObject data 0).

End IndexFile.

(** ** Chrome Cache parser *)

Module ChromeCacheParser.

(** A cache directory: the files in it by name.  [os.path.join(path, name)]
    names the file [name] of the directory, [os.path.exists] is a lookup. *)
Abbreviation directory := (gmap string (list byte)).

(** [data_block_files.get(cache_address.filename, None)]; None is not a
    key of the dict. *)
Definition get (data_block_files : gmap string DataBlockFile.t)
    (filename : option string) : option DataBlockFile.t :=
  match filename with
  | Some name => data_block_files !! name
  | None => None
  end.

(** The body of the first loop over the index table: the data block file
    an address names is opened unless the dict has it already. *)
Definition open_data_block_file (dir : directory)
    (state : gmap string DataBlockFile.t * bool)
    (cache_address : CacheAddress.t)
    : run (gmap string DataBlockFile.t * bool) :=
  let '(data_block_files, have_all_data_block_files) := state in
  match get data_block_files (CacheAddress.filename cache_address) with
  | Some _ => ret state
  | None =>
      match CacheAddress.filename cache_address with
      | None => raise TypeError  (* os.path.join(path, None) *)
      | Some name =>
          match dir !! name with
          | None =>
              let* _ := emit (Log ERROR (MissingDataBlockFile name)) in
              ret (data_block_files, false)
          | Some data =>
              let* data_block_file := DataBlockFile.Open name data in
              ret (<[name := data_block_file]> data_block_files,
                   have_all_data_block_files)
          end
      end
  end.

(** [cache_entry.key.decode(u'ascii')].  The key is the [str] that
    ReadCacheEntry decoded, and a [str] has no [decode]: the attribute
    lookup raises AttributeError, whatever the key is, and
    [except UnicodeDecodeError] does not catch it. *)
Definition decode_unicode_key (key : unicode) : run unicode :=
  raise AttributeError.

(** [datetime.datetime(1601, 1, 1) + datetime.timedelta(microseconds=t)]
    raises OverflowError past 9999-12-31 23:59:59.999999. *)
Definition MAX_MICROSECONDS : Z := 3067671 * 86400000000 - 1.

Definition date_string (creation_time : Z) : run Z :=
  if creation_time <=? MAX_MICROSECONDS then ret creation_time
  else raise OverflowError.

(** The [while cache_address.value != 0x00000000] loop that follows one
    chain; one unit of fuel for each test of its condition. *)
Fixpoint follow_chain (fuel : nat)
    (data_block_files : gmap string DataBlockFile.t)
    (cache_address : CacheAddress.t) (cache_address_chain_length : nat)
    : run unit :=
  match fuel with
  | O => out_of_fuel
  | S fuel' =>
      if negb (CacheAddress.value cache_address =? 0x00000000) then
        if (64 <=? cache_address_chain_length)%nat then
          emit (Log ERROR MaximumChainLengthReached)
        else
          match get data_block_files (CacheAddress.filename cache_address) with
          | None =>
              emit (Log WARNING
                      (CacheAddressMissingFilename
                         (CacheAddress.value cache_address)))
          | Some data_file =>
              let* cache_entry :=
                DataBlockFile.ReadCacheEntry data_file
                  (CacheAddress.block_offset cache_address) in
              let* _ := decode_unicode_key (CacheEntry.key cache_entry) in
              let* date :=
                date_string (CacheEntry.creation_time cache_entry) in
              let* _ := emit (Print date (CacheEntry.key cache_entry)) in
              follow_chain fuel' data_block_files
                (CacheEntry.next cache_entry)
                (cache_address_chain_length + 1)
          end
      else ret tt
  end.

Definition close_files (data_block_files : gmap string DataBlockFile.t)
    : run unit :=
  for_each (fun _ item => emit (Closed (fst item))) tt
    (map_to_list data_block_files).

Definition ParseDirectory (fuel : nat) (dir : directory) : run unit :=
  match dir !! "index"%string with
  | None => raise (ParseError MissingIndexFile)
  | Some index_data =>
      let* index_file := IndexFile.Open fuel "index" index_data in
      let values := map snd (IndexFile.index_table index_file) in
      let* state := for_each (open_data_block_file dir) (∅, true) values in
      let '(data_block_files, have_all_data_block_files) := state in
      let* _ :=
        if have_all_data_block_files then
          for_each (fun _ cache_address =>
                      follow_chain fuel data_block_files cache_address 0)
            tt values
        else ret tt in
      let* _ := close_files data_block_files in
      let* _ := emit (Closed "index") in
      if negb have_all_data_block_files then
        raise (ParseError MissingDataBlockFiles)
      else ret tt
  end.

End ChromeCacheParser.

(** ** Concrete files

    Builders for the files the examples below run the readers on. *)

Module Fixture.

Definition byte_of (n : Z) : byte :=
  match Byte.of_N (Z.to_N (n mod 256)) with
  | Some b => b
  | None => x00
  end.

(** [size] bytes, little-endian. *)
Fixpoint le_bytes (size : nat) (n : Z) : list byte :=
  match size with
  | O => []
  | S size' => byte_of n :: le_bytes size' (n / 256)
  end.

Definition zero_bytes (size : nat) : list byte := repeat x00 size.

Definition pad_to (size : nat) (data : list byte) : list byte :=
  data ++ zero_bytes (size - length data).

(** An index file: header, LRU data and the words of the table. *)
Definition index_header (signature major minor : Z) : list byte :=
  pad_to IndexFile._FILE_HEADER_SIZE
    (le_bytes 4 signature ++ le_bytes 2 minor ++ le_bytes 2 major).

Definition index_file (table : list Z) : list byte :=
  index_header IndexFile.SIGNATURE 2 0
  ++ zero_bytes IndexFile._LRU_DATA_SIZE
  ++ concat (map (le_bytes 4) table).

(** A data block file: header and 256-byte cache entries from 8192 on. *)
Definition data_header (signature major minor : Z) : list byte :=
  pad_to DataBlockFile._FILE_HEADER_SIZE
    (le_bytes 4 signature ++ le_bytes 2 minor ++ le_bytes 2 major).

Definition cache_entry (hash next creation_time : Z) (key : list byte)
    : list byte :=
  le_bytes 4 hash ++ le_bytes 4 next ++ zero_bytes 16
  ++ le_bytes 8 creation_time ++ zero_bytes 64 ++ pad_to 160 key.

Definition data_file (entries : list (list byte)) : list byte :=
  data_header DataBlockFile.SIGNATURE 2 0 ++ concat entries.

(** The address of block [n] of the 256 byte block file [data_<file>]. *)
Definition block_256 (file n : Z) : Z := 0xa0000000 + file * 65536 + n.




(** Two chains of one entry; the file of the second is missing. *)
Definition two_chain_index : list byte :=
  index_file [block_256 0 0; block_256 1 0].

Definition url_data : list byte :=
  data_file [cache_entry 7 0 1000 ["u"; "r"; "l"]%byte].

Definition missing_dir : ChromeCacheParser.directory :=
  <["index"%string := two_chain_index]>
  (<["data_0"%string := url_data]> ∅).



(** A data block file with an entry whose key has a byte outside ASCII. *)
Definition dirty_key_data : list byte :=
  data_file [cache_entry 9 0 2000 ["k"; x80; "y"]%byte].

Definition dirty_key_file : DataBlockFile.t :=
  DataBlockFile.Build 0 "2.0" 0 (FileObject dirty_key_data 0).

End Fixture.

(** * Properties *)

(** ** SuperFastHash *)

Section SuperFastHashFacts.

Import Hash.






(** Lists four elements at a time. *)
Lemma list_ind4 {A : Type} (P : list A -> Prop) :
  P [] -> (forall a, P [a]) -> (forall a b, P [a; b]) ->
  (forall a b c, P [a; b; c]) ->
  (forall a b c d l, P l -> P (a :: b :: c :: d :: l)) ->
  forall l, P l.
Proof.
  intros H0 H1 H2 H3 H4. fix IH 1.
  intros [|a [|b [|c [|d l]]]];
    [exact H0 | apply H1 | apply H2 | apply H3 | apply H4; apply IH].
Qed.









End SuperFastHashFacts.

(** ** Cache addresses *)

Section CacheAddressFacts.

Import CacheAddress.

(** Bits [lo .. lo + n - 1] of a value. *)
Definition bits (v : Z) (lo n : Z) : Z := (v / 2 ^ lo) mod 2 ^ n.

(** The base unit of a block kind, as the specification lists them. *)
Definition spec_base_unit (kind : Z) : option Z :=
  if kind =? 1 then Some 36
  else if kind =? 2 then Some 256
  else if kind =? 3 then Some 1024
  else if kind =? 4 then Some 4096
  else None.

Lemma field_bits (v mask lo n : Z) :
  0 <= lo -> 0 <= n -> Z.shiftr mask lo = Z.ones n ->
  Z.shiftr (Z.land v mask) lo = bits v lo n.
Proof.
  intros Hlo Hn Hmask. unfold bits.
  rewrite Z.shiftr_land, Hmask, Z.land_ones, Z.shiftr_div_pow2 by lia.
  reflexivity.
Qed.

Lemma file_type_bits v : Z.shiftr (Z.land v 0x70000000) 28 = bits v 28 3.
Proof. apply field_bits; [lia | lia | reflexivity]. Qed.

Lemma file_selector_bits v : Z.shiftr (Z.land v 0x00ff0000) 16 = bits v 16 8.
Proof. apply field_bits; [lia | lia | reflexivity]. Qed.

Lemma block_count_bits v : Z.shiftr (Z.land v 0x03000000) 24 = bits v 24 2.
Proof. apply field_bits; [lia | lia | reflexivity]. Qed.

Lemma block_number_bits v : Z.land v 0x0000ffff = bits v 0 16.
Proof.
  unfold bits. change 0x0000ffff with (Z.ones 16).
  rewrite Z.land_ones by lia. rewrite Z.pow_0_r, Z.div_1_r. reflexivity.
Qed.

Lemma bits_range v lo n : 0 <= n -> 0 <= bits v lo n < 2 ^ n.
Proof. intros Hn. unfold bits. apply Z.mod_pos_bound. lia. Qed.

Lemma kind_cases v :
  let k := bits v 28 3 in
  k = 0 \/ k = 1 \/ k = 2 \/ k = 3 \/ k = 4 \/ k = 5 \/ k = 6 \/ k = 7.
Proof. intros k. pose proof (bits_range v 28 3 ltac:(lia)). simpl in H. lia. Qed.

Lemma init_zero :
  init 0 = Some (Build None None None None false 0 0).
Proof. reflexivity. Qed.

Lemma init_separate v :
  v <> 0 -> bits v 28 3 = 0 ->
  init v = Some (Build None None None
                   (Some ("f_" ++ format_0x 6 (Z.land v 0x0fffffff))%string)
                   (negb (Z.land v 0x80000000 =? 0)) v 0).
Proof.
  intros Hv Hk. unfold init. rewrite file_type_bits, Hk.
  destruct (Z.eqb_spec v 0); [contradiction | reflexivity].
Qed.

Lemma init_block v unit :
  spec_base_unit (bits v 28 3) = Some unit ->
  init v = Some (Build (Some (bits v 0 16))
                   (Some (8192 + bits v 0 16 * unit))
                   (Some (bits v 24 2 * unit))
                   (Some ("data_" ++ format_d (bits v 16 8))%string)
                   (negb (Z.land v 0x80000000 =? 0)) v (bits v 28 3)).
Proof.
  intros Hunit. unfold init.
  rewrite file_type_bits, file_selector_bits, block_count_bits,
    block_number_bits.
  assert (Hv : v <> 0).
  { intros ->. discriminate Hunit. }
  destruct (Z.eqb_spec v 0); [contradiction |]. simpl negb. cbv iota.
  unfold spec_base_unit in Hunit.
  destruct (kind_cases v) as [H|[H|[H|[H|[H|[H|[H|H]]]]]]];
    rewrite H in Hunit |- *; simpl in Hunit; try discriminate Hunit;
    injection Hunit as <-; reflexivity.
Qed.

Lemma init_unknown v :
  5 <= bits v 28 3 <= 7 ->
  init v = Some (Build None None None None
                   (negb (Z.land v 0x80000000 =? 0)) v (bits v 28 3)).
Proof.
  intros Hk. unfold init. rewrite file_type_bits.
  assert (Hv : v <> 0).
  { intros ->. vm_compute in Hk. destruct Hk as [Hk _]. apply Hk. reflexivity. }
  destruct (Z.eqb_spec v 0); [contradiction |]. simpl negb. cbv iota.
  destruct (kind_cases v) as [H|[H|[H|[H|[H|[H|[H|H]]]]]]];
    rewrite H in Hk |- *; try lia; reflexivity.
Qed.

(** The constructor never raises. *)
Lemma init_total v : exists a, init v = Some a /\ value a = v.
Proof.
  destruct (Z.eq_dec v 0) as [-> | Hv].
  { rewrite init_zero. eexists; split; reflexivity. }
  destruct (kind_cases v) as [H|[H|[H|[H|[H|H]]]]].
  - rewrite (init_separate v Hv H). eexists; split; reflexivity.
  - rewrite (init_block v 36) by (rewrite H; reflexivity).
    eexists; split; reflexivity.
  - rewrite (init_block v 256) by (rewrite H; reflexivity).
    eexists; split; reflexivity.
  - rewrite (init_block v 1024) by (rewrite H; reflexivity).
    eexists; split; reflexivity.
  - rewrite (init_block v 4096) by (rewrite H; reflexivity).
    eexists; split; reflexivity.
  - rewrite (init_unknown v) by lia. eexists; split; reflexivity.
Qed.

(** C4. Decoding a cache address never raises, whatever the value: the
    constructor returns an address object for every integer, so for every
    32-bit one; when bits 28-30 hold 5, 6 or 7 the object has no filename,
    no block number, no block size and no block offset. *)
Theorem CacheAddress_init_never_raises (v : Z) :
  exists a : CacheAddress.t,
    CacheAddress.init v = Some a /\
    CacheAddress.value a = v /\
    (5 <= bits v 28 3 <= 7 ->
     CacheAddress.filename a = None /\
     CacheAddress.block_number a = None /\
     CacheAddress.block_size a = None /\
     CacheAddress.block_offset a = None).
Proof.
  destruct (init_total v) as (a & Ha & Hval).
  exists a. split; [exact Ha |]. split; [exact Hval |].
  intros Hk. rewrite (init_unknown v Hk) in Ha.
  injection Ha as <-. repeat split; reflexivity.
Qed.

Lemma CacheAddress_init_never_raises_witness :
  exists a : CacheAddress.t,
    CacheAddress.init 0xf0020005 = Some a /\
    CacheAddress.filename a = None /\
    CacheAddress.block_number a = None /\
    CacheAddress.block_size a = None /\
    CacheAddress.block_offset a = None.
Proof.
  destruct (CacheAddress_init_never_raises 0xf0020005) as (a & Ha & _ & Hk).
  exists a. split; [exact Ha |].
  apply Hk. vm_compute. split; discriminate.
Defined.

(** C5. When bits 28-30 select a block kind, the address object has the
    filename data_<decimal of bits 16-23>, the low 16 bits as block number,
    bits 24-25 times the base unit of the kind (36, 256, 1024, 4096) as
    block size and 8192 + block number * base unit as block offset; a
    Block256 address with selector 2 and block number 5 has filename
    data_2 and block offset 9472. *)
Theorem CacheAddress_init_block_kind (v unit : Z) :
  spec_base_unit (bits v 28 3) = Some unit ->
  exists a : CacheAddress.t,
    CacheAddress.init v = Some a /\
    CacheAddress.filename a = Some ("data_" ++ format_d (bits v 16 8))%string /\
    CacheAddress.block_number a = Some (bits v 0 16) /\
    CacheAddress.block_size a = Some (bits v 24 2 * unit) /\
    CacheAddress.block_offset a = Some (8192 + bits v 0 16 * unit) /\
    (bits v 28 3 = 2 -> bits v 16 8 = 2 -> bits v 0 16 = 5 ->
     CacheAddress.filename a = Some "data_2"%string /\
     CacheAddress.block_offset a = Some 9472).
Proof.
  intros Hunit. rewrite (init_block v unit Hunit).
  eexists. split; [reflexivity |]. simpl.
  repeat (split; [reflexivity |]).
  intros Hk Hs Hn. rewrite Hk in Hunit. injection Hunit as <-.
  rewrite Hs, Hn. split; reflexivity.
Qed.

Lemma CacheAddress_init_block_kind_witness :
  exists a : CacheAddress.t,
    CacheAddress.init 0xa0020005 = Some a /\
    CacheAddress.filename a = Some "data_2"%string /\
    CacheAddress.block_number a = Some 5 /\
    CacheAddress.block_size a = Some 0 /\
    CacheAddress.block_offset a = Some 9472.
Proof.
  destruct (CacheAddress_init_block_kind 0xa0020005 256 eq_refl)
    as (a & Ha & Hf & Hn & Hs & Ho & _).
  exists a. repeat split; assumption.
Defined.

(** C6. Decoding is a function of the value: equal values give equal
    address objects; the value 0 gives the uninitialized address, with
    is_initialized false and no filename, block number, block size or
    block offset. *)
Theorem CacheAddress_init_deterministic :
  (forall v1 v2 : Z, v1 = v2 -> CacheAddress.init v1 = CacheAddress.init v2) /\
  exists a : CacheAddress.t,
    CacheAddress.init 0x00000000 = Some a /\
    CacheAddress.is_initialized a = false /\
    CacheAddress.filename a = None /\
    CacheAddress.block_number a = None /\
    CacheAddress.block_size a = None /\
    CacheAddress.block_offset a = None.
Proof.
  split.
  - intros v1 v2 ->. reflexivity.
  - rewrite init_zero. eexists. repeat split; reflexivity.
Qed.

Lemma CacheAddress_init_deterministic_witness :
  CacheAddress.init 0xa0020005 = CacheAddress.init (0xa0020000 + 5).
Proof.
  apply (proj1 CacheAddress_init_deterministic). reflexivity.
Defined.

End CacheAddressFacts.

(** ** Computations *)

Section RunFacts.

Context {A B : Type}.

Lemma bind_return (m : run A) (k : A -> run B) t a :
  m = Some (t, Return a) ->
  bind m k = match k a with
             | None => None
             | Some (t2, r) => Some (t ++ t2, r)
             end.
Proof. intros ->. reflexivity. Qed.

Lemma bind_raise (m : run A) (k : A -> run B) t e :
  m = Some (t, Raise e) -> bind m k = Some (t, Raise e).
Proof. intros ->. reflexivity. Qed.

Lemma bind_inv (m : run A) (k : A -> run B) t r :
  bind m k = Some (t, r) ->
  (exists e, m = Some (t, Raise e) /\ r = Raise e) \/
  (exists t1 a t2,
      m = Some (t1, Return a) /\ k a = Some (t2, r) /\ t = t1 ++ t2).
Proof.
  unfold bind. destruct m as [[t1 [a|e]]|]; try discriminate.
  - destruct (k a) as [[t2 r2]|] eqn:Hk; try discriminate.
    intros [= <- <-]. right. exists t1, a, t2. auto.
  - intros [= <- <-]. left. exists e. auto.
Qed.

Lemma bind_terminates (m : run A) (k : A -> run B) :
  m <> None -> (forall a, k a <> None) -> bind m k <> None.
Proof.
  intros Hm Hk. unfold bind. destruct m as [[t1 [a|e]]|]; try congruence.
  specialize (Hk a). destruct (k a) as [[t2 r2]|]; congruence.
Qed.

End RunFacts.

(** A structure read where the file object stands is a read inside the
    file or past its end. *)
Lemma ReadStructure_tell (f : file_object) (n : nat) (size : nat) description :
  _ReadStructure f (Some (Z.of_nat n)) size description
  = read_structure_at f (Z.of_nat n) size description.
Proof.
  unfold _ReadStructure.
  destruct (Z.ltb_spec (Z.of_nat n) 0) as [Hneg|_]; [lia | reflexivity].
Qed.

(** Reduces the plumbing of a computation, leaving its tests in place. *)
Ltac run_plumbing :=
  cbv beta iota zeta
    delta [bind ret emit raise read_structure_at read seek tell content
           position].

Ltac run_step := run_plumbing; rewrite ?ReadStructure_tell; run_plumbing.

Lemma for_each_terminates {S I : Type} (body : S -> I -> run S) items :
  (forall s i, body s i <> None) -> forall s, for_each body s items <> None.
Proof.
  intros Hbody. induction items as [|i items IH]; intros s; simpl.
  - discriminate.
  - apply bind_terminates; [apply Hbody | apply IH].
Qed.

Lemma for_each_cons {S I : Type} (body : S -> I -> run S) s i items :
  for_each body s (i :: items)
  = let* s' := body s i in for_each body s' items.
Proof. reflexivity. Qed.

Lemma new_CacheAddress_returns v :
  exists a, CacheAddress.init v = Some a /\ new_CacheAddress v = ret a.
Proof.
  destruct (init_total v) as (a & Ha & _). exists a. split; [exact Ha |].
  unfold new_CacheAddress. rewrite Ha. reflexivity.
Qed.

(** ** The index table *)

Section IndexTableFacts.

(** The words of the table as the specification reads them: consecutive
    little-endian words of four bytes; fewer than four bytes at the end
    are no word. *)
Fixpoint spec_words (data : list byte) : list Z :=
  match data with
  | b0 :: b1 :: b2 :: b3 :: rest => le_uint [b0; b1; b2; b3] :: spec_words rest
  | _ => []
  end.

(** The table they give: no entry for a word that is zero, the cache
    address of the word, at the position of the word, for any other. *)
Fixpoint spec_table (i : nat) (words : list Z) : list (nat * CacheAddress.t) :=
  match words with
  | [] => []
  | w :: words' =>
      match (if w =? 0 then None else CacheAddress.init w) with
      | Some a => (i, a) :: spec_table (S i) words'
      | None => spec_table (S i) words'
      end
  end.

Lemma ReadIndexTable_loop_unfold fuel f idx data acc :
  IndexFile._ReadIndexTable_loop (S fuel) f idx data acc
  = if (length data =? 4)%nat then
      let value := le_uint data in
      let* index_table :=
        if negb (value =? 0) then
          let* cache_address := new_CacheAddress value in
          ret (acc ++ [(idx, cache_address)])
        else ret acc in
      let '(data', f') := read f 4 in
      IndexFile._ReadIndexTable_loop fuel f' (idx + 1)%nat data' index_table
    else ret acc.
Proof. reflexivity. Qed.

Lemma ReadIndexTable_loop_spec (s : list byte) :
  forall (c : list byte) (p fuel idx : nat) acc,
    s = drop p c -> (length s / 4 < fuel)%nat ->
    IndexFile._ReadIndexTable_loop fuel
      (FileObject c (p + length (take 4 s))) idx (take 4 s) acc
    = Some ([], Return (acc ++ spec_table idx (spec_words s))).
Proof.
  induction s as [|b0|b0 b1|b0 b1 b2|b0 b1 b2 b3 s IH] using list_ind4;
    intros c p fuel idx acc Hs Hfuel;
    try (destruct fuel as [|fuel]; [simpl in Hfuel; lia |];
         simpl; rewrite app_nil_r; reflexivity).
  destruct fuel as [|fuel].
  { lia. }
  assert (Hlen : (length s / 4 < fuel)%nat).
  { change (length (b0 :: b1 :: b2 :: b3 :: s)) with (1 * 4 + length s)%nat
      in Hfuel.
    rewrite Nat.div_add_l in Hfuel by lia. lia. }
  assert (Hdrop : s = drop (p + 4) c).
  { rewrite <- drop_drop, <- Hs. reflexivity. }
  change (take 4 (b0 :: b1 :: b2 :: b3 :: s)) with [b0; b1; b2; b3].
  change (length [b0; b1; b2; b3]) with 4%nat.
  rewrite ReadIndexTable_loop_unfold.
  change (length [b0; b1; b2; b3] =? 4)%nat with true. cbv iota zeta.
  unfold read. simpl content. simpl position. rewrite <- Hdrop.
  specialize (IH c (p + 4)%nat fuel (idx + 1)%nat).
  change (spec_words (b0 :: b1 :: b2 :: b3 :: s))
    with (le_uint [b0; b1; b2; b3] :: spec_words s).
  generalize (le_uint [b0; b1; b2; b3]). intros w.
  simpl spec_table.
  destruct (Z.eqb_spec w 0) as [Hw|Hw]; simpl negb; cbv iota.
  - simpl bind. rewrite IH by assumption.
    replace (S idx) with (idx + 1)%nat by lia. reflexivity.
  - destruct (new_CacheAddress_returns w) as (a & Ha & Hnew).
    rewrite Hnew, Ha. simpl bind. rewrite IH by assumption.
    rewrite <- app_assoc. simpl.
    replace (S idx) with (idx + 1)%nat by lia. reflexivity.
Qed.

Lemma ReadIndexTable_loop_no_raise (fuel : nat) :
  forall f idx data acc t e,
    IndexFile._ReadIndexTable_loop fuel f idx data acc <> Some (t, Raise e).
Proof.
  induction fuel as [|fuel IH]; intros f idx data acc t e; [discriminate |].
  rewrite ReadIndexTable_loop_unfold.
  destruct (length data =? 4)%nat; [| discriminate]. cbv zeta.
  destruct (read f 4) as [data' f'].
  destruct (negb (le_uint data =? 0)).
  - destruct (new_CacheAddress_returns (le_uint data)) as (a & _ & ->).
    simpl bind.
    destruct (IndexFile._ReadIndexTable_loop fuel f' (idx + 1)%nat data' _)
      as [[t' [x|e']]|] eqn:Hloop; try discriminate.
    exfalso. exact (IH _ _ _ _ _ _ Hloop).
  - simpl bind.
    destruct (IndexFile._ReadIndexTable_loop fuel f' (idx + 1)%nat data' _)
      as [[t' [x|e']]|] eqn:Hloop; try discriminate.
    exfalso. exact (IH _ _ _ _ _ _ Hloop).
Qed.

Lemma ReadIndexTable_no_raise fuel f t e :
  IndexFile._ReadIndexTable fuel f <> Some (t, Raise e).
Proof.
  unfold IndexFile._ReadIndexTable. destruct (read f 4) as [data f'].
  apply ReadIndexTable_loop_no_raise.
Qed.

Lemma ReadIndexTable_loop_quiet (fuel : nat) :
  forall f idx data acc t r,
    IndexFile._ReadIndexTable_loop fuel f idx data acc = Some (t, r) -> t = [].
Proof.
  induction fuel as [|fuel IH]; intros f idx data acc t r; [discriminate |].
  rewrite ReadIndexTable_loop_unfold.
  destruct (length data =? 4)%nat; [| intros [= <- _]; reflexivity]. cbv zeta.
  destruct (read f 4) as [data' f'].
  destruct (negb (le_uint data =? 0)).
  - destruct (new_CacheAddress_returns (le_uint data)) as (a & _ & ->).
    simpl bind.
    destruct (IndexFile._ReadIndexTable_loop fuel f' (idx + 1)%nat data' _)
      as [[t' r']|] eqn:Hloop; [| discriminate].
    intros [= <- _]. exact (IH _ _ _ _ _ _ Hloop).
  - simpl bind.
    destruct (IndexFile._ReadIndexTable_loop fuel f' (idx + 1)%nat data' _)
      as [[t' r']|] eqn:Hloop; [| discriminate].
    intros [= <- _]. exact (IH _ _ _ _ _ _ Hloop).
Qed.

Lemma ReadIndexTable_quiet fuel f t r :
  IndexFile._ReadIndexTable fuel f = Some (t, r) -> t = [].
Proof.
  unfold IndexFile._ReadIndexTable. destruct (read f 4) as [data f'].
  apply ReadIndexTable_loop_quiet.
Qed.

Lemma spec_table_elem words :
  forall i0 i a,
    In (i, a) (spec_table i0 words) <->
    exists w, (i0 <= i)%nat /\ words !! (i - i0)%nat = Some w /\ w <> 0 /\
              CacheAddress.init w = Some a.
Proof.
  induction words as [|w words IH]; intros i0 i a; simpl.
  - split; [tauto | intros (w & _ & H & _); discriminate].
  - split.
    + intros Hin.
      assert (Hrest : In (i, a) (spec_table (S i0) words) ->
                      exists w0, (i0 <= i)%nat /\
                        (w :: words) !! (i - i0)%nat = Some w0 /\ w0 <> 0 /\
                        CacheAddress.init w0 = Some a).
      { intros H. apply IH in H as (w0 & Hle & Hl & Hw0 & Ha).
        exists w0. split; [lia |]. split; [| auto].
        replace (i - i0)%nat with (S (i - S i0)) by lia. exact Hl. }
      destruct (Z.eqb_spec w 0) as [Hw|Hw]; [auto |].
      destruct (CacheAddress.init w) as [a'|] eqn:Hinit; [| auto].
      destruct Hin as [[= <- <-]|Hin]; [| auto].
      exists w. rewrite Nat.sub_diag. auto.
    + intros (w0 & Hle & Hl & Hw0 & Ha).
      destruct (Nat.eq_dec i i0) as [-> | Hne].
      * rewrite Nat.sub_diag in Hl. injection Hl as ->.
        destruct (Z.eqb_spec w0 0); [contradiction |].
        rewrite Ha. left. reflexivity.
      * assert (Hin : In (i, a) (spec_table (S i0) words)).
        { apply IH. exists w0. split; [lia |]. split; [| auto].
          replace (i - i0)%nat with (S (i - S i0)) in Hl by lia. exact Hl. }
        destruct (if w =? 0 then None else CacheAddress.init w);
          [right |]; exact Hin.
Qed.

(** C7. The index table is read as consecutive little-endian words of
    four bytes from the position of the stream to its end: for every
    stream, of any length, the read returns a table and neither raises
    nor logs (given fuel for one test of the loop condition per word, and
    one more); fewer than four bytes at the end are no word; position [i]
    has an entry exactly when word [i] is not zero, and the entry is the
    cache address of that word. *)
Theorem ReadIndexTable_words (f : file_object) (fuel : nat) :
  (length (drop (position f) (content f)) / 4 < fuel)%nat ->
  exists table,
    IndexFile._ReadIndexTable fuel f = Some ([], Return table) /\
    table = spec_table 0 (spec_words (drop (position f) (content f))) /\
    forall (i : nat) (a : CacheAddress.t),
      In (i, a) table <->
      exists w, spec_words (drop (position f) (content f)) !! i = Some w /\
                w <> 0 /\ CacheAddress.init w = Some a.
Proof.
  intros Hfuel. eexists. split; [| split; [reflexivity |]].
  - unfold IndexFile._ReadIndexTable, read.
    rewrite (ReadIndexTable_loop_spec _ (content f) (position f) fuel 0 [])
      by (reflexivity || assumption).
    reflexivity.
  - intros i a. rewrite spec_table_elem. rewrite Nat.sub_0_r.
    split.
    + intros (w & _ & H). exists w. exact H.
    + intros (w & H). exists w. split; [lia | exact H].
Qed.

Lemma ReadIndexTable_words_witness :
  exists table,
    IndexFile._ReadIndexTable 3
      (FileObject [x05; x00; x02; xa0; x00; x00; x00; x00; x01; x02] 0)
    = Some ([], Return table) /\
    forall (i : nat) (a : CacheAddress.t),
      In (i, a) table <->
      exists w, [0xa0020005; 0] !! i = Some w /\
                w <> 0 /\ CacheAddress.init w = Some a.
Proof.
  destruct (ReadIndexTable_words
              (FileObject [x05; x00; x02; xa0; x00; x00; x00; x00; x01; x02] 0)
              3) as (table & Hrun & _ & Helem).
  - simpl. lia.
  - exists table. split; [exact Hrun | exact Helem].
Defined.

End IndexTableFacts.

(** ** Reading a cache entry *)

Section ReadCacheEntryFacts.

Import DataBlockFile.

Lemma ReadStructure_at (f : file_object) (offset : Z) (size : nat) description :
  0 <= offset ->
  _ReadStructure f (Some offset) size description
  = let data := take size (drop (Z.to_nat offset) (content f)) in
    if (length data =? size)%nat then
      ret (data, FileObject (content f) (Z.to_nat offset + length data))
    else raise (ParseError (UnableToRead description)).
Proof.
  intros Hoffset. unfold _ReadStructure.
  destruct (Z.ltb_spec offset 0) as [Hneg|_]; [lia | reflexivity].
Qed.

Lemma ReadStructure_below (f : file_object) (offset : Z) (size : nat)
    description :
  offset < 0 ->
  _ReadStructure f (Some offset) size description
  = raise (ParseError (UnableToRead description)).
Proof.
  intros Hoffset. unfold _ReadStructure.
  destruct (Z.ltb_spec offset 0) as [_|Hge]; [reflexivity | lia].
Qed.

Lemma cache_entry_key_bytes (data : list byte) :
  member_bytes _CACHE_ENTRY "key" data = take 160 (drop 96 data).
Proof.
  unfold _CACHE_ENTRY, member_bytes. simpl String.eqb. cbv iota.
  rewrite !drop_drop. reflexivity.
Qed.

Lemma ord_zero (b : byte) : ord b = 0 -> b = x00.
Proof. destruct b; intros H; try discriminate H; reflexivity. Qed.

(** [before_nul] is the part of the buffer before its first NUL byte. *)
Lemma before_nul_spec (buffer : list byte) :
  exists rest,
    buffer = before_nul buffer ++ rest /\
    Forall (fun b => ord b <> 0) (before_nul buffer) /\
    (rest = [] \/ exists rest', rest = x00 :: rest').
Proof.
  induction buffer as [|b buffer (rest & Heq & Hall & Hrest)]; simpl.
  - exists []. auto.
  - destruct (Z.eqb_spec (ord b) 0) as [Hb|Hb].
    + exists (b :: buffer). split; [reflexivity |]. split; [constructor |].
      right. exists buffer. rewrite (ord_zero b Hb). reflexivity.
    + exists rest. split; [simpl; congruence |]. split; [| exact Hrest].
      constructor; assumption.
Qed.

Lemma decode_ascii_replace_lookup (data : list byte) (i : nat) (b : byte) :
  data !! i = Some b ->
  decode_ascii_replace data !! i
  = Some (if ord b <? 128 then ord b else REPLACEMENT_CHARACTER).
Proof.
  unfold decode_ascii_replace, is_ascii. revert i.
  induction data as [|b' data IH]; intros [|i] H; simpl in *;
    try discriminate.
  - injection H as ->. reflexivity.
  - apply IH, H.
Qed.

Lemma forallb_false_elem {T : Type} (p : T -> bool) (l : list T) :
  forallb p l = false -> exists x, In x l /\ p x = false.
Proof.
  induction l as [|x l IH]; simpl; [discriminate |].
  destruct (p x) eqn:Hx; simpl.
  - intros H. destruct (IH H) as (y & Hy & Hpy). exists y. auto.
  - intros _. exists x. auto.
Qed.

Lemma decode_ascii_clean (data : list byte) :
  forallb is_ascii data = true ->
  decode_ascii data = Return (decode_ascii_replace data).
Proof.
  intros H. unfold decode_ascii. rewrite H. f_equal.
  unfold decode_ascii_replace. apply map_ext_in.
  intros b Hb. rewrite forallb_forall in H. rewrite (H b Hb). reflexivity.
Qed.

(** The key of the entry that is returned, and the warning, whatever the
    bytes of the key buffer are. *)
Lemma ReadCacheEntry_returns (self : DataBlockFile.t) (offset : Z) :
  let data :=
    take 256 (drop (Z.to_nat offset) (content (_file_object self))) in
  let key_bytes := before_nul (take 160 (drop 96 data)) in
  0 <= offset ->
  length data = 256%nat ->
  exists entry,
    ReadCacheEntry self (Some offset)
    = Some (if forallb is_ascii key_bytes then []
            else [Log WARNING (UndecodableKeyAtBlockOffset (Some offset))],
            Return entry) /\
    CacheEntry.key entry = decode_ascii_replace key_bytes /\
    CacheAddress.init (member_uint _CACHE_ENTRY "next_address" data)
    = Some (CacheEntry.next entry) /\
    CacheEntry.creation_time entry
    = member_uint _CACHE_ENTRY "creation_time" data.
Proof.
  intros data key_bytes Hoffset Hlen. unfold ReadCacheEntry.
  rewrite ReadStructure_at by exact Hoffset.
  change (GetByteSize _CACHE_ENTRY) with 256%nat.
  change _CACHE_ENTRY_SIZE with 256%nat. cbv zeta. fold data.
  rewrite Hlen, Nat.eqb_refl.
  unfold ret at 1. unfold bind at 1. cbv beta iota. simpl fst.
  rewrite cache_entry_key_bytes. fold key_bytes.
  destruct (new_CacheAddress_returns
              (member_uint _CACHE_ENTRY "next_address" data))
    as (next & Hnext & ->).
  destruct (new_CacheAddress_returns
              (member_uint _CACHE_ENTRY "rankings_node_address" data))
    as (rankings & _ & ->).
  destruct (forallb is_ascii key_bytes) eqn:Hascii.
  - rewrite (decode_ascii_clean _ Hascii). simpl.
    eexists. split; [reflexivity |]. simpl. auto.
  - unfold decode_ascii. rewrite Hascii. simpl.
    eexists. split; [reflexivity |]. simpl. auto.
Qed.

(** C8. Reading a cache entry never fails because of the key bytes:
    whenever the 256 bytes of the entry can be read, at an offset that is
    not below zero, the read returns an entry.  Its key comes from the 160-byte key buffer cut at the first NUL
    byte: it has one character for each byte before that NUL, the byte
    itself when it is ASCII and the replacement character U+FFFD in its
    place when it is not; a warning is logged exactly when some byte was
    replaced. *)
Theorem ReadCacheEntry_key_never_fails (self : DataBlockFile.t) (offset : Z) :
  let data :=
    take 256 (drop (Z.to_nat offset) (content (_file_object self))) in
  let buffer := take 160 (drop 96 data) in
  0 <= offset ->
  length data = 256%nat ->
  exists (trace : list event) (entry : CacheEntry.t) (kept rest : list byte),
    DataBlockFile.ReadCacheEntry self (Some offset)
    = Some (trace, Return entry) /\
    length buffer = 160%nat /\
    buffer = kept ++ rest /\
    Forall (fun b => ord b <> 0) kept /\
    (rest = [] \/ exists rest', rest = x00 :: rest') /\
    length (CacheEntry.key entry) = length kept /\
    (forall (i : nat) (b : byte),
        kept !! i = Some b ->
        CacheEntry.key entry !! i
        = Some (if ord b <? 128 then ord b else REPLACEMENT_CHARACTER)) /\
    ((exists b, In b kept /\ 128 <= ord b) <->
     trace = [Log WARNING (UndecodableKeyAtBlockOffset (Some offset))]) /\
    ((forall b, In b kept -> ord b < 128) <-> trace = []).
Proof.
  intros data buffer Hoffset Hlen.
  destruct (ReadCacheEntry_returns self offset Hoffset Hlen)
    as (entry & Hrun & Hkey & _).
  fold data in Hrun, Hkey. fold buffer in Hrun, Hkey.
  destruct (before_nul_spec buffer) as (rest & Hsplit & Hall & Hrest).
  eexists _, entry, (before_nul buffer), rest.
  split; [exact Hrun |].
  split.
  { unfold buffer. rewrite length_take, length_drop. lia. }
  split; [exact Hsplit |]. split; [exact Hall |]. split; [exact Hrest |].
  split.
  { rewrite Hkey. unfold decode_ascii_replace. apply length_map. }
  split.
  { intros i b Hb. rewrite Hkey. apply decode_ascii_replace_lookup, Hb. }
  destruct (forallb is_ascii (before_nul buffer)) eqn:Hascii.
  - rewrite forallb_forall in Hascii. split.
    + split; [| discriminate].
      intros (b & Hb & Hge). apply Hascii in Hb.
      unfold is_ascii in Hb. apply Z.ltb_lt in Hb. lia.
    + split; [reflexivity |].
      intros _ b Hb. apply Hascii in Hb. apply Z.ltb_lt in Hb. exact Hb.
  - split.
    + split; [reflexivity |]. intros _.
      destruct (forallb_false_elem is_ascii (before_nul buffer) Hascii)
        as (b & Hb & Hnot).
      exists b. split; [exact Hb |]. unfold is_ascii in Hnot.
      apply Z.ltb_ge in Hnot. exact Hnot.
    + split; [| discriminate]. intros Hall'.
      assert (forallb is_ascii (before_nul buffer) = true); [| congruence].
      apply forallb_forall. intros b Hb. apply Z.ltb_lt, Hall', Hb.
Qed.

Lemma ReadCacheEntry_key_never_fails_witness :
  exists (trace : list event) (entry : CacheEntry.t),
    DataBlockFile.ReadCacheEntry Fixture.dirty_key_file (Some 8192)
    = Some (trace, Return entry).
Proof.
  destruct (ReadCacheEntry_key_never_fails Fixture.dirty_key_file 8192)
    as (trace & entry & _ & _ & Hrun & _).
  - lia.
  - vm_compute. reflexivity.
  - exists trace, entry. exact Hrun.
Defined.

End ReadCacheEntryFacts.

(** ** Opening a file: signature and version *)

Section OpenFacts.

Lemma ord_nonneg (b : byte) : 0 <= ord b.
Proof. unfold ord. apply N2Z.is_nonneg. Qed.

Lemma le_uint_nonneg (data : list byte) : 0 <= le_uint data.
Proof.
  induction data as [|b data IH]; simpl; [lia |].
  pose proof (ord_nonneg b). lia.
Qed.

Lemma format_d_inj (a b : Z) :
  0 <= a -> 0 <= b -> format_d a = format_d b -> a = b.
Proof.
  intros Ha Hb H. unfold format_d in H.
  apply (f_equal DecimalString.NilEmpty.uint_of_string) in H.
  rewrite !DecimalString.NilEmpty.usu in H. injection H as H.
  apply DecimalN.Unsigned.to_uint_inj in H. lia.
Qed.

(** A string [major.minor] with a one-character minor other than a dot
    splits in one way only. *)
Lemma version_string_split (s1 s2 : string) (c : ascii) :
  (s1 ++ "." ++ s2)%string = String "2" (String "." (String c EmptyString)) ->
  c <> "."%char ->
  s1 = "2"%string /\ s2 = String c EmptyString.
Proof.
  intros H Hc.
  destruct s1 as [|a [|b [|d s1]]]; cbn in H.
  - discriminate H.
  - inversion H. auto.
  - inversion H. congruence.
  - inversion H as [[Ha Hb Hd Hrest]]. destruct s1; discriminate Hrest.
Qed.

(** The version the headers accept, in numbers. *)
Definition accepted_version (major minor : Z) : Prop :=
  major = 2 /\ (minor = 0 \/ minor = 1).

Lemma supported_version_spec (major minor : Z) :
  0 <= major -> 0 <= minor ->
  supported_version (format_d major ++ "." ++ format_d minor)%string = true
  <-> accepted_version major minor.
Proof.
  intros Hmajor Hminor. unfold supported_version, accepted_version. split.
  - simpl. rewrite orb_false_r, orb_true_iff, !String.eqb_eq.
    intros [H|H]; apply version_string_split in H; try discriminate;
      destruct H as [H2 H0];
      apply (format_d_inj major 2) in H2; try lia.
    + apply (format_d_inj minor 0) in H0; lia.
    + apply (format_d_inj minor 1) in H0; lia.
  - intros (-> & [-> | ->]); reflexivity.
Qed.

Lemma DataBlockFile_Open_cases (name : string) (data : list byte) :
  DataBlockFile.Open name data
  = let header := take DataBlockFile._FILE_HEADER_SIZE data in
    let signature := member_uint DataBlockFile._FILE_HEADER "signature" header in
    let format_version :=
      (format_d (member_uint DataBlockFile._FILE_HEADER "major_version" header)
       ++ "." ++
       format_d (member_uint DataBlockFile._FILE_HEADER "minor_version" header))%string in
    if (length header =? DataBlockFile._FILE_HEADER_SIZE)%nat then
      if negb (signature =? DataBlockFile.SIGNATURE) then
        Some ([Opened name],
              Raise (ParseError (UnsupportedDataBlockFileSignature signature)))
      else if negb (supported_version format_version) then
        Some ([Opened name],
              Raise (ParseError (UnsupportedDataBlockFileVersion format_version)))
      else
        Some ([Opened name],
              Return (DataBlockFile.Build
                        (member_uint DataBlockFile._FILE_HEADER "block_size" header)
                        format_version
                        (member_uint DataBlockFile._FILE_HEADER "number_of_entries" header)
                        (FileObject data 0)))
    else
      Some ([Opened name],
            Raise (ParseError (UnableToRead "data block file header"))).
Proof.
  unfold DataBlockFile.Open, DataBlockFile.ReadFileObject,
    DataBlockFile._ReadFileHeader.
  generalize DataBlockFile._FILE_HEADER_SIZE. intros size.
  run_step. change (Z.to_nat (Z.of_nat 0)) with 0%nat. rewrite drop_0.
  destruct (length (take size data) =? size)%nat; [| reflexivity].
  run_step.
  destruct (negb (_ =? DataBlockFile.SIGNATURE)); [reflexivity |].
  run_step.
  destruct (negb (supported_version _)); reflexivity.
Qed.

Lemma IndexFile_ReadFileHeader_cases (data : list byte) :
  IndexFile._ReadFileHeader (FileObject data 0)
  = let header := take IndexFile._FILE_HEADER_SIZE data in
    let signature := member_uint IndexFile._FILE_HEADER "signature" header in
    let format_version :=
      (format_d (member_uint IndexFile._FILE_HEADER "major_version" header)
       ++ "." ++
       format_d (member_uint IndexFile._FILE_HEADER "minor_version" header))%string in
    if (length header =? IndexFile._FILE_HEADER_SIZE)%nat then
      if negb (signature =? IndexFile.SIGNATURE) then
        raise (ParseError (UnsupportedIndexFileSignature signature))
      else if negb (supported_version format_version) then
        raise (ParseError (UnsupportedIndexFileVersion format_version))
      else
        ret (member_uint IndexFile._FILE_HEADER "creation_time" header,
             format_version,
             FileObject data IndexFile._FILE_HEADER_SIZE)
    else raise (ParseError (UnableToRead "index file header")).
Proof.
  unfold IndexFile._ReadFileHeader.
  generalize IndexFile._FILE_HEADER_SIZE. intros size.
  run_step. change (Z.to_nat (Z.of_nat 0)) with 0%nat. rewrite drop_0.
  destruct (length (take size data) =? size)%nat eqn:Hlen; [| reflexivity].
  apply Nat.eqb_eq in Hlen. rewrite Hlen. run_step.
  destruct (negb (_ =? IndexFile.SIGNATURE)); [reflexivity |].
  run_step.
  destruct (negb (supported_version _)); reflexivity.
Qed.

Lemma member_uint_nonneg (l : layout) (name : string) (data : list byte) :
  0 <= member_uint l name data.
Proof. apply le_uint_nonneg. Qed.

Lemma take_length_eqb (size : nat) (data : list byte) :
  (size <= length data)%nat -> (length (take size data) =? size)%nat = true.
Proof. intros H. apply Nat.eqb_eq. rewrite length_take. lia. Qed.

Lemma DataBlockFile_Open_validation (name : string) (data : list byte) :
  let header := take DataBlockFile._FILE_HEADER_SIZE data in
  let signature := member_uint DataBlockFile._FILE_HEADER "signature" header in
  let major := member_uint DataBlockFile._FILE_HEADER "major_version" header in
  let minor := member_uint DataBlockFile._FILE_HEADER "minor_version" header in
  (DataBlockFile._FILE_HEADER_SIZE <= length data)%nat ->
  (signature <> DataBlockFile.SIGNATURE <->
   DataBlockFile.Open name data
   = Some ([Opened name],
           Raise (ParseError (UnsupportedDataBlockFileSignature signature)))) /\
  (signature = DataBlockFile.SIGNATURE /\ ~ accepted_version major minor <->
   DataBlockFile.Open name data
   = Some ([Opened name],
           Raise (ParseError (UnsupportedDataBlockFileVersion
                    (format_d major ++ "." ++ format_d minor)%string)))) /\
  (signature = DataBlockFile.SIGNATURE /\ accepted_version major minor <->
   exists file,
     DataBlockFile.Open name data = Some ([Opened name], Return file)).
Proof.
  intros header signature major minor Hlen.
  rewrite DataBlockFile_Open_cases. cbv zeta.
  rewrite (take_length_eqb _ _ Hlen).
  fold header. fold signature. fold major. fold minor.
  pose proof (supported_version_spec major minor
                (member_uint_nonneg _ _ _) (member_uint_nonneg _ _ _)) as Hv.
  destruct (Z.eqb_spec signature DataBlockFile.SIGNATURE) as [Hs|Hs];
    simpl negb; cbv iota.
  - destruct (supported_version _) eqn:Hsup; simpl negb; cbv iota.
    + assert (Hacc : accepted_version major minor) by (apply Hv; reflexivity).
      split; [split; [intros H; contradiction | intros H; discriminate H] |].
      split; [split; [intros [_ H]; contradiction | intros H; discriminate H] |].
      split; [intros _; eexists; reflexivity | intros _; auto].
    + assert (Hacc : ~ accepted_version major minor).
      { intros H. apply Hv in H. discriminate H. }
      split; [split; [intros H; contradiction | intros H; discriminate H] |].
      split; [split; [intros _; reflexivity | intros _; auto] |].
      split; [intros [_ H]; contradiction | intros (file & H); discriminate H].
  - split; [split; [intros _; reflexivity | intros _; exact Hs] |].
    split; [split; [intros [H _]; contradiction | intros H; discriminate H] |].
    split; [intros [H _]; contradiction | intros (file & H); discriminate H].
Qed.

Lemma IndexFile_Open_header (fuel : nat) (name : string) (data : list byte) :
  let header := take IndexFile._FILE_HEADER_SIZE data in
  let signature := member_uint IndexFile._FILE_HEADER "signature" header in
  let major := member_uint IndexFile._FILE_HEADER "major_version" header in
  let minor := member_uint IndexFile._FILE_HEADER "minor_version" header in
  let format_version := (format_d major ++ "." ++ format_d minor)%string in
  (IndexFile._FILE_HEADER_SIZE <= length data)%nat ->
  IndexFile.Open fuel name data
  = if negb (signature =? IndexFile.SIGNATURE) then
      Some ([Opened name],
            Raise (ParseError (UnsupportedIndexFileSignature signature)))
    else if negb (supported_version format_version) then
      Some ([Opened name],
            Raise (ParseError (UnsupportedIndexFileVersion format_version)))
    else if (IndexFile._FILE_HEADER_SIZE + IndexFile._LRU_DATA_SIZE
             <=? length data)%nat then
      let* _ := emit (Opened name) in
      let* index_table :=
        IndexFile._ReadIndexTable fuel
          (FileObject data
             (IndexFile._FILE_HEADER_SIZE + IndexFile._LRU_DATA_SIZE)) in
      ret (IndexFile.Build
             (member_uint IndexFile._FILE_HEADER "creation_time" header)
             format_version index_table)
    else
      Some ([Opened name], Raise (ParseError (UnableToRead "index file LRU"))).
Proof.
  intros header signature major minor format_version Hlen.
  unfold IndexFile.Open, IndexFile.ReadFileObject.
  rewrite IndexFile_ReadFileHeader_cases. cbv zeta.
  rewrite (take_length_eqb _ _ Hlen).
  fold header. fold signature. fold major. fold minor. fold format_version.
  destruct (negb (signature =? IndexFile.SIGNATURE)); [reflexivity |].
  destruct (negb (supported_version format_version)); [reflexivity |].
  unfold IndexFile._ReadLRUData.
  run_step. rewrite Nat2Z.id.
  destruct (Nat.leb_spec (IndexFile._FILE_HEADER_SIZE + IndexFile._LRU_DATA_SIZE)
              (length data)) as [Hlru|Hlru].
  - assert (Hl : length (take IndexFile._LRU_DATA_SIZE
                           (drop IndexFile._FILE_HEADER_SIZE data))
                 = IndexFile._LRU_DATA_SIZE).
    { rewrite length_take, length_drop. lia. }
    rewrite Hl, Nat.eqb_refl. run_step. cbv beta iota delta [snd].
    destruct (IndexFile._ReadIndexTable fuel _) as [[t [a|e]]|];
      [| reflexivity | reflexivity].
    rewrite !app_nil_r. reflexivity.
  - assert (Hl : (length (take IndexFile._LRU_DATA_SIZE
                            (drop IndexFile._FILE_HEADER_SIZE data))
                  =? IndexFile._LRU_DATA_SIZE)%nat = false).
    { apply Nat.eqb_neq. rewrite length_take, length_drop. lia. }
    rewrite Hl. reflexivity.
Qed.

Lemma IndexFile_Open_validation (fuel : nat) (name : string) (data : list byte) :
  let header := take IndexFile._FILE_HEADER_SIZE data in
  let signature := member_uint IndexFile._FILE_HEADER "signature" header in
  let major := member_uint IndexFile._FILE_HEADER "major_version" header in
  let minor := member_uint IndexFile._FILE_HEADER "minor_version" header in
  (IndexFile._FILE_HEADER_SIZE <= length data)%nat ->
  (signature <> IndexFile.SIGNATURE <->
   IndexFile.Open fuel name data
   = Some ([Opened name],
           Raise (ParseError (UnsupportedIndexFileSignature signature)))) /\
  (signature = IndexFile.SIGNATURE /\ ~ accepted_version major minor <->
   IndexFile.Open fuel name data
   = Some ([Opened name],
           Raise (ParseError (UnsupportedIndexFileVersion
                    (format_d major ++ "." ++ format_d minor)%string)))) /\
  (signature = IndexFile.SIGNATURE -> accepted_version major minor ->
   (IndexFile._FILE_HEADER_SIZE + IndexFile._LRU_DATA_SIZE <= length data)%nat ->
   ((length data - (IndexFile._FILE_HEADER_SIZE + IndexFile._LRU_DATA_SIZE)) / 4
    < fuel)%nat ->
   exists file,
     IndexFile.Open fuel name data = Some ([Opened name], Return file)) /\
  (signature = IndexFile.SIGNATURE -> accepted_version major minor ->
   (length data < IndexFile._FILE_HEADER_SIZE + IndexFile._LRU_DATA_SIZE)%nat ->
   IndexFile.Open fuel name data
   = Some ([Opened name], Raise (ParseError (UnableToRead "index file LRU")))).
Proof.
  intros header signature major minor Hlen.
  rewrite (IndexFile_Open_header fuel name data Hlen). cbv zeta.
  fold header. fold signature. fold major. fold minor.
  pose proof (supported_version_spec major minor
                (member_uint_nonneg _ _ _) (member_uint_nonneg _ _ _)) as Hv.
  destruct (Z.eqb_spec signature IndexFile.SIGNATURE) as [Hs|Hs];
    simpl negb; cbv iota.
  - destruct (supported_version _) eqn:Hsup; simpl negb; cbv iota.
    + assert (Hacc : accepted_version major minor) by (apply Hv; reflexivity).
      split.
      { split; [intros H; contradiction |].
        destruct (_ <=? _)%nat; [| intros H; discriminate H].
        unfold bind, emit.
        destruct (IndexFile._ReadIndexTable fuel _) as [[t [a|e]]|] eqn:Ht;
          intros H; try discriminate H.
        exfalso. exact (ReadIndexTable_no_raise _ _ _ _ Ht). }
      split.
      { split; [intros [_ H]; contradiction |].
        destruct (_ <=? _)%nat; [| intros H; discriminate H].
        unfold bind, emit.
        destruct (IndexFile._ReadIndexTable fuel _) as [[t [a|e]]|] eqn:Ht;
          intros H; try discriminate H.
        exfalso. exact (ReadIndexTable_no_raise _ _ _ _ Ht). }
      split.
      { intros _ _ Hlru Hfuel.
        destruct (ReadIndexTable_words
                    (FileObject data
                       (IndexFile._FILE_HEADER_SIZE + IndexFile._LRU_DATA_SIZE))
                    fuel) as (table & Htable & _).
        { simpl content. simpl position. rewrite length_drop. exact Hfuel. }
        apply Nat.leb_le in Hlru. rewrite Hlru, Htable.
        eexists. reflexivity. }
      { intros _ _ Hlru. apply Nat.leb_gt in Hlru. rewrite Hlru.
        reflexivity. }
    + assert (Hacc : ~ accepted_version major minor).
      { intros H. apply Hv in H. discriminate H. }
      split; [split; [intros H; contradiction | intros H; discriminate H] |].
      split; [split; [intros _; reflexivity | intros _; auto] |].
      split; [intros _ H; contradiction | intros _ H; contradiction].
  - split; [split; [intros _; reflexivity | intros _; exact Hs] |].
    split; [split; [intros [H _]; contradiction | intros H; discriminate H] |].
    split; [intros H; contradiction | intros H; contradiction].
Qed.

(** C9, as amended. For both readers, when the header can be read, opening
    fails with the signature error exactly when the signature field
    differs from the magic of the reader (0xC104CAC3 for a data block
    file, 0xC103CAC3 for the index file), and with the version error
    exactly when the signature matches and major.minor is neither 2.0 nor
    2.1.  With a matching signature and an accepted version a data block
    file opens; the index file opens when the LRU data after the header
    can be read as well, and fails with a read error when it cannot. *)
Theorem Open_validates_signature_and_version :
  (forall (name : string) (data : list byte),
     let header := take DataBlockFile._FILE_HEADER_SIZE data in
     let signature :=
       member_uint DataBlockFile._FILE_HEADER "signature" header in
     let major :=
       member_uint DataBlockFile._FILE_HEADER "major_version" header in
     let minor :=
       member_uint DataBlockFile._FILE_HEADER "minor_version" header in
     (DataBlockFile._FILE_HEADER_SIZE <= length data)%nat ->
     (signature <> 0xc104cac3 <->
      DataBlockFile.Open name data
      = Some ([Opened name],
              Raise (ParseError (UnsupportedDataBlockFileSignature signature)))) /\
     (signature = 0xc104cac3 /\ ~ accepted_version major minor <->
      DataBlockFile.Open name data
      = Some ([Opened name],
              Raise (ParseError (UnsupportedDataBlockFileVersion
                       (format_d major ++ "." ++ format_d minor)%string)))) /\
     (signature = 0xc104cac3 /\ accepted_version major minor <->
      exists file,
        DataBlockFile.Open name data = Some ([Opened name], Return file)))
  /\
  (forall (fuel : nat) (name : string) (data : list byte),
     let header := take IndexFile._FILE_HEADER_SIZE data in
     let signature := member_uint IndexFile._FILE_HEADER "signature" header in
     let major := member_uint IndexFile._FILE_HEADER "major_version" header in
     let minor := member_uint IndexFile._FILE_HEADER "minor_version" header in
     (IndexFile._FILE_HEADER_SIZE <= length data)%nat ->
     (signature <> 0xc103cac3 <->
      IndexFile.Open fuel name data
      = Some ([Opened name],
              Raise (ParseError (UnsupportedIndexFileSignature signature)))) /\
     (signature = 0xc103cac3 /\ ~ accepted_version major minor <->
      IndexFile.Open fuel name data
      = Some ([Opened name],
              Raise (ParseError (UnsupportedIndexFileVersion
                       (format_d major ++ "." ++ format_d minor)%string)))) /\
     (signature = 0xc103cac3 -> accepted_version major minor ->
      (IndexFile._FILE_HEADER_SIZE + IndexFile._LRU_DATA_SIZE
       <= length data)%nat ->
      ((length data - (IndexFile._FILE_HEADER_SIZE + IndexFile._LRU_DATA_SIZE))
       / 4 < fuel)%nat ->
      exists file,
        IndexFile.Open fuel name data = Some ([Opened name], Return file)) /\
     (signature = 0xc103cac3 -> accepted_version major minor ->
      (length data < IndexFile._FILE_HEADER_SIZE + IndexFile._LRU_DATA_SIZE)%nat ->
      IndexFile.Open fuel name data
      = Some ([Opened name],
              Raise (ParseError (UnableToRead "index file LRU"))))).
Proof.
  split.
  - intros name data. apply DataBlockFile_Open_validation.
  - intros fuel name data. apply IndexFile_Open_validation.
Qed.

Lemma Open_validates_signature_and_version_witness :
  exists file,
    DataBlockFile.Open "data_0" (Fixture.data_header 0xc104cac3 2 1)
    = Some ([Opened "data_0"%string], Return file).
Proof.
  destruct (proj1 Open_validates_signature_and_version "data_0"%string
              (Fixture.data_header 0xc104cac3 2 1)) as (_ & _ & Hopen).
  - apply Nat.leb_le. vm_compute. reflexivity.
  - apply Hopen. split; [vm_compute; reflexivity |].
    split; [vm_compute; reflexivity | right; vm_compute; reflexivity].
Defined.

(** C9, as stated, fails.  An index file that ends after its header has a
    readable header, the signature of the index file and version 2.0, and
    opening it fails, on the LRU data; a data block file whose signature
    and version are both wrong fails with the signature error, not with
    the version error. *)
Lemma Open_valid_index_header_fails :
  (IndexFile._FILE_HEADER_SIZE
   <=? length (Fixture.index_header 0xc103cac3 2 0))%nat = true /\
  member_uint IndexFile._FILE_HEADER "signature"
    (Fixture.index_header 0xc103cac3 2 0) = 0xc103cac3 /\
  member_uint IndexFile._FILE_HEADER "major_version"
    (Fixture.index_header 0xc103cac3 2 0) = 2 /\
  member_uint IndexFile._FILE_HEADER "minor_version"
    (Fixture.index_header 0xc103cac3 2 0) = 0 /\
  IndexFile.Open 100 "index" (Fixture.index_header 0xc103cac3 2 0)
  = Some ([Opened "index"%string],
          Raise (ParseError (UnableToRead "index file LRU"))) /\
  member_uint DataBlockFile._FILE_HEADER "major_version"
    (Fixture.data_header 5 3 0) = 3 /\
  DataBlockFile.Open "data_0" (Fixture.data_header 5 3 0)
  = Some ([Opened "data_0"%string],
          Raise (ParseError (UnsupportedDataBlockFileSignature 5))).
Proof. repeat split; vm_compute; reflexivity. Qed.

End OpenFacts.

(** ** Traces *)

Definition is_print (ev : event) : bool :=
  match ev with
  | Print _ _ => true
  | _ => false
  end.

(** The number of records a run printed. *)
Fixpoint count_prints (trace : list event) : nat :=
  match trace with
  | [] => 0
  | ev :: trace' =>
      ((if is_print ev then 1 else 0) + count_prints trace')%nat
  end.

(** The files a run opened, in order. *)
Fixpoint opened_names (trace : list event) : list string :=
  match trace with
  | [] => []
  | Opened name :: trace' => name :: opened_names trace'
  | _ :: trace' => opened_names trace'
  end.

(** A trace of log records only. *)
Definition only_logs (trace : list event) : Prop :=
  Forall (fun ev => exists severity message, ev = Log severity message) trace.


Section TraceFacts.

Lemma count_prints_app t1 t2 :
  count_prints (t1 ++ t2) = (count_prints t1 + count_prints t2)%nat.
Proof. induction t1 as [|ev t1 IH]; simpl; [reflexivity | rewrite IH; lia]. Qed.

Lemma opened_names_app t1 t2 :
  opened_names (t1 ++ t2) = opened_names t1 ++ opened_names t2.
Proof.
  induction t1 as [|ev t1 IH]; simpl; [reflexivity |].
  destruct ev; simpl; rewrite IH; reflexivity.
Qed.

Lemma only_logs_prints t : only_logs t -> count_prints t = 0%nat.
Proof.
  induction 1 as [|ev t (severity & message & ->) _ IH]; simpl;
    [reflexivity | exact IH].
Qed.

Lemma only_logs_opened t : only_logs t -> opened_names t = [].
Proof.
  induction 1 as [|ev t (severity & message & ->) _ IH]; simpl;
    [reflexivity | exact IH].
Qed.

Lemma opened_names_elem name t :
  In (Opened name) t <-> In name (opened_names t).
Proof.
  induction t as [|ev t IH]; simpl; [tauto |].
  destruct ev; simpl; rewrite <- IH; split;
    try (intros [H|H]; [discriminate H | exact H]); try tauto.
  - intros [[= ->]|H]; auto.
  - intros [->|H]; auto.
Qed.

(** A property of traces that holds of every step of a loop holds of the
    loop. *)
Lemma for_each_trace {S I : Type} (P : list event -> Prop)
    (body : S -> I -> run S) (items : list I) :
  P [] -> (forall t1 t2, P t1 -> P t2 -> P (t1 ++ t2)) ->
  (forall s i t r, In i items -> body s i = Some (t, r) -> P t) ->
  forall s t r, for_each body s items = Some (t, r) -> P t.
Proof.
  intros Hnil Happ. induction items as [|i items IH]; intros Hbody s t r; simpl.
  - intros [= <- _]. exact Hnil.
  - intros H. apply bind_inv in H as [(e & H & _)|(t1 & a & t2 & H1 & H2 & ->)].
    + eapply Hbody; [left; reflexivity | exact H].
    + apply Happ.
      * eapply Hbody; [left; reflexivity | exact H1].
      * eapply IH; [| exact H2]. intros s' i' t' r' Hin. apply Hbody.
        right. exact Hin.
Qed.

End TraceFacts.

(** ** Following a chain *)

Section ChainFacts.

Import ChromeCacheParser.

Lemma ReadCacheEntry_runs (self : DataBlockFile.t) (block_offset : option Z) :
  exists t r,
    DataBlockFile.ReadCacheEntry self block_offset = Some (t, r) /\
    only_logs t.
Proof.
  destruct block_offset as [offset|].
  - destruct (Z.lt_ge_cases offset 0) as [Hneg|Hoffset].
    { exists [], (Raise (ParseError (UnableToRead "data block cache entry"))).
      split; [| constructor].
      unfold DataBlockFile.ReadCacheEntry.
      rewrite ReadStructure_below by exact Hneg. reflexivity. }
    destruct (Nat.eq_dec
                (length (take 256%nat
                           (drop (Z.to_nat offset)
                              (content (DataBlockFile._file_object self)))))
                256%nat) as [Hlen|Hlen].
    + destruct (ReadCacheEntry_returns self offset Hoffset Hlen)
        as (entry & Hrun & _).
      eexists _, _. split; [exact Hrun |].
      destruct (forallb is_ascii _); repeat constructor. eauto.
    + exists [], (Raise (ParseError (UnableToRead "data block cache entry"))).
      split; [| constructor].
      unfold DataBlockFile.ReadCacheEntry.
      rewrite ReadStructure_at by exact Hoffset.
      change DataBlockFile._CACHE_ENTRY_SIZE with 256%nat. cbv zeta.
      apply Nat.eqb_neq in Hlen. rewrite Hlen. reflexivity.
  - exists [], (Raise TypeError). split; [reflexivity | constructor].
Qed.

Lemma follow_chain_unfold fuel files a n :
  follow_chain (S fuel) files a n
  = if negb (CacheAddress.value a =? 0) then
      if (64 <=? n)%nat then emit (Log ERROR MaximumChainLengthReached)
      else
        match get files (CacheAddress.filename a) with
        | None =>
            emit (Log WARNING (CacheAddressMissingFilename (CacheAddress.value a)))
        | Some data_file =>
            let* cache_entry :=
              DataBlockFile.ReadCacheEntry data_file (CacheAddress.block_offset a) in
            let* _ := decode_unicode_key (CacheEntry.key cache_entry) in
            let* date := date_string (CacheEntry.creation_time cache_entry) in
            let* _ := emit (Print date (CacheEntry.key cache_entry)) in
            follow_chain fuel files (CacheEntry.next cache_entry) (n + 1)
        end
    else ret tt.
Proof. reflexivity. Qed.


(** At most 64 entries are printed for a chain, counted from the value of
    the counter, and following a chain opens no file. *)
Lemma follow_chain_trace (fuel : nat) :
  forall files a n t r,
    follow_chain fuel files a n = Some (t, r) ->
    (count_prints t <= 64 - n)%nat /\ opened_names t = [].
Proof.
  destruct fuel as [|fuel]; intros files a n t r; [discriminate |].
  rewrite follow_chain_unfold.
  destruct (negb _); [| intros [= <- _]; simpl; split; [lia | reflexivity]].
  destruct (Nat.leb_spec 64 n) as [Hn|Hn];
    [intros [= <- _]; simpl; split; [lia | reflexivity] |].
  destruct (get files _) as [data_file|];
    [| intros [= <- _]; simpl; split; [lia | reflexivity]].
  destruct (ReadCacheEntry_runs data_file (CacheAddress.block_offset a))
    as (t0 & r0 & Hrun & Hlogs).
  pose proof (only_logs_prints _ Hlogs) as Hp0.
  pose proof (only_logs_opened _ Hlogs) as Ho0.
  intros H.
  apply bind_inv in H as [(e & H & _)|(t1 & entry & t2 & H1 & H & ->)].
  { rewrite Hrun in H. injection H as <- _. rewrite Hp0, Ho0.
    split; [lia | reflexivity]. }
  rewrite Hrun in H1. injection H1 as <- _.
  rewrite count_prints_app, opened_names_app, Hp0, Ho0. simpl.
  apply bind_inv in H as [(e & H & _)|(t1 & key & t3 & H1 & H & ->)].
  - unfold decode_unicode_key in H. injection H as <- _.
    simpl; split; [lia | reflexivity].
  - unfold decode_unicode_key in H1. discriminate H1.
Qed.



(** One turn of the loop below the cap, at an address of an opened
    file: the entry is read and printed, and the chain goes on from its
    next address with the counter one higher. *)
Lemma follow_chain_entry fuel files a n data_file :
  CacheAddress.value a <> 0 -> (n < 64)%nat ->
  get files (CacheAddress.filename a) = Some data_file ->
  follow_chain (S fuel) files a n
  = let* cache_entry :=
      DataBlockFile.ReadCacheEntry data_file (CacheAddress.block_offset a) in
    let* _ := decode_unicode_key (CacheEntry.key cache_entry) in
    let* date := date_string (CacheEntry.creation_time cache_entry) in
    let* _ := emit (Print date (CacheEntry.key cache_entry)) in
    follow_chain fuel files (CacheEntry.next cache_entry) (n + 1).
Proof.
  intros Hv Hn Hget. rewrite follow_chain_unfold.
  destruct (Z.eqb_spec (CacheAddress.value a) 0); [contradiction |].
  simpl negb. cbv iota. apply Nat.leb_gt in Hn. rewrite Hn, Hget.
  reflexivity.
Qed.

(** The entry that is read ends the run: the decoding of its key raises
    AttributeError.  A read that raises ends the run as well. *)
Lemma follow_chain_read fuel files a n data_file t r :
  CacheAddress.value a <> 0 -> (n < 64)%nat ->
  get files (CacheAddress.filename a) = Some data_file ->
  DataBlockFile.ReadCacheEntry data_file (CacheAddress.block_offset a)
  = Some (t, r) ->
  follow_chain (S fuel) files a n
  = Some (t, Raise match r with
                   | Return _ => AttributeError
                   | Raise e => e
                   end).
Proof.
  intros Hv Hn Hget Hread.
  rewrite (follow_chain_entry _ _ _ _ _ Hv Hn Hget).
  destruct r as [entry|e].
  - rewrite (bind_return _ _ _ _ Hread). cbv beta.
    unfold decode_unicode_key. simpl. rewrite app_nil_r. reflexivity.
  - rewrite (bind_raise _ _ _ _ Hread). reflexivity.
Qed.

End ChainFacts.

(** ** Opening the data block files of the index table *)

Section ScanFacts.

Import ChromeCacheParser.

Variable dir : directory.

Lemma DataBlockFile_Open_runs (name : string) (data : list byte) :
  exists r, DataBlockFile.Open name data = Some ([Opened name], r).
Proof.
  rewrite DataBlockFile_Open_cases. cbv zeta.
  destruct (_ =? _)%nat; [| eauto].
  destruct (negb (_ =? _)); [eauto |].
  destruct (negb (supported_version _)); eauto.
Qed.

(** What one pass of the loop body does, case by case. *)
Lemma open_data_block_file_cases files b (a : CacheAddress.t) :
  let step := open_data_block_file dir (files, b) a in
  (exists name f,
      CacheAddress.filename a = Some name /\ files !! name = Some f /\
      step = Some ([], Return (files, b))) \/
  (CacheAddress.filename a = None /\
   step = Some ([], Raise TypeError)) \/
  (exists name,
      CacheAddress.filename a = Some name /\ files !! name = None /\
      dir !! name = None /\
      step = Some ([Log ERROR (MissingDataBlockFile name)],
                   Return (files, false))) \/
  (exists name data f,
      CacheAddress.filename a = Some name /\ files !! name = None /\
      dir !! name = Some data /\
      DataBlockFile.Open name data = Some ([Opened name], Return f) /\
      step = Some ([Opened name], Return (<[name := f]> files, b))) \/
  (exists name data e,
      CacheAddress.filename a = Some name /\ files !! name = None /\
      dir !! name = Some data /\
      DataBlockFile.Open name data = Some ([Opened name], Raise e) /\
      step = Some ([Opened name], Raise e)).
Proof.
  intros step. unfold step, open_data_block_file, get.
  destruct (CacheAddress.filename a) as [name|]; [| right; left; auto].
  destruct (files !! name) as [f|] eqn:Hfile; [left; eauto |].
  destruct (dir !! name) as [data|] eqn:Hdata.
  - destruct (DataBlockFile_Open_runs name data) as ([f|e] & Hopen).
    + right; right; right; left. exists name, data, f.
      rewrite Hopen. auto.
    + right; right; right; right. exists name, data, e.
      rewrite Hopen. auto.
  - right; right; left. exists name. auto.
Qed.

Lemma open_data_block_file_terminates state a :
  open_data_block_file dir state a <> None.
Proof.
  destruct state as [files b].
  destruct (open_data_block_file_cases files b a)
    as [(?&?&?&?&H)|[(?&H)|[(?&?&?&?&H)|[(?&?&?&?&?&?&?&H)|(?&?&?&?&?&?&?&H)]]]];
    rewrite H; discriminate.
Qed.

(** Every file in the dict is a file of the directory. *)
Definition opened_exist (files : gmap string DataBlockFile.t) : Prop :=
  forall name, is_Some (files !! name) -> is_Some (dir !! name).

(** The first loop prints nothing; it keeps [have_all_data_block_files]
    False once it is, and makes it False when an address names a file
    that the directory does not have, logging the name. *)
Lemma scan_missing (values : list CacheAddress.t) :
  forall files b t r,
    for_each (open_data_block_file dir) (files, b) values = Some (t, r) ->
    opened_exist files ->
    count_prints t = 0%nat /\
    forall files' b',
      r = Return (files', b') ->
      opened_exist files' /\
      (b = false -> b' = false) /\
      forall a name,
        In a values -> CacheAddress.filename a = Some name ->
        dir !! name = None ->
        b' = false /\ In (Log ERROR (MissingDataBlockFile name)) t.
Proof.
  induction values as [|a values IH]; intros files b t r Hrun Hinv.
  - injection Hrun as <- <-. split; [reflexivity |].
    intros files' b' [= <- <-]. split; [exact Hinv |]. split; [auto |].
    intros a name [].
  - rewrite for_each_cons in Hrun.
    apply bind_inv in Hrun
      as [(e & Hstep & ->)|(t1 & [files1 b1] & t2 & Hstep & Hrest & ->)].
    + split; [| intros files' b' H; discriminate H].
      destruct (open_data_block_file_cases files b a)
        as [(?&?&?&?&H)|[(?&H)|[(?&?&?&?&H)|[(?&?&?&?&?&?&?&H)|(?&?&?&?&?&?&?&H)]]]];
        cbv zeta in H; rewrite H in Hstep; injection Hstep as <- _; reflexivity.
    + destruct (open_data_block_file_cases files b a)
        as [(name&f&Hname&Hfile&H)|[(Hname&H)|[(name&Hname&Hfile&Hdir&H)
           |[(name&data&f&Hname&Hfile&Hdir&Hopen&H)
            |(name&data&e&Hname&Hfile&Hdir&Hopen&H)]]]];
        cbv zeta in H; rewrite H in Hstep; try discriminate Hstep;
        injection Hstep as <- <- <-.
      * (* the file is in the dict already *)
        destruct (IH _ _ _ _ Hrest Hinv) as (Hp & Hret).
        split; [exact Hp |]. intros files' b' Hr.
        destruct (Hret _ _ Hr) as (Hinv' & Hb & Hmiss).
        split; [exact Hinv' |]. split; [exact Hb |].
        intros a' name' [<- | Hin] Hname' Hdir'; [| eauto].
        exfalso. rewrite Hname in Hname'. injection Hname' as <-.
        destruct (Hinv name) as [d Hd]; [eauto | congruence].
      * (* the file is missing *)
        destruct (IH _ _ _ _ Hrest Hinv) as (Hp & Hret).
        split; [simpl; exact Hp |]. intros files' b' Hr.
        destruct (Hret _ _ Hr) as (Hinv' & Hb & Hmiss).
        split; [exact Hinv' |]. split; [auto |].
        intros a' name' [<- | Hin] Hname' Hdir'.
        -- rewrite Hname in Hname'. injection Hname' as <-.
           split; [auto | left; reflexivity].
        -- destruct (Hmiss a' name' Hin Hname' Hdir') as [Hb' Hlog].
           split; [exact Hb' | right; exact Hlog].
      * (* the file is opened *)
        assert (Hinv1 : opened_exist (<[name := f]> files)).
        { intros n. destruct (decide (name = n)) as [<- | Hne].
          - intros _. eauto.
          - rewrite lookup_insert_ne by exact Hne. apply Hinv. }
        destruct (IH _ _ _ _ Hrest Hinv1) as (Hp & Hret).
        split; [simpl; exact Hp |]. intros files' b' Hr.
        destruct (Hret _ _ Hr) as (Hinv' & Hb & Hmiss).
        split; [exact Hinv' |]. split; [exact Hb |].
        intros a' name' [<- | Hin] Hname' Hdir'.
        -- rewrite Hname in Hname'. injection Hname' as <-. congruence.
        -- destruct (Hmiss a' name' Hin Hname' Hdir') as [Hb' Hlog].
           split; [exact Hb' | right; exact Hlog].
Qed.

(** The files the first loop opens are named by addresses of the table,
    exist, were not in the dict, and are opened once each; the dict it
    returns holds them and what it held before. *)
Lemma scan_opened (values : list CacheAddress.t) :
  forall files b t r,
    for_each (open_data_block_file dir) (files, b) values = Some (t, r) ->
    NoDup (opened_names t) /\
    (forall name,
        In name (opened_names t) ->
        files !! name = None /\ is_Some (dir !! name) /\
        exists a, In a values /\ CacheAddress.filename a = Some name) /\
    forall files' b',
      r = Return (files', b') ->
      forall name,
        is_Some (files' !! name) <->
        is_Some (files !! name) \/ In name (opened_names t).
Proof.
  induction values as [|a values IH]; intros files b t r Hrun.
  - injection Hrun as <- <-. split; [constructor |]. split; [intros name [] |].
    intros files' b' [= <- <-] name. simpl. tauto.
  - rewrite for_each_cons in Hrun.
    apply bind_inv in Hrun
      as [(e & Hstep & ->)|(t1 & [files1 b1] & t2 & Hstep & Hrest & ->)].
    + destruct (open_data_block_file_cases files b a)
        as [(?&?&?&?&H)|[(?&H)|[(?&?&?&?&H)
           |[(?&?&?&?&?&?&?&H)|(name&data&e'&Hname&Hfile&Hdir&Hopen&H)]]]];
        cbv zeta in H; rewrite H in Hstep; try discriminate Hstep.
      * injection Hstep as <- _.
        split; [constructor |]. split; [intros n [] |].
        intros files' b' Hr. discriminate Hr.
      * injection Hstep as <- _. simpl opened_names.
        split; [apply NoDup_singleton |].
        split; [| intros files' b' Hr; discriminate Hr].
        intros n [<- | []]. split; [exact Hfile |]. split; [eauto |].
        exists a. split; [left; reflexivity | exact Hname].
    + destruct (IH _ _ _ _ Hrest) as (Hnodup & Hnames & Hdom).
      destruct (open_data_block_file_cases files b a)
        as [(name&f&Hname&Hfile&H)|[(Hname&H)|[(name&Hname&Hfile&Hdir&H)
           |[(name&data&f&Hname&Hfile&Hdir&Hopen&H)
            |(name&data&e&Hname&Hfile&Hdir&Hopen&H)]]]];
        cbv zeta in H; rewrite H in Hstep; try discriminate Hstep;
        injection Hstep as <- <- <-; simpl.
      * split; [exact Hnodup |]. split; [| exact Hdom].
        intros n Hn. destruct (Hnames n Hn) as (H1 & H2 & a' & Ha' & Hf').
        split; [exact H1 |]. split; [exact H2 |]. exists a'. auto.
      * split; [exact Hnodup |]. split; [| exact Hdom].
        intros n Hn. destruct (Hnames n Hn) as (H1 & H2 & a' & Ha' & Hf').
        split; [exact H1 |]. split; [exact H2 |]. exists a'. auto.
      * assert (Hfresh : ~ In name (opened_names t2)).
        { intros Hn. destruct (Hnames name Hn) as (H1 & _).
          rewrite lookup_insert_eq in H1. discriminate H1. }
        split; [constructor; [rewrite list_elem_of_In; exact Hfresh | exact Hnodup] |].
        split.
        -- intros n [<- | Hn].
           ++ split; [exact Hfile |]. split; [eauto |].
              exists a. split; [left; reflexivity | exact Hname].
           ++ destruct (Hnames n Hn) as (H1 & H2 & a' & Ha' & Hf').
              assert (Hne : name <> n) by (intros ->; contradiction).
              rewrite lookup_insert_ne in H1 by exact Hne.
              split; [exact H1 |]. split; [exact H2 |]. exists a'. auto.
        -- intros files' b' Hr n. rewrite (Hdom files' b' Hr n).
           destruct (decide (name = n)) as [<- | Hne].
           ++ rewrite lookup_insert_eq. split; [auto |]. intros _. left. eauto.
           ++ rewrite lookup_insert_ne by exact Hne. split.
              ** intros [H1 | H1]; auto.
              ** intros [H1 | [H1 | H1]]; auto. contradiction.
Qed.

End ScanFacts.

(** ** Parsing a directory *)

Section ParseDirectoryFacts.

Import ChromeCacheParser.

Lemma IndexFile_Open_trace fuel name data t r :
  IndexFile.Open fuel name data = Some (t, r) -> t = [Opened name].
Proof.
  unfold IndexFile.Open, IndexFile.ReadFileObject. intros H.
  apply bind_inv in H as [(e & H & _)|(t1 & u & t2 & H1 & H & ->)];
    [discriminate H |].
  injection H1 as <- _. simpl. f_equal.
  apply bind_inv in H as [(e & H & _)|(t1 & [[ct fv] f] & t3 & H1 & H & ->)].
  { rewrite IndexFile_ReadFileHeader_cases in H. cbv zeta in H.
    destruct (_ =? _)%nat; [| injection H as <- _; reflexivity].
    destruct (negb (_ =? _)); [injection H as <- _; reflexivity |].
    destruct (negb (supported_version _)); [injection H as <- _; reflexivity |].
    discriminate H. }
  assert (t1 = []) as ->.
  { rewrite IndexFile_ReadFileHeader_cases in H1. cbv zeta in H1.
    destruct (_ =? _)%nat; [| discriminate H1].
    destruct (negb (_ =? _)); [discriminate H1 |].
    destruct (negb (supported_version _)); [discriminate H1 |].
    injection H1 as <- _. reflexivity. }
  simpl.
  apply bind_inv in H as [(e & H & _)|(t1 & f' & t4 & H1' & H & ->)].
  { unfold IndexFile._ReadLRUData in H. revert H. run_step.
    destruct (_ =? _)%nat; intros [= <- _]; reflexivity. }
  assert (t1 = []) as ->.
  { unfold IndexFile._ReadLRUData in H1'. revert H1'. run_step.
    destruct (_ =? _)%nat; intros [= <- _]; reflexivity. }
  simpl.
  apply bind_inv in H as [(e & H & _)|(t1 & table & t5 & H1'' & H & ->)].
  { apply ReadIndexTable_quiet in H. exact H. }
  apply ReadIndexTable_quiet in H1''. subst t1.
  injection H as <- _. reflexivity.
Qed.


(** Closing the files of the dict: one [Close] for each of its items. *)
Lemma close_files_trace (files : gmap string DataBlockFile.t) :
  close_files files
  = Some (map (fun item => Closed (fst item)) (map_to_list files), Return tt).
Proof.
  unfold close_files. generalize (map_to_list files). intros items.
  induction items as [|item items IH]; [reflexivity |].
  rewrite for_each_cons. unfold emit at 1. unfold bind. rewrite IH.
  reflexivity.
Qed.

Lemma closes_of_files (files : gmap string DataBlockFile.t) (name : string) :
  In (Closed name) (map (fun item => Closed (fst item)) (map_to_list files))
  <-> is_Some (files !! name).
Proof.
  rewrite in_map_iff. split.
  - intros ([n f] & [= <-] & Hin).
    apply list_elem_of_In, elem_of_map_to_list in Hin. eauto.
  - intros [f Hf]. exists (name, f). split; [reflexivity |].
    apply list_elem_of_In, elem_of_map_to_list. exact Hf.
Qed.

Lemma close_files_runs (files : gmap string DataBlockFile.t) :
  exists t,
    close_files files = Some (t, Return tt) /\
    count_prints t = 0%nat /\ opened_names t = [].
Proof.
  unfold close_files. generalize (map_to_list files). intros items.
  induction items as [|item items (t & Hrun & Hp & Ho)].
  - exists []. auto.
  - exists (Closed (fst item) :: t). rewrite for_each_cons.
    unfold emit at 1. unfold bind. rewrite Hrun. simpl. auto.
Qed.

Lemma chains_trace fuel files (values : list CacheAddress.t) :
  forall t r,
    for_each (fun _ a => follow_chain fuel files a 0) tt values = Some (t, r) ->
    (count_prints t <= 64 * length values)%nat /\ opened_names t = [].
Proof.
  induction values as [|a values IH]; intros t r H.
  - injection H as <- _. simpl. split; [lia | reflexivity].
  - rewrite for_each_cons in H.
    apply bind_inv in H as [(e & H & _)|(t1 & u & t2 & H1 & H & ->)].
    + apply follow_chain_trace in H as [Hp Ho]. simpl length. split; [lia | exact Ho].
    + apply follow_chain_trace in H1 as [Hp1 Ho1]. destruct u.
      apply IH in H as [Hp2 Ho2].
      rewrite count_prints_app, opened_names_app, Ho1, Ho2. simpl length.
      split; [lia | reflexivity].
Qed.


Lemma scan_terminates dir state (values : list CacheAddress.t) :
  for_each (open_data_block_file dir) state values <> None.
Proof.
  apply for_each_terminates. intros s a.
  apply open_data_block_file_terminates.
Qed.

Lemma opened_exist_empty dir : opened_exist dir ∅.
Proof. intros name [f Hf]. rewrite lookup_empty in Hf. discriminate Hf. Qed.

(** C1, as amended. When the index file opens and an address of the index
    table names a data block file that the directory does not have, no
    chain is followed and no record is printed, not even from the data
    block files that were opened: the run ends in an exception; when the
    first loop over the table returns (every other file it names could
    be opened), the missing file has been logged, every data block file
    that was opened is closed, once, then the index file, and the
    exception is the aggregate "Missing data block files.". *)
Theorem ParseDirectory_missing_data_block_file
    (fuel : nat) (dir : ChromeCacheParser.directory) (index_data : list byte)
    (t0 : list event) (index_file : IndexFile.t)
    (a : CacheAddress.t) (name : string) :
  dir !! "index"%string = Some index_data ->
  IndexFile.Open fuel "index" index_data = Some (t0, Return index_file) ->
  In a (map snd (IndexFile.index_table index_file)) ->
  CacheAddress.filename a = Some name ->
  dir !! name = None ->
  exists (trace : list event) (e : exception),
    ChromeCacheParser.ParseDirectory fuel dir = Some (trace, Raise e) /\
    count_prints trace = 0%nat /\
    forall t1 files b,
      for_each (ChromeCacheParser.open_data_block_file dir) (∅, true)
        (map snd (IndexFile.index_table index_file))
      = Some (t1, Return (files, b)) ->
      e = ParseError MissingDataBlockFiles /\
      In (Log ERROR (MissingDataBlockFile name)) trace /\
      exists closes,
        trace = t0 ++ t1 ++ closes ++ [Closed "index"%string] /\
        closes = map (fun item => Closed (fst item)) (map_to_list files) /\
        NoDup closes /\
        (forall n, In (Closed n) closes <-> In (Opened n) t1) /\
        (forall ev, In ev closes -> exists n, ev = Closed n).
Proof.
  intros Hdata Hopen Hin Hname Hmissing.
  pose proof (IndexFile_Open_trace _ _ _ _ _ Hopen) as Ht0.
  unfold ParseDirectory. rewrite Hdata.
  rewrite (bind_return _ _ _ _ Hopen). cbv beta.
  destruct (for_each (open_data_block_file dir) (∅, true)
              (map snd (IndexFile.index_table index_file)))
    as [[t1 r1]|] eqn:Hscan; [| exfalso; exact (scan_terminates _ _ _ Hscan)].
  destruct (scan_missing dir _ _ _ _ _ Hscan (opened_exist_empty dir))
    as (Hp1 & Hret).
  destruct r1 as [[files b]|e].
  - destruct (Hret files b eq_refl) as (_ & _ & Hmiss).
    destruct (Hmiss a name Hin Hname Hmissing) as [-> Hlog].
    rewrite (bind_return _ _ _ _ eq_refl). cbv beta iota.
    destruct (close_files_runs files) as (tc & Hclose & Hpc & _).
    pose proof (close_files_trace files) as Htc.
    rewrite Hclose in Htc. injection Htc as Htc.
    unfold ret at 1. unfold bind at 1. cbv beta iota.
    rewrite Hclose. cbv beta iota delta [bind emit raise negb].
    eexists _, _. split; [reflexivity |]. split.
    { rewrite !count_prints_app, Ht0, Hp1, Hpc. reflexivity. }
    intros t1' files' b' [= <- <- <-].
    split; [reflexivity |]. split.
    { apply in_or_app. right. apply in_or_app. left. exact Hlog. }
    exists tc. split; [simpl; reflexivity |].
    split; [exact Htc |]. subst tc.
    destruct (scan_opened dir _ ∅ true t1 _ Hscan) as (_ & _ & Hfiles).
    specialize (Hfiles files false eq_refl).
    split; [| split].
    + apply (NoDup_fmap_2_strong _).
      * intros [n1 f1] [n2 f2] H1 H2 [= Hn]. simpl in Hn. subst n2.
        apply elem_of_map_to_list in H1, H2. congruence.
      * apply NoDup_map_to_list.
    + intros n. rewrite closes_of_files, opened_names_elem, (Hfiles n).
      split; [| auto].
      intros [[f Hf]|Ho]; [| exact Ho].
      rewrite lookup_empty in Hf. discriminate Hf.
    + intros ev Hev. apply in_map_iff in Hev as (item & <- & _). eauto.
  - rewrite (bind_raise _ _ _ _ eq_refl).
    eexists _, _. split; [reflexivity |]. split.
    { rewrite count_prints_app, Ht0, Hp1. reflexivity. }
    intros t1' files' b' H. discriminate H.
Qed.

Lemma ParseDirectory_missing_data_block_file_witness :
  exists (trace : list event) (e : exception),
    ChromeCacheParser.ParseDirectory 100 Fixture.missing_dir
    = Some (trace, Raise e) /\
    count_prints trace = 0%nat.
Proof.
  edestruct (ParseDirectory_missing_data_block_file 100 Fixture.missing_dir)
    as (trace & e & Hrun & Hprints & _).
  - vm_compute. reflexivity.
  - vm_compute. reflexivity.
  - vm_compute. right. left. reflexivity.
  - vm_compute. reflexivity.
  - vm_compute. reflexivity.
  - exists trace, e. split; assumption.
Defined.

(** C1, as stated, fails.  The index file of this directory opens; its
    table names data_0, which opens and holds a readable entry with key
    "url", and data_1, which the directory does not have: the run prints
    no record and raises the aggregate error. *)
Lemma ParseDirectory_skips_recoverable_records :
  exists index_file trace,
    Fixture.missing_dir !! "index"%string = Some Fixture.two_chain_index /\
    IndexFile.Open 100 "index" Fixture.two_chain_index
    = Some ([Opened "index"%string], Return index_file) /\
    map (fun item => CacheAddress.filename (snd item))
      (IndexFile.index_table index_file)
    = [Some "data_0"%string; Some "data_1"%string] /\
    Fixture.missing_dir !! "data_1"%string = None /\
    Fixture.missing_dir !! "data_0"%string = Some Fixture.url_data /\
    (let* data_0 := DataBlockFile.Open "data_0" Fixture.url_data in
     let* entry := DataBlockFile.ReadCacheEntry data_0 (Some 8192) in
     ret (CacheEntry.creation_time entry, CacheEntry.key entry))
    = Some ([Opened "data_0"%string], Return (1000, [117; 114; 108])) /\
    ChromeCacheParser.ParseDirectory 100 Fixture.missing_dir
    = Some (trace, Raise (ParseError MissingDataBlockFiles)) /\
    count_prints trace = 0%nat.
Proof.
  eexists _, _. split; [reflexivity |].
  split; [vm_compute; reflexivity |].
  split; [vm_compute; reflexivity |].
  split; [reflexivity |]. split; [reflexivity |].
  repeat (split; [vm_compute; reflexivity |]).
  vm_compute. reflexivity.
Qed.









End ParseDirectoryFacts.

(** * More of the module *)

(** ** ChromeCacheParser.ParseFile *)

Module ParseFile.

(** What [_UINT32LE.MapByteStream] of dtfabric gives: the value, or one
    of its two errors.  ByteStreamTooSmallError is not a MappingError. *)
Inductive mapping : Type :=
| Mapped (value : Z)
| ByteStreamTooSmallError
| MappingError.

(** [_UINT32LE.MapByteStream]: the little-endian value of four bytes; on
    fewer bytes dtfabric raises ByteStreamTooSmallError. *)
Definition MapByteStream (data : list byte) : mapping :=
  if (length data <? 4)%nat then ByteStreamTooSmallError
  else Mapped (le_uint (take 4 data)).

(** How [ParseFile] ends. *)
Inductive ending : Type :=
| Parsed
    (* the method returns *)
| MapByteStreamRaised
    (* ByteStreamTooSmallError, which [except MappingError] lets through *)
| SignatureUnreadable
    (* ParseError u'Unable to signature with error: ...' *)
| SignatureUnsupported (signature : Z)
    (* ParseError u'Unsupported signature: 0x{0:08x}' *)
| ReaderRaised (e : exception)
    (* an exception of ReadFileObject *)
| CloseRaised.
    (* the exception of chrome_cache_file.Close() *)

(** Modelled from the spec: [BinaryDataFile.Close] of
    dtformats/data_format.py, which closes the file object that the
    object keeps and raises when it keeps none.
    [DataBlockFile.ReadFileObject] keeps the file object it is given;
    [IndexFile.ReadFileObject] keeps none. *)
Definition Close (keeps_file_object : bool) : ending :=
  if keeps_file_object then Parsed else CloseRaised.

(** [ParseFile(path)] on the file [data] at [path].  The file object is
    opened by the [with] statement, which closes it however the body
    ends; the reader gets the file object as the read of the signature
    left it. *)
Definition ParseFile (fuel : nat) (path : string) (data : list byte)
    : option (list event * ending) :=
  let file_object := FileObject data 0 in
  let '(signature_data, file_object) := read file_object 4 in
  match MapByteStream signature_data with
  | ByteStreamTooSmallError =>
      Some ([Opened path; Closed path], MapByteStreamRaised)
  | MappingError => Some ([Opened path; Closed path], SignatureUnreadable)
  | Mapped signature =>
      if negb (existsb (Z.eqb signature)
                 [DataBlockFile.SIGNATURE; IndexFile.SIGNATURE]) then
        Some ([Opened path; Closed path], SignatureUnsupported signature)
      else
        let reading :=
          if signature =? DataBlockFile.SIGNATURE then
            let* _ := DataBlockFile.ReadFileObject file_object in ret true
          else
            let* _ := IndexFile.ReadFileObject fuel file_object in
            ret false in
        match reading with
        | None => None
        | Some (t, Return keeps_file_object) =>
            Some ([Opened path] ++ t ++ [Closed path],
                  Close keeps_file_object)
        | Some (t, Raise e) =>
            Some ([Opened path] ++ t ++ [Closed path], ReaderRaised e)
        end
  end.

End ParseFile.

(** ** CacheAddress.GetDebugString *)

Module DebugString.

(** [_FILE_TYPE_DESCRIPTIONS.get(file_type, u'Unknown')] *)
Definition file_type_description (file_type : Z) : string :=
  if file_type =? 0 then "Separate file"
  else if file_type =? 1 then "Rankings block file"
  else if file_type =? 2 then "256 byte block file"
  else if file_type =? 3 then "1024 byte block file"
  else if file_type =? 4 then "4096 byte block file"
  else "Unknown".

(** [{0!s}] of a bool *)
Definition str_bool (b : bool) : string := if b then "True" else "False".

(** [GetDebugString]; [None] stands for the exception that formatting
    None with [{4:d}] raises. *)
Definition GetDebugString (self : CacheAddress.t) : option string :=
  if CacheAddress.value self =? 0x00000000 then
    Some ("0x" ++ format_0x 8 (CacheAddress.value self)
          ++ " (uninitialized)")%string
  else
    let description := file_type_description (CacheAddress.file_type self) in
    if CacheAddress.file_type self =? 0 then
      let filename :=
        match CacheAddress.filename self with
        | Some name => name
        | None => "None"%string
        end in
      Some ("0x" ++ format_0x 8 (CacheAddress.value self)
            ++ " (initialized: " ++ str_bool (CacheAddress.is_initialized self)
            ++ ", file type: " ++ description
            ++ ", filename: " ++ filename ++ ")")%string
    else
      match CacheAddress.filename self, CacheAddress.block_number self,
            CacheAddress.block_offset self, CacheAddress.block_size self with
      | Some filename, Some block_number, Some block_offset, Some block_size =>
          Some ("0x" ++ format_0x 8 (CacheAddress.value self)
                ++ " (initialized: "
                ++ str_bool (CacheAddress.is_initialized self)
                ++ ", file type: " ++ description
                ++ ", filename: " ++ filename
                ++ ", block number: " ++ format_d block_number
                ++ ", block offset: 0x" ++ format_0x 8 block_offset
                ++ ", block size: " ++ format_d block_size ++ ")")%string
      | _, _, _, _ => None
      end.

End DebugString.

(** ** ParseFile *)

Section ParseFileFacts.

Lemma header_signature_bytes (l : layout) (rest : layout) (h : list byte) :
  l = ("signature"%string, 4%nat) :: rest ->
  member_uint l "signature" h = le_uint (take 4 h).
Proof. intros ->. reflexivity. Qed.

Lemma data_header_version_bytes (h : list byte) :
  member_uint DataBlockFile._FILE_HEADER "minor_version" h
  = le_uint (take 2 (drop 4 h)) /\
  member_uint DataBlockFile._FILE_HEADER "major_version" h
  = le_uint (take 2 (drop 6 h)).
Proof.
  unfold member_uint, DataBlockFile._FILE_HEADER, member_bytes.
  simpl String.eqb. cbv iota. rewrite !drop_drop. split; reflexivity.
Qed.

Lemma index_header_version_bytes (h : list byte) :
  member_uint IndexFile._FILE_HEADER "minor_version" h
  = le_uint (take 2 (drop 4 h)) /\
  member_uint IndexFile._FILE_HEADER "major_version" h
  = le_uint (take 2 (drop 6 h)).
Proof.
  unfold member_uint, IndexFile._FILE_HEADER, member_bytes.
  simpl String.eqb. cbv iota. rewrite !drop_drop. split; reflexivity.
Qed.

(** A little-endian word is its low half plus 65536 times its high half. *)
Lemma le_uint_halves (l : list byte) :
  (4 <= length l)%nat ->
  le_uint (take 4 l) = le_uint (take 2 l) + 65536 * le_uint (take 2 (drop 2 l)).
Proof.
  destruct l as [|b0 [|b1 [|b2 [|b3 l]]]]; simpl; intros H; try lia.
Qed.

Lemma le_uint_take_prefix (n size : nat) (data : list byte) :
  (n <= size)%nat -> take n (take size data) = take n data.
Proof. intros H. rewrite take_take. f_equal. lia. Qed.

Lemma take_drop_prefix (n j size : nat) (data : list byte) :
  (j + n <= size)%nat -> take n (drop j (take size data)) = take n (drop j data).
Proof.
  intros H. revert j size H.
  induction data as [|b data IH]; intros j size H.
  - rewrite take_nil, !drop_nil. reflexivity.
  - destruct size as [|size]; [replace j with 0%nat by lia;
      replace n with 0%nat by lia; reflexivity |].
    destruct j as [|j].
    + rewrite !drop_0. rewrite take_take. f_equal. lia.
    + simpl. apply IH. lia.
Qed.

(** The word that [ReadFileObject] takes for the signature when the file
    object stands at 4: for a header with version 2.0 or 2.1 it is
    0x20000 or 0x20001. *)
Lemma version_word (data : list byte) (minor major : Z) :
  (8 <= length data)%nat ->
  le_uint (take 2 (drop 4 data)) = minor ->
  le_uint (take 2 (drop 6 data)) = major ->
  accepted_version major minor ->
  131072 <= le_uint (take 4 (drop 4 data)) <= 131073.
Proof.
  intros Hlen Hminor Hmajor (-> & Hm).
  rewrite le_uint_halves by (rewrite length_drop; lia).
  rewrite drop_drop. change (4 + 2)%nat with 6%nat.
  rewrite Hminor, Hmajor. lia.
Qed.

Lemma DataBlockFile_ReadFileObject_at (data : list byte) (p : nat) :
  DataBlockFile.ReadFileObject (FileObject data p)
  = let header := take DataBlockFile._FILE_HEADER_SIZE (drop p data) in
    let signature := le_uint (take 4 header) in
    let format_version :=
      (format_d (member_uint DataBlockFile._FILE_HEADER "major_version" header)
       ++ "." ++
       format_d (member_uint DataBlockFile._FILE_HEADER "minor_version" header))%string in
    if (length header =? DataBlockFile._FILE_HEADER_SIZE)%nat then
      if negb (signature =? DataBlockFile.SIGNATURE) then
        raise (ParseError (UnsupportedDataBlockFileSignature signature))
      else if negb (supported_version format_version) then
        raise (ParseError (UnsupportedDataBlockFileVersion format_version))
      else
        ret (DataBlockFile.Build
               (member_uint DataBlockFile._FILE_HEADER "block_size" header)
               format_version
               (member_uint DataBlockFile._FILE_HEADER "number_of_entries" header)
               (FileObject data p))
    else raise (ParseError (UnableToRead "data block file header")).
Proof.
  unfold DataBlockFile.ReadFileObject, DataBlockFile._ReadFileHeader.
  generalize DataBlockFile._FILE_HEADER_SIZE. intros size.
  run_step. rewrite Nat2Z.id.
  change (member_uint DataBlockFile._FILE_HEADER "signature"
            (take size (drop p data)))
    with (le_uint (take 4 (take size (drop p data)))).
  destruct (length (take size (drop p data)) =? size)%nat; [| reflexivity].
  run_step.
  destruct (negb (_ =? DataBlockFile.SIGNATURE)); [reflexivity |].
  run_step.
  destruct (negb (supported_version _)); reflexivity.
Qed.

Lemma IndexFile_ReadFileObject_at (fuel : nat) (data : list byte) (p : nat) :
  (length (take IndexFile._FILE_HEADER_SIZE (drop p data))
   =? IndexFile._FILE_HEADER_SIZE)%nat = false \/
  le_uint (take 4 (take IndexFile._FILE_HEADER_SIZE (drop p data)))
  <> IndexFile.SIGNATURE ->
  IndexFile.ReadFileObject fuel (FileObject data p)
  = if (length (take IndexFile._FILE_HEADER_SIZE (drop p data))
        =? IndexFile._FILE_HEADER_SIZE)%nat then
      raise (ParseError
               (UnsupportedIndexFileSignature
                  (le_uint (take 4 (take IndexFile._FILE_HEADER_SIZE
                                      (drop p data))))))
    else raise (ParseError (UnableToRead "index file header")).
Proof.
  unfold IndexFile.ReadFileObject, IndexFile._ReadFileHeader.
  generalize IndexFile._FILE_HEADER_SIZE. intros size H.
  run_step. rewrite Nat2Z.id.
  change (member_uint IndexFile._FILE_HEADER "signature"
            (take size (drop p data)))
    with (le_uint (take 4 (take size (drop p data)))).
  destruct (length (take size (drop p data)) =? size)%nat; [| reflexivity].
  destruct H as [H | H]; [discriminate H |]. run_step.
  change (member_uint IndexFile._FILE_HEADER "signature"
            (take size (drop p data)))
    with (le_uint (take 4 (take size (drop p data)))).
  destruct (Z.eqb_spec (le_uint (take 4 (take size (drop p data))))
              IndexFile.SIGNATURE); [contradiction | reflexivity].
Qed.

Lemma header_sizes :
  (8 <= DataBlockFile._FILE_HEADER_SIZE)%nat /\
  (8 <= IndexFile._FILE_HEADER_SIZE)%nat.
Proof. split; apply Nat.leb_le; vm_compute; reflexivity. Qed.

(** [ParseFile] once the signature has been read from a file of four
    bytes or more. *)
Lemma ParseFile_unfold (fuel : nat) (path : string) (data : list byte) :
  (4 <= length data)%nat ->
  ParseFile.ParseFile fuel path data
  = let signature := le_uint (take 4 data) in
    if negb (existsb (Z.eqb signature)
               [DataBlockFile.SIGNATURE; IndexFile.SIGNATURE]) then
      Some ([Opened path; Closed path], ParseFile.SignatureUnsupported signature)
    else
      match (if signature =? DataBlockFile.SIGNATURE then
               let* _ := DataBlockFile.ReadFileObject (FileObject data 4) in
               ret true
             else
               let* _ := IndexFile.ReadFileObject fuel (FileObject data 4) in
               ret false) with
      | None => None
      | Some (t, Return keeps_file_object) =>
          Some ([Opened path] ++ t ++ [Closed path],
                ParseFile.Close keeps_file_object)
      | Some (t, Raise e) =>
          Some ([Opened path] ++ t ++ [Closed path], ParseFile.ReaderRaised e)
      end.
Proof.
  intros Hlen. unfold ParseFile.ParseFile, read. simpl content. simpl position.
  rewrite drop_0. cbv zeta.
  assert (Hl : length (take 4 data) = 4%nat) by (rewrite length_take; lia).
  unfold ParseFile.MapByteStream. rewrite Hl. simpl Nat.ltb. cbv iota.
  rewrite take_take. simpl Nat.min. simpl Nat.add. reflexivity.
Qed.

Lemma stale_signature_differs (w : Z) :
  131072 <= w <= 131073 ->
  w <> DataBlockFile.SIGNATURE /\ w <> IndexFile.SIGNATURE.
Proof.
  intros H. unfold DataBlockFile.SIGNATURE, IndexFile.SIGNATURE. lia.
Qed.

(** ParseFile reads the signature and hands the file object, now at
    offset 4, to ReadFileObject, which reads the header from where the
    file object stands.  So a file that Open accepts (header at offset 0,
    version 2.0 or 2.1) is refused by ParseFile: the reader takes the
    version fields, 0x20000 or 0x20001, for the signature, or cannot read
    a whole header. *)
Theorem ParseFile_refuses_files_that_open :
  (forall (fuel : nat) (path : string) (data : list byte)
          (file : DataBlockFile.t),
      DataBlockFile.Open path data = Some ([Opened path], Return file) ->
      exists e,
        ParseFile.ParseFile fuel path data
        = Some ([Opened path; Closed path],
                ParseFile.ReaderRaised (ParseError e)) /\
        (e = UnableToRead "data block file header" \/
         exists w, e = UnsupportedDataBlockFileSignature w /\
                   131072 <= w <= 131073)) /\
  (forall (fuel : nat) (path : string) (data : list byte) (t : list event)
          (file : IndexFile.t),
      IndexFile.Open fuel path data = Some (t, Return file) ->
      exists e,
        ParseFile.ParseFile fuel path data
        = Some ([Opened path; Closed path],
                ParseFile.ReaderRaised (ParseError e)) /\
        (e = UnableToRead "index file header" \/
         exists w, e = UnsupportedIndexFileSignature w /\
                   131072 <= w <= 131073)).
Proof.
  destruct header_sizes as [HsizeD HsizeI]. split.
  - intros fuel path data file Hopen.
    rewrite DataBlockFile_Open_cases in Hopen. cbv zeta in Hopen.
    destruct (length (take DataBlockFile._FILE_HEADER_SIZE data)
              =? DataBlockFile._FILE_HEADER_SIZE)%nat eqn:Hlen;
      [| discriminate Hopen].
    apply Nat.eqb_eq in Hlen. rewrite length_take in Hlen.
    destruct (Z.eqb_spec
                (member_uint DataBlockFile._FILE_HEADER "signature"
                   (take DataBlockFile._FILE_HEADER_SIZE data))
                DataBlockFile.SIGNATURE) as [Hsig|Hsig];
      [| discriminate Hopen].
    simpl negb in Hopen. cbv iota in Hopen.
    destruct (supported_version _) eqn:Hsup; [| discriminate Hopen].
    apply supported_version_spec in Hsup; try apply member_uint_nonneg.
    destruct (data_header_version_bytes
                (take DataBlockFile._FILE_HEADER_SIZE data)) as [Hmin Hmaj].
    rewrite take_drop_prefix in Hmin, Hmaj by lia.
    pose proof (version_word data _ _ ltac:(lia) (eq_sym Hmin) (eq_sym Hmaj)
                  Hsup) as Hword.
    destruct (stale_signature_differs _ Hword) as [HneD _].
    change (member_uint DataBlockFile._FILE_HEADER "signature"
              (take DataBlockFile._FILE_HEADER_SIZE data))
      with (le_uint (take 4 (take DataBlockFile._FILE_HEADER_SIZE data)))
      in Hsig.
    rewrite le_uint_take_prefix in Hsig by lia.
    rewrite ParseFile_unfold by lia. cbv zeta. rewrite Hsig.
    simpl existsb. rewrite Z.eqb_refl. simpl negb. cbv iota.
    rewrite DataBlockFile_ReadFileObject_at. cbv zeta.
    destruct (length (take DataBlockFile._FILE_HEADER_SIZE (drop 4 data))
              =? DataBlockFile._FILE_HEADER_SIZE)%nat eqn:Hlen4.
    + apply Nat.eqb_eq in Hlen4. rewrite length_take, length_drop in Hlen4.
      rewrite le_uint_take_prefix by lia.
      destruct (Z.eqb_spec (le_uint (take 4 (drop 4 data)))
                  DataBlockFile.SIGNATURE); [contradiction |].
      eexists. split; [reflexivity |]. right. eauto.
    + eexists. split; [reflexivity |]. left. reflexivity.
  - intros fuel path data t file Hopen.
    destruct (le_lt_dec IndexFile._FILE_HEADER_SIZE (length data))
      as [Hlen|Hlen].
    2:{ exfalso. revert Hopen.
        unfold IndexFile.Open, IndexFile.ReadFileObject.
        rewrite IndexFile_ReadFileHeader_cases. cbv zeta.
        assert (Hl : (length (take IndexFile._FILE_HEADER_SIZE data)
                      =? IndexFile._FILE_HEADER_SIZE)%nat = false).
        { apply Nat.eqb_neq. rewrite length_take. lia. }
        rewrite Hl. discriminate. }
    destruct (IndexFile_Open_validation fuel path data Hlen)
      as (Hsig & Hver & _).
    destruct (Z.eq_dec
                (member_uint IndexFile._FILE_HEADER "signature"
                   (take IndexFile._FILE_HEADER_SIZE data))
                IndexFile.SIGNATURE) as [Hs|Hs].
    2:{ apply Hsig in Hs. rewrite Hs in Hopen. discriminate Hopen. }
    assert (Hacc : accepted_version
                     (member_uint IndexFile._FILE_HEADER "major_version"
                        (take IndexFile._FILE_HEADER_SIZE data))
                     (member_uint IndexFile._FILE_HEADER "minor_version"
                        (take IndexFile._FILE_HEADER_SIZE data))).
    { pose proof (supported_version_spec
                    (member_uint IndexFile._FILE_HEADER "major_version"
                       (take IndexFile._FILE_HEADER_SIZE data))
                    (member_uint IndexFile._FILE_HEADER "minor_version"
                       (take IndexFile._FILE_HEADER_SIZE data))
                    (member_uint_nonneg _ _ _) (member_uint_nonneg _ _ _))
        as Hv.
      destruct (supported_version _) eqn:Hsup; [apply Hv; reflexivity |].
      exfalso.
      assert (Hn : ~ accepted_version
                     (member_uint IndexFile._FILE_HEADER "major_version"
                        (take IndexFile._FILE_HEADER_SIZE data))
                     (member_uint IndexFile._FILE_HEADER "minor_version"
                        (take IndexFile._FILE_HEADER_SIZE data))).
      { intros H. apply Hv in H. discriminate H. }
      rewrite (proj1 Hver (conj Hs Hn)) in Hopen. discriminate Hopen. }
    destruct (index_header_version_bytes
                (take IndexFile._FILE_HEADER_SIZE data)) as [Hmin Hmaj].
    rewrite take_drop_prefix in Hmin, Hmaj by lia.
    pose proof (version_word data _ _ ltac:(lia) (eq_sym Hmin) (eq_sym Hmaj)
                  Hacc) as Hword.
    destruct (stale_signature_differs _ Hword) as [_ HneI].
    change (member_uint IndexFile._FILE_HEADER "signature"
              (take IndexFile._FILE_HEADER_SIZE data))
      with (le_uint (take 4 (take IndexFile._FILE_HEADER_SIZE data))) in Hs.
    rewrite le_uint_take_prefix in Hs by lia.
    rewrite ParseFile_unfold by lia. cbv zeta. rewrite Hs.
    change (existsb (Z.eqb IndexFile.SIGNATURE)
              [DataBlockFile.SIGNATURE; IndexFile.SIGNATURE]) with true.
    change (IndexFile.SIGNATURE =? DataBlockFile.SIGNATURE) with false.
    simpl negb. cbv iota.
    rewrite IndexFile_ReadFileObject_at.
    + destruct (length (take IndexFile._FILE_HEADER_SIZE (drop 4 data))
                =? IndexFile._FILE_HEADER_SIZE)%nat eqn:Hlen4.
      * apply Nat.eqb_eq in Hlen4. rewrite length_take, length_drop in Hlen4.
        rewrite le_uint_take_prefix by lia.
        eexists. split; [reflexivity |]. right. eauto.
      * eexists. split; [reflexivity |]. left. reflexivity.
    + destruct (length (take IndexFile._FILE_HEADER_SIZE (drop 4 data))
                =? IndexFile._FILE_HEADER_SIZE)%nat eqn:Hlen4; [| auto].
      right. apply Nat.eqb_eq in Hlen4.
      rewrite length_take, length_drop in Hlen4.
      rewrite le_uint_take_prefix by lia. exact HneI.
Qed.

Lemma ParseFile_refuses_files_that_open_witness :
  exists e,
    ParseFile.ParseFile 0 "data_0" (Fixture.data_header 0xc104cac3 2 1)
    = Some ([Opened "data_0"%string; Closed "data_0"%string],
            ParseFile.ReaderRaised (ParseError e)).
Proof.
  destruct (DataBlockFile_Open_validation "data_0"%string
              (Fixture.data_header 0xc104cac3 2 1)) as (_ & _ & Hopens).
  { apply Nat.leb_le. vm_compute. reflexivity. }
  destruct (proj1 Hopens) as (file & Hopen).
  { split; [vm_compute; reflexivity |].
    split; [vm_compute; reflexivity | right; vm_compute; reflexivity]. }
  destruct (proj1 ParseFile_refuses_files_that_open 0%nat "data_0"%string
              (Fixture.data_header 0xc104cac3 2 1) file Hopen)
    as (e & Hrun & _).
  exists e. exact Hrun.
Defined.

(** How ParseFile ends.  A file of fewer than four bytes ends it with
    the ByteStreamTooSmallError of the mapping, which the except clause
    does not catch, so the ParseError "Unable to signature" is never
    raised; a first word that is neither magic is refused; the method
    returns only for a first word that is the data block magic and is
    repeated at offset 4; for the index magic it never returns: the
    reader raises or [Close] does. *)
Theorem ParseFile_signature :
  forall (fuel : nat) (path : string) (data : list byte),
    (ParseFile.ParseFile fuel path data
     = Some ([Opened path; Closed path], ParseFile.MapByteStreamRaised)
     <-> (length data < 4)%nat) /\
    (forall t,
        ParseFile.ParseFile fuel path data
        <> Some (t, ParseFile.SignatureUnreadable)) /\
    (forall w,
        ParseFile.ParseFile fuel path data
        = Some ([Opened path; Closed path], ParseFile.SignatureUnsupported w)
        <-> (4 <= length data)%nat /\ w = le_uint (take 4 data) /\
            w <> 0xc104cac3 /\ w <> 0xc103cac3) /\
    (forall t,
        ParseFile.ParseFile fuel path data = Some (t, ParseFile.Parsed) ->
        (8 <= length data)%nat /\
        le_uint (take 4 data) = 0xc104cac3 /\
        le_uint (take 4 (drop 4 data)) = 0xc104cac3) /\
    (le_uint (take 4 data) = 0xc103cac3 ->
     forall t,
       ParseFile.ParseFile fuel path data <> Some (t, ParseFile.Parsed)).
Proof.
  intros fuel path data. destruct header_sizes as [HsizeD HsizeI].
  destruct (le_lt_dec 4 (length data)) as [Hlen|Hlen].
  2:{ assert (Hrun : ParseFile.ParseFile fuel path data
                     = Some ([Opened path; Closed path],
                             ParseFile.MapByteStreamRaised)).
      { unfold ParseFile.ParseFile, read. simpl content. simpl position.
        rewrite drop_0. cbv zeta. unfold ParseFile.MapByteStream.
        assert (Hl : (length (take 4 data) <? 4)%nat = true).
        { apply Nat.ltb_lt. rewrite length_take. lia. }
        rewrite Hl. reflexivity. }
      rewrite Hrun. split; [tauto |].
      split; [intros t H; discriminate H |]. split.
      - intros w. split; [discriminate | lia].
      - split; [intros t H | intros _ t H]; discriminate H. }
  rewrite ParseFile_unfold by exact Hlen. cbv zeta.
  set (signature := le_uint (take 4 data)).
  simpl existsb. rewrite orb_false_r.
  destruct (Z.eqb_spec signature DataBlockFile.SIGNATURE) as [HsD|HsD].
  - cbn [negb orb]. cbv iota.
    assert (Hret : forall t' u,
               (let* _ := DataBlockFile.ReadFileObject (FileObject data 4) in
                ret true) = Some (t', Return u) ->
               u = true /\ (8 <= length data)%nat /\
               le_uint (take 4 (drop 4 data)) = signature).
    { intros t' u H.
      apply bind_inv in H as [(e & _ & H)|(t1 & f & t2 & H & Hu & _)];
        [discriminate H |].
      injection Hu as _ <-.
      rewrite DataBlockFile_ReadFileObject_at in H. cbv zeta in H.
      destruct (_ =? _)%nat eqn:Hl; [| discriminate H].
      apply Nat.eqb_eq in Hl. rewrite length_take, length_drop in Hl.
      rewrite le_uint_take_prefix in H by lia.
      destruct (Z.eqb_spec (le_uint (take 4 (drop 4 data)))
                  DataBlockFile.SIGNATURE) as [Hw|Hw]; [| discriminate H].
      split; [reflexivity |]. split; [lia | congruence]. }
    assert (Hother : forall w : Z,
               (4 <= length data)%nat /\ w = signature /\
               w <> 0xc104cac3 /\ w <> 0xc103cac3 -> False).
    { intros w (_ & -> & Hw & _). contradiction. }
    destruct (let* _ := DataBlockFile.ReadFileObject (FileObject data 4) in
              ret true) as [[t' [u|e]]|].
    + destruct (Hret t' u eq_refl) as (-> & H8 & Hw). simpl ParseFile.Close.
      split; [split; [discriminate | lia] |].
      split; [intros t H; discriminate H |].
      split; [intros w; split; [discriminate | intros H; destruct (Hother w H)] |].
      split.
      * intros t _. split; [exact H8 |]. split; [exact HsD |].
        rewrite Hw. exact HsD.
      * intros HsI. exfalso. fold signature in HsI. rewrite HsD in HsI.
        discriminate HsI.
    + split; [split; [discriminate | lia] |].
      split; [intros t H; discriminate H |].
      split; [intros w; split; [discriminate | intros H; destruct (Hother w H)] |].
      split; [intros t H | intros _ t H]; discriminate H.
    + split; [split; [discriminate | lia] |].
      split; [intros t H; discriminate H |].
      split; [intros w; split; [discriminate | intros H; destruct (Hother w H)] |].
      split; [intros t H | intros _ t H]; discriminate H.
  - destruct (Z.eqb_spec signature IndexFile.SIGNATURE) as [HsI|HsI].
    + cbn [negb orb]. cbv iota.
      assert (Hret : forall t' u,
                 (let* _ := IndexFile.ReadFileObject fuel (FileObject data 4) in
                  ret false) = Some (t', Return u) ->
                 u = false /\ (8 <= length data)%nat /\
                 le_uint (take 4 (drop 4 data)) = signature).
      { intros t' u H.
        apply bind_inv in H as [(e & _ & H)|(t1 & f & t2 & H & Hu & _)];
          [discriminate H |].
        injection Hu as _ <-.
        destruct (length (take IndexFile._FILE_HEADER_SIZE (drop 4 data))
                  =? IndexFile._FILE_HEADER_SIZE)%nat eqn:Hl.
        2:{ rewrite IndexFile_ReadFileObject_at in H by (left; exact Hl).
            rewrite Hl in H. discriminate H. }
        destruct (Z.eq_dec
                    (le_uint (take 4 (take IndexFile._FILE_HEADER_SIZE
                                        (drop 4 data))))
                    IndexFile.SIGNATURE) as [Hw|Hw].
        2:{ rewrite IndexFile_ReadFileObject_at in H by (right; exact Hw).
            rewrite Hl in H. discriminate H. }
        apply Nat.eqb_eq in Hl. rewrite length_take, length_drop in Hl.
        rewrite le_uint_take_prefix in Hw by lia.
        split; [reflexivity |]. split; [lia | congruence]. }
      assert (Hother : forall w : Z,
                 (4 <= length data)%nat /\ w = signature /\
                 w <> 0xc104cac3 /\ w <> 0xc103cac3 -> False).
      { intros w (_ & -> & _ & Hw). contradiction. }
      destruct (let* _ := IndexFile.ReadFileObject fuel (FileObject data 4) in
                ret false) as [[t' [u|e]]|].
      * destruct (Hret t' u eq_refl) as (-> & H8 & Hw). simpl ParseFile.Close.
        split; [split; [discriminate | lia] |].
        split; [intros t H; discriminate H |].
        split; [intros w; split;
                  [discriminate | intros H; destruct (Hother w H)] |].
        split; [intros t H | intros _ t H]; discriminate H.
      * split; [split; [discriminate | lia] |].
        split; [intros t H; discriminate H |].
        split; [intros w; split;
                  [discriminate | intros H; destruct (Hother w H)] |].
        split; [intros t H | intros _ t H]; discriminate H.
      * split; [split; [discriminate | lia] |].
        split; [intros t H; discriminate H |].
        split; [intros w; split;
                  [discriminate | intros H; destruct (Hother w H)] |].
        split; [intros t H | intros _ t H]; discriminate H.
    + cbn [negb orb]. cbv iota. split; [split; [discriminate | lia] |].
      split; [intros t H; discriminate H |]. split.
      * intros w. split.
        -- intros [= <-]. auto.
        -- intros (_ & -> & _). reflexivity.
      * split; [intros t H | intros _ t H]; discriminate H.
Qed.

End ParseFileFacts.

(** ** Cache addresses, by kind *)

Section CacheAddressKinds.

Import CacheAddress.

Lemma string_length_append (s1 s2 : string) :
  String.length (s1 ++ s2) = (String.length s1 + String.length s2)%nat.
Proof. induction s1 as [|c s1 IH]; simpl; [reflexivity | rewrite IH; reflexivity]. Qed.

Lemma zeros_length (n : nat) : String.length (zeros n) = n.
Proof. induction n as [|n IH]; simpl; [reflexivity | rewrite IH; reflexivity]. Qed.

Lemma format_0x_length (width : nat) (n : Z) :
  (width <= String.length (format_0x width n))%nat.
Proof.
  unfold format_0x. rewrite string_length_append, zeros_length. lia.
Qed.

Lemma low_28_bits v : Z.land v 0x0fffffff = bits v 0 28.
Proof.
  unfold bits. change 0x0fffffff with (Z.ones 28).
  rewrite Z.land_ones by lia. rewrite Z.pow_0_r, Z.div_1_r. reflexivity.
Qed.

(** Bit 31 decides [is_initialized]. *)
Lemma initialized_bit v :
  negb (Z.land v 0x80000000 =? 0) = Z.testbit v 31.
Proof.
  destruct (Z.testbit v 31) eqn:Hbit.
  - destruct (Z.eqb_spec (Z.land v 0x80000000) 0) as [H|H]; [| reflexivity].
    apply (f_equal (fun x => Z.testbit x 31)) in H.
    rewrite Z.land_spec, Hbit in H. discriminate H.
  - destruct (Z.eqb_spec (Z.land v 0x80000000) 0) as [H|H]; [reflexivity |].
    exfalso. apply H. apply Z.bits_inj'. intros n Hn.
    rewrite Z.land_spec, Z.bits_0.
    destruct (Z.eq_dec n 31) as [-> | Hne].
    + rewrite Hbit. reflexivity.
    + change 0x80000000 with (2 ^ 31).
      rewrite Z.pow2_bits_eqb by lia.
      destruct (Z.eqb_spec 31 n); [lia |]. apply andb_false_r.
Qed.

(** An address that is not zero and whose bits 28-30 are 0 names a
    separate file: its filename is f_ followed by the low 28 bits in
    lower-case hexadecimal, padded with zeros to six digits at least, and
    it has no block number, size or offset. *)
Theorem CacheAddress_init_separate_kind (v : Z) :
  v <> 0 -> bits v 28 3 = 0 ->
  exists a : CacheAddress.t,
    CacheAddress.init v = Some a /\
    CacheAddress.filename a
    = Some ("f_" ++ format_0x 6 (bits v 0 28))%string /\
    (8 <= String.length ("f_" ++ format_0x 6 (bits v 0 28)))%nat /\
    CacheAddress.block_number a = None /\
    CacheAddress.block_size a = None /\
    CacheAddress.block_offset a = None.
Proof.
  intros Hv Hk. rewrite (init_separate v Hv Hk), low_28_bits.
  eexists. split; [reflexivity |]. simpl filename.
  split; [reflexivity |]. split; [| auto].
  rewrite string_length_append. pose proof (format_0x_length 6 (bits v 0 28)).
  simpl String.length at 1. lia.
Qed.

Lemma CacheAddress_init_separate_kind_witness :
  exists a : CacheAddress.t,
    CacheAddress.init 0x80000001 = Some a /\
    CacheAddress.filename a = Some "f_000001"%string.
Proof.
  destruct (CacheAddress_init_separate_kind 0x80000001)
    as (a & Ha & Hname & _).
  - discriminate.
  - reflexivity.
  - exists a. split; [exact Ha | exact Hname].
Defined.

(** Which attributes an address object has, by the value it was built
    from: a filename unless the value is zero or the kind is unknown; a
    block number, size and offset exactly for the block kinds 1 to 4;
    [is_initialized] is bit 31, whatever the kind, also for the value
    whose other bits are all zero. *)
Theorem CacheAddress_attributes_by_kind (v : Z) (a : CacheAddress.t) :
  CacheAddress.init v = Some a ->
  (CacheAddress.filename a = None <-> v = 0 \/ 5 <= bits v 28 3 <= 7) /\
  (is_Some (CacheAddress.block_number a) <-> 1 <= bits v 28 3 <= 4) /\
  (is_Some (CacheAddress.block_size a) <-> 1 <= bits v 28 3 <= 4) /\
  (is_Some (CacheAddress.block_offset a) <-> 1 <= bits v 28 3 <= 4) /\
  CacheAddress.is_initialized a = Z.testbit v 31 /\
  CacheAddress.file_type a = bits v 28 3.
Proof.
  intros Ha.
  assert (Hnone : forall T, ~ is_Some (@None T)).
  { intros T [x Hx]. discriminate Hx. }
  destruct (Z.eq_dec v 0) as [-> | Hv].
  { rewrite init_zero in Ha. injection Ha as <-. simpl.
    change (bits 0 28 3) with 0.
    repeat split; auto; try lia; try (exfalso; eapply Hnone; eassumption). }
  destruct (kind_cases v) as [H|[H|[H|[H|[H|H]]]]].
  - rewrite (init_separate v Hv H) in Ha. injection Ha as <-. simpl.
    rewrite H, initialized_bit.
    repeat split; eauto; try lia; try discriminate;
      try (exfalso; eapply Hnone; eassumption); try (intuition lia).
  - rewrite (init_block v 36) in Ha by (rewrite H; reflexivity).
    injection Ha as <-. simpl. rewrite H, initialized_bit.
    repeat split; eauto; try lia; try discriminate; try (intuition lia).
  - rewrite (init_block v 256) in Ha by (rewrite H; reflexivity).
    injection Ha as <-. simpl. rewrite H, initialized_bit.
    repeat split; eauto; try lia; try discriminate; try (intuition lia).
  - rewrite (init_block v 1024) in Ha by (rewrite H; reflexivity).
    injection Ha as <-. simpl. rewrite H, initialized_bit.
    repeat split; eauto; try lia; try discriminate; try (intuition lia).
  - rewrite (init_block v 4096) in Ha by (rewrite H; reflexivity).
    injection Ha as <-. simpl. rewrite H, initialized_bit.
    repeat split; eauto; try lia; try discriminate; try (intuition lia).
  - rewrite (init_unknown v) in Ha by lia. injection Ha as <-. simpl.
    rewrite initialized_bit.
    repeat split; auto; try lia;
      try (exfalso; eapply Hnone; eassumption); try (intuition lia).
Qed.

Lemma CacheAddress_attributes_by_kind_witness :
  exists a : CacheAddress.t,
    CacheAddress.init 0x30000000 = Some a /\
    is_Some (CacheAddress.block_offset a) /\
    CacheAddress.is_initialized a = false.
Proof.
  destruct (CacheAddress.init 0x30000000) as [a|] eqn:Ha;
    [| discriminate Ha].
  destruct (CacheAddress_attributes_by_kind 0x30000000 a Ha)
    as (_ & _ & _ & Hoff & Hinit & _).
  exists a. split; [reflexivity |]. split.
  - apply Hoff. vm_compute. split; discriminate.
  - rewrite Hinit. reflexivity.
Defined.

(** The block fields stay in range: the block number is below 65536, the
    block size is 0 to 3 base units, and the block offset lies past the
    8192 bytes of the file header, at most 65535 base units further; the
    filename names one of data_0 to data_255. *)
Theorem CacheAddress_block_bounds (v : Z) (a : CacheAddress.t) :
  CacheAddress.init v = Some a ->
  (forall n, CacheAddress.block_number a = Some n -> 0 <= n < 65536) /\
  (forall size, CacheAddress.block_size a = Some size ->
                0 <= size <= 3 * 4096) /\
  (forall offset, CacheAddress.block_offset a = Some offset ->
                  8192 <= offset <= 8192 + 65535 * 4096) /\
  (forall n, CacheAddress.block_number a = Some n ->
     exists unit selector,
       spec_base_unit (bits v 28 3) = Some unit /\
       0 <= selector < 256 /\
       CacheAddress.filename a = Some ("data_" ++ format_d selector)%string /\
       CacheAddress.block_offset a = Some (8192 + n * unit)).
Proof.
  intros Ha.
  pose proof (bits_range v 0 16 ltac:(lia)) as Hn.
  pose proof (bits_range v 24 2 ltac:(lia)) as Hc.
  pose proof (bits_range v 16 8 ltac:(lia)) as Hs.
  change (2 ^ 16) with 65536 in Hn. change (2 ^ 2) with 4 in Hc.
  change (2 ^ 8) with 256 in Hs.
  assert (Hblock : forall unit,
             spec_base_unit (bits v 28 3) = Some unit ->
             0 < unit <= 4096 ->
             (forall n, block_number a = Some n -> 0 <= n < 65536) /\
             (forall size, block_size a = Some size -> 0 <= size <= 3 * 4096) /\
             (forall offset, block_offset a = Some offset ->
                             8192 <= offset <= 8192 + 65535 * 4096) /\
             (forall n, block_number a = Some n ->
                exists unit selector,
                  spec_base_unit (bits v 28 3) = Some unit /\
                  0 <= selector < 256 /\
                  filename a = Some ("data_" ++ format_d selector)%string /\
                  block_offset a = Some (8192 + n * unit))).
  { intros unit Hunit Hrange. rewrite (init_block v unit Hunit) in Ha.
    injection Ha as <-. simpl.
    split; [intros n [= <-]; lia |].
    split; [intros size [= <-]; nia |].
    split; [intros offset [= <-]; nia |].
    intros n [= <-]. exists unit, (bits v 16 8). auto. }
  assert (Hnoblock : block_number a = None -> block_size a = None ->
                     block_offset a = None ->
                     (forall n, block_number a = Some n -> 0 <= n < 65536) /\
                     (forall size, block_size a = Some size ->
                                   0 <= size <= 3 * 4096) /\
                     (forall offset, block_offset a = Some offset ->
                                     8192 <= offset <= 8192 + 65535 * 4096) /\
                     (forall n, block_number a = Some n ->
                        exists unit selector,
                          spec_base_unit (bits v 28 3) = Some unit /\
                          0 <= selector < 256 /\
                          filename a
                          = Some ("data_" ++ format_d selector)%string /\
                          block_offset a = Some (8192 + n * unit))).
  { intros -> -> ->.
    split; [intros x Hx; discriminate Hx |].
    split; [intros x Hx; discriminate Hx |].
    split; intros x Hx; discriminate Hx. }
  destruct (Z.eq_dec v 0) as [-> | Hv].
  { rewrite init_zero in Ha. injection Ha as <-. apply Hnoblock; reflexivity. }
  destruct (kind_cases v) as [H|[H|[H|[H|[H|H]]]]].
  - rewrite (init_separate v Hv H) in Ha. injection Ha as <-.
    apply Hnoblock; reflexivity.
  - apply (Hblock 36); [rewrite H; reflexivity | lia].
  - apply (Hblock 256); [rewrite H; reflexivity | lia].
  - apply (Hblock 1024); [rewrite H; reflexivity | lia].
  - apply (Hblock 4096); [rewrite H; reflexivity | lia].
  - rewrite (init_unknown v) in Ha by lia. injection Ha as <-.
    apply Hnoblock; reflexivity.
Qed.

Lemma CacheAddress_block_bounds_witness :
  exists a : CacheAddress.t,
    CacheAddress.init 0xc3ffffff = Some a /\
    forall offset, CacheAddress.block_offset a = Some offset ->
                   8192 <= offset <= 8192 + 65535 * 4096.
Proof.
  destruct (CacheAddress.init 0xc3ffffff) as [a|] eqn:Ha;
    [| discriminate Ha].
  exists a. split; [reflexivity |].
  exact (proj1 (proj2 (proj2 (CacheAddress_block_bounds 0xc3ffffff a Ha)))).
Defined.

(** GetDebugString formats block number, offset and size with [{:d}] and
    [{:08x}] whenever the file type is not 0, so it raises for an address
    of unknown kind, whose block fields are None; for every other address
    it returns a string. *)
Theorem GetDebugString_raises_on_unknown_kind (v : Z) (a : CacheAddress.t) :
  CacheAddress.init v = Some a ->
  (DebugString.GetDebugString a = None <-> 5 <= bits v 28 3 <= 7) /\
  (v = 0 ->
   DebugString.GetDebugString a = Some "0x00000000 (uninitialized)"%string).
Proof.
  intros Ha. unfold DebugString.GetDebugString.
  destruct (Z.eq_dec v 0) as [-> | Hv].
  { rewrite init_zero in Ha. injection Ha as <-. simpl.
    change (bits 0 28 3) with 0. split; [| reflexivity].
    split; [discriminate | lia]. }
  assert (Hvalue : value a = v).
  { destruct (init_total v) as (a' & Ha' & Hval). congruence. }
  rewrite Hvalue. destruct (Z.eqb_spec v 0) as [|_]; [contradiction |].
  split; [| intros; contradiction].
  destruct (kind_cases v) as [H|[H|[H|[H|[H|H]]]]].
  - rewrite (init_separate v Hv H) in Ha. injection Ha as <-. simpl.
    rewrite H. split; [discriminate | lia].
  - rewrite (init_block v 36) in Ha by (rewrite H; reflexivity).
    injection Ha as <-. simpl. rewrite H. split; [discriminate | lia].
  - rewrite (init_block v 256) in Ha by (rewrite H; reflexivity).
    injection Ha as <-. simpl. rewrite H. split; [discriminate | lia].
  - rewrite (init_block v 1024) in Ha by (rewrite H; reflexivity).
    injection Ha as <-. simpl. rewrite H. split; [discriminate | lia].
  - rewrite (init_block v 4096) in Ha by (rewrite H; reflexivity).
    injection Ha as <-. simpl. rewrite H. split; [discriminate | lia].
  - rewrite (init_unknown v) in Ha by lia. injection Ha as <-. simpl.
    assert (Hne : (bits v 28 3 =? 0) = false) by (apply Z.eqb_neq; lia).
    rewrite Hne. split; [intros _; lia | reflexivity].
Qed.

Lemma GetDebugString_raises_on_unknown_kind_witness :
  exists a : CacheAddress.t,
    CacheAddress.init 0xf0000001 = Some a /\
    DebugString.GetDebugString a = None.
Proof.
  destruct (CacheAddress.init 0xf0000001) as [a|] eqn:Ha;
    [| discriminate Ha].
  exists a. split; [reflexivity |].
  apply (proj1 (GetDebugString_raises_on_unknown_kind 0xf0000001 a Ha)).
  vm_compute. split; discriminate.
Defined.

End CacheAddressKinds.

(** ** The index file, once opened *)

Section IndexFileFacts.

(** Whatever the fuel, when the loop returns it returns the table of the
    words. *)
Lemma ReadIndexTable_loop_result (fuel : nat) :
  forall (s c : list byte) (p idx : nat) acc t r,
    s = drop p c ->
    IndexFile._ReadIndexTable_loop fuel
      (FileObject c (p + length (take 4 s))) idx (take 4 s) acc
    = Some (t, r) ->
    r = Return (acc ++ spec_table idx (spec_words s)).
Proof.
  induction fuel as [|fuel IH]; intros s c p idx acc t r Hs; [discriminate |].
  destruct s as [|b0 [|b1 [|b2 [|b3 s]]]];
    try (simpl; rewrite app_nil_r; intros [= _ <-]; reflexivity).
  assert (Hdrop : s = drop (p + 4) c).
  { rewrite <- drop_drop, <- Hs. reflexivity. }
  change (take 4 (b0 :: b1 :: b2 :: b3 :: s)) with [b0; b1; b2; b3].
  change (length [b0; b1; b2; b3]) with 4%nat.
  rewrite ReadIndexTable_loop_unfold.
  change (length [b0; b1; b2; b3] =? 4)%nat with true. cbv iota zeta.
  unfold read. simpl content. simpl position. rewrite <- Hdrop.
  specialize (IH s c (p + 4)%nat (idx + 1)%nat).
  change (spec_words (b0 :: b1 :: b2 :: b3 :: s))
    with (le_uint [b0; b1; b2; b3] :: spec_words s).
  generalize (le_uint [b0; b1; b2; b3]). intros w.
  simpl spec_table.
  destruct (Z.eqb_spec w 0) as [Hw|Hw]; simpl negb; cbv iota.
  - simpl bind.
    destruct (IndexFile._ReadIndexTable_loop fuel _ _ _ _)
      as [[t' r']|] eqn:Hloop; [| discriminate].
    intros [= _ <-]. apply IH in Hloop; [| exact Hdrop].
    replace (S idx) with (idx + 1)%nat by lia. exact Hloop.
  - destruct (new_CacheAddress_returns w) as (a & Ha & Hnew).
    rewrite Hnew, Ha. simpl bind.
    destruct (IndexFile._ReadIndexTable_loop fuel _ _ _ _)
      as [[t' r']|] eqn:Hloop; [| discriminate].
    intros [= _ <-]. apply IH in Hloop; [| exact Hdrop].
    rewrite <- app_assoc in Hloop.
    replace (S idx) with (idx + 1)%nat by lia. exact Hloop.
Qed.

Lemma ReadIndexTable_result fuel f t r :
  IndexFile._ReadIndexTable fuel f = Some (t, r) ->
  r = Return (spec_table 0 (spec_words (drop (position f) (content f)))).
Proof.
  unfold IndexFile._ReadIndexTable, read. intros H.
  apply (ReadIndexTable_loop_result fuel _ (content f) (position f) 0 [] t r
           eq_refl H).
Qed.

Lemma spec_words_lookup (s : list byte) :
  forall (i : nat) (w : Z),
    spec_words s !! i = Some w <->
    (4 * i + 4 <= length s)%nat /\ w = le_uint (take 4 (drop (4 * i) s)).
Proof.
  induction s as [|b0|b0 b1|b0 b1 b2|b0 b1 b2 b3 s IH] using list_ind4;
    intros i w;
    try (simpl; split; [intros H; discriminate H | intros [H _]; lia]).
  change (spec_words (b0 :: b1 :: b2 :: b3 :: s))
    with (le_uint [b0; b1; b2; b3] :: spec_words s).
  destruct i as [|i].
  - simpl. split.
    + intros [= <-]. split; [lia | reflexivity].
    + intros [_ ->]. reflexivity.
  - change ((le_uint [b0; b1; b2; b3] :: spec_words s) !! S i)
      with (spec_words s !! i).
    rewrite IH. replace (4 * S i)%nat with (4 + 4 * i)%nat by lia.
    change (drop (4 + 4 * i) (b0 :: b1 :: b2 :: b3 :: s))
      with (drop (4 * i) s).
    simpl length. split; intros [H1 H2]; (split; [lia | exact H2]).
Qed.

(** Opening an index file reads the header, the LRU data and then the
    table: a file that opens has at least 368 bytes, its creation time is
    the little-endian value of bytes 40 to 47, its version is 2.0 or 2.1,
    and position [i] of the table has an entry exactly when the word at
    byte 368 + 4 * i lies in the file and is not zero, the entry being
    the cache address of that word. *)
Theorem IndexFile_Open_table
    (fuel : nat) (name : string) (data : list byte) (t : list event)
    (file : IndexFile.t) :
  IndexFile.Open fuel name data = Some (t, Return file) ->
  (368 <= length data)%nat /\
  IndexFile.creation_time file = le_uint (take 8 (drop 40 data)) /\
  (IndexFile.format_version file = "2.0"%string \/
   IndexFile.format_version file = "2.1"%string) /\
  (forall (i : nat) (a : CacheAddress.t),
      In (i, a) (IndexFile.index_table file) <->
      (368 + 4 * i + 4 <= length data)%nat /\
      le_uint (take 4 (drop (368 + 4 * i) data)) <> 0 /\
      CacheAddress.init (le_uint (take 4 (drop (368 + 4 * i) data)))
      = Some a).
Proof.
  intros Hopen.
  destruct (le_lt_dec IndexFile._FILE_HEADER_SIZE (length data)) as [Hlen|Hlen].
  2:{ exfalso. revert Hopen.
      unfold IndexFile.Open, IndexFile.ReadFileObject.
      rewrite IndexFile_ReadFileHeader_cases. cbv zeta.
      assert (Hl : (length (take IndexFile._FILE_HEADER_SIZE data)
                    =? IndexFile._FILE_HEADER_SIZE)%nat = false).
      { apply Nat.eqb_neq. rewrite length_take. lia. }
      rewrite Hl. discriminate. }
  rewrite (IndexFile_Open_header fuel name data Hlen) in Hopen.
  cbv zeta in Hopen.
  destruct (negb (_ =? IndexFile.SIGNATURE)); [discriminate Hopen |].
  destruct (supported_version _) eqn:Hsup; [| discriminate Hopen].
  simpl negb in Hopen. cbv iota in Hopen.
  destruct (Nat.leb_spec
              (IndexFile._FILE_HEADER_SIZE + IndexFile._LRU_DATA_SIZE)
              (length data)) as [Hlru|Hlru]; [| discriminate Hopen].
  change (IndexFile._FILE_HEADER_SIZE + IndexFile._LRU_DATA_SIZE)%nat
    with 368%nat in *.
  apply bind_inv in Hopen as [(e & H & _)|(t1 & u & t2 & _ & Hopen & _)];
    [discriminate H |].
  apply bind_inv in Hopen
    as [(e & _ & H)|(t3 & table & t4 & Htable & Hopen & _)];
    [discriminate H |].
  injection Hopen as _ <-. simpl.
  apply ReadIndexTable_result in Htable. injection Htable as ->.
  simpl content. simpl position.
  split; [exact Hlru |]. split.
  { unfold member_uint, IndexFile._FILE_HEADER, member_bytes.
    simpl String.eqb. cbv iota. rewrite !drop_drop. simpl Nat.add.
    rewrite take_drop_prefix; [reflexivity |].
    apply Nat.leb_le. vm_compute. reflexivity. }
  split.
  { unfold supported_version in Hsup. simpl in Hsup.
    rewrite orb_false_r, orb_true_iff, !String.eqb_eq in Hsup. exact Hsup. }
  intros i a. rewrite spec_table_elem, Nat.sub_0_r. split.
  - intros (w & _ & Hw & Hnz & Ha).
    apply spec_words_lookup in Hw as [Hle ->].
    rewrite length_drop in Hle. rewrite drop_drop in Hnz, Ha.
    split; [lia |]. split; assumption.
  - intros (Hle & Hnz & Ha).
    exists (le_uint (take 4 (drop (368 + 4 * i) data))).
    split; [lia |]. split; [| split; assumption].
    apply spec_words_lookup. rewrite length_drop, drop_drop.
    split; [lia | reflexivity].
Qed.

Lemma IndexFile_Open_table_witness :
  exists file,
    IndexFile.Open 100 "index" Fixture.two_chain_index
    = Some ([Opened "index"%string], Return file) /\
    (368 <= length Fixture.two_chain_index)%nat.
Proof.
  destruct (IndexFile.Open 100 "index" Fixture.two_chain_index)
    as [[t [file|e]]|] eqn:Hopen;
    try (vm_compute in Hopen; discriminate Hopen).
  pose proof (IndexFile_Open_trace _ _ _ _ _ Hopen) as ->.
  exists file. split; [reflexivity |].
  exact (proj1 (IndexFile_Open_table _ _ _ _ _ Hopen)).
Defined.

End IndexFileFacts.

(** ** The data block file, once opened *)

Section DataBlockFileFacts.

Import DataBlockFile.

(** A data block file that opens has a whole header of 8192 bytes that
    starts with the magic; its version is 2.0 or 2.1; [block_size] and
    [number_of_entries] are the little-endian words at bytes 12 and 16;
    the file object kept for reading entries is the whole file. *)
Theorem DataBlockFile_Open_fields
    (name : string) (data : list byte) (t : list event)
    (file : DataBlockFile.t) :
  DataBlockFile.Open name data = Some (t, Return file) ->
  8192 <= Z.of_nat (length data) /\
  le_uint (take 4 data) = 0xc104cac3 /\
  (DataBlockFile.format_version file = "2.0"%string \/
   DataBlockFile.format_version file = "2.1"%string) /\
  DataBlockFile.block_size file = le_uint (take 4 (drop 12 data)) /\
  DataBlockFile.number_of_entries file = le_uint (take 4 (drop 16 data)) /\
  DataBlockFile._file_object file = FileObject data 0.
Proof.
  intros Hopen. rewrite DataBlockFile_Open_cases in Hopen. cbv zeta in Hopen.
  destruct (length (take _FILE_HEADER_SIZE data) =? _FILE_HEADER_SIZE)%nat
    eqn:Hlen; [| discriminate Hopen].
  apply Nat.eqb_eq in Hlen. rewrite length_take in Hlen.
  destruct (Z.eqb_spec
              (member_uint _FILE_HEADER "signature"
                 (take _FILE_HEADER_SIZE data)) SIGNATURE) as [Hsig|Hsig];
    [| discriminate Hopen].
  simpl negb in Hopen. cbv iota in Hopen.
  destruct (supported_version _) eqn:Hsup; [| discriminate Hopen].
  injection Hopen as _ <-. simpl.
  assert (Hsize : Z.of_nat _FILE_HEADER_SIZE = 8192) by (vm_compute; reflexivity).
  assert (H20 : (20 <= _FILE_HEADER_SIZE)%nat)
    by (apply Nat.leb_le; vm_compute; reflexivity).
  split; [lia |]. split.
  { change (member_uint _FILE_HEADER "signature" (take _FILE_HEADER_SIZE data))
      with (le_uint (take 4 (take _FILE_HEADER_SIZE data))) in Hsig.
    rewrite le_uint_take_prefix in Hsig by lia. exact Hsig. }
  split.
  { unfold supported_version in Hsup. simpl in Hsup.
    rewrite orb_false_r, orb_true_iff, !String.eqb_eq in Hsup. exact Hsup. }
  split; [| split; [| reflexivity]].
  - unfold member_uint, _FILE_HEADER, member_bytes.
    simpl String.eqb. cbv iota. rewrite !drop_drop. simpl Nat.add.
    rewrite take_drop_prefix by lia. reflexivity.
  - unfold member_uint, _FILE_HEADER, member_bytes.
    simpl String.eqb. cbv iota. rewrite !drop_drop. simpl Nat.add.
    rewrite take_drop_prefix by lia. reflexivity.
Qed.

Lemma DataBlockFile_Open_fields_witness :
  exists file,
    DataBlockFile.Open "data_0" (Fixture.data_header 0xc104cac3 2 1)
    = Some ([Opened "data_0"%string], Return file) /\
    DataBlockFile.format_version file = "2.1"%string.
Proof.
  destruct (DataBlockFile_Open_validation "data_0"%string
              (Fixture.data_header 0xc104cac3 2 1)) as (_ & _ & Hopens).
  { apply Nat.leb_le. vm_compute. reflexivity. }
  destruct (proj1 Hopens) as (file & Hopen).
  { split; [vm_compute; reflexivity |].
    split; [vm_compute; reflexivity | right; vm_compute; reflexivity]. }
  exists file. split; [exact Hopen |].
  destruct (DataBlockFile_Open_fields _ _ _ _ Hopen)
    as (_ & _ & [Hv | Hv] & _); [| exact Hv].
  exfalso. rewrite DataBlockFile_Open_cases in Hopen.
  vm_compute in Hopen. injection Hopen as <-. discriminate Hv.
Defined.

Lemma cache_entry_member_bytes (data : list byte) :
  member_uint _CACHE_ENTRY "hash" data = le_uint (take 4 data) /\
  member_uint _CACHE_ENTRY "next_address" data
  = le_uint (take 4 (drop 4 data)) /\
  member_uint _CACHE_ENTRY "rankings_node_address" data
  = le_uint (take 4 (drop 8 data)) /\
  member_uint _CACHE_ENTRY "creation_time" data
  = le_uint (take 8 (drop 24 data)).
Proof.
  unfold member_uint, _CACHE_ENTRY, member_bytes.
  simpl String.eqb. cbv iota. rewrite !drop_drop. repeat split; reflexivity.
Qed.

Lemma before_nul_length (buffer : list byte) :
  (length (before_nul buffer) <= length buffer)%nat.
Proof.
  induction buffer as [|b buffer IH]; simpl; [lia |].
  destruct (ord b =? 0); simpl; lia.
Qed.

Lemma before_nul_prefix (kept rest : list byte) :
  Forall (fun b => ord b <> 0) kept ->
  before_nul (kept ++ x00 :: rest) = kept.
Proof.
  induction 1 as [|b kept Hb _ IH]; simpl; [reflexivity |].
  destruct (Z.eqb_spec (ord b) 0); [contradiction |]. rewrite IH. reflexivity.
Qed.

Lemma before_nul_all (buffer : list byte) :
  Forall (fun b => ord b <> 0) buffer -> before_nul buffer = buffer.
Proof.
  induction 1 as [|b buffer Hb _ IH]; simpl; [reflexivity |].
  destruct (Z.eqb_spec (ord b) 0); [contradiction |]. rewrite IH. reflexivity.
Qed.

(** All the attributes of the entry that ReadCacheEntry returns, whenever
    the 256 bytes at the offset lie in the file. *)
Lemma ReadCacheEntry_entry (self : DataBlockFile.t) (offset : Z) :
  let data :=
    take 256 (drop (Z.to_nat offset) (content (_file_object self))) in
  let key_bytes := before_nul (take 160 (drop 96 data)) in
  0 <= offset ->
  length data = 256%nat ->
  exists entry,
    ReadCacheEntry self (Some offset)
    = Some (if forallb is_ascii key_bytes then []
            else [Log WARNING (UndecodableKeyAtBlockOffset (Some offset))],
            Return entry) /\
    CacheEntry.key entry = decode_ascii_replace key_bytes /\
    CacheEntry.hash entry = member_uint _CACHE_ENTRY "hash" data /\
    CacheEntry.creation_time entry
    = member_uint _CACHE_ENTRY "creation_time" data /\
    CacheAddress.value (CacheEntry.next entry)
    = member_uint _CACHE_ENTRY "next_address" data /\
    CacheAddress.value (CacheEntry.rankings_node entry)
    = member_uint _CACHE_ENTRY "rankings_node_address" data.
Proof.
  intros data key_bytes Hoffset Hlen. unfold ReadCacheEntry.
  rewrite ReadStructure_at by exact Hoffset.
  change (GetByteSize _CACHE_ENTRY) with 256%nat.
  change _CACHE_ENTRY_SIZE with 256%nat. cbv zeta. fold data.
  rewrite Hlen, Nat.eqb_refl.
  unfold ret at 1. unfold bind at 1. cbv beta iota. simpl fst.
  rewrite cache_entry_key_bytes. fold key_bytes.
  destruct (init_total (member_uint _CACHE_ENTRY "next_address" data))
    as (next & Hnext & Hnv).
  destruct (init_total (member_uint _CACHE_ENTRY "rankings_node_address" data))
    as (rankings & Hrank & Hrv).
  unfold new_CacheAddress. rewrite Hnext, Hrank.
  destruct (forallb is_ascii key_bytes) eqn:Hascii.
  - rewrite (decode_ascii_clean _ Hascii). simpl.
    eexists. split; [reflexivity |]. simpl. auto.
  - unfold decode_ascii. rewrite Hascii. simpl.
    eexists. split; [reflexivity |]. simpl. auto.
Qed.

(** The layout of a cache entry.  When the 256 bytes at the block
    offset, which is not below zero, lie in the file, the entry that is
    returned has the little-endian
    words at bytes 0, 4 and 8 of the block as hash, next address and
    rankings node address, and the 8 bytes at 24 as creation time; its
    key has at most 160 characters, none of them NUL, each either ASCII
    or the replacement character. *)
Theorem ReadCacheEntry_layout (self : DataBlockFile.t) (offset : Z) :
  let file := content (_file_object self) in
  let at_ := fun (n size : nat) =>
    le_uint (take size (drop (Z.to_nat offset + n) file)) in
  0 <= offset ->
  offset + 256 <= Z.of_nat (length file) ->
  exists (trace : list event) (entry : CacheEntry.t),
    DataBlockFile.ReadCacheEntry self (Some offset)
    = Some (trace, Return entry) /\
    CacheEntry.hash entry = at_ 0%nat 4%nat /\
    CacheAddress.value (CacheEntry.next entry) = at_ 4%nat 4%nat /\
    CacheAddress.value (CacheEntry.rankings_node entry) = at_ 8%nat 4%nat /\
    CacheEntry.creation_time entry = at_ 24%nat 8%nat /\
    (length (CacheEntry.key entry) <= 160)%nat /\
    Forall (fun c => 0 < c < 128 \/ c = REPLACEMENT_CHARACTER)
      (CacheEntry.key entry).
Proof.
  intros file at_ Hoffset Hlen.
  assert (Hdata : length (take 256 (drop (Z.to_nat offset) file)) = 256%nat).
  { rewrite length_take, length_drop. lia. }
  destruct (ReadCacheEntry_entry self offset Hoffset Hdata)
    as (entry & Hrun & Hkey & Hhash & Htime & Hnext & Hrank).
  fold file in Hrun, Hkey, Hhash, Htime, Hnext, Hrank.
  destruct (cache_entry_member_bytes (take 256 (drop (Z.to_nat offset) file)))
    as (Mh & Mn & Mr & Mt).
  rewrite take_drop_prefix, drop_drop in Mn, Mr, Mt by lia.
  rewrite le_uint_take_prefix in Mh by lia.
  eexists _, entry. split; [exact Hrun |].
  unfold at_. rewrite Nat.add_0_r.
  split; [congruence |]. split; [congruence |]. split; [congruence |].
  split; [congruence |]. rewrite Hkey. split.
  - unfold decode_ascii_replace. rewrite length_map.
    etransitivity; [apply before_nul_length |].
    rewrite length_take. lia.
  - unfold decode_ascii_replace. apply List.Forall_forall.
    intros c Hc. apply in_map_iff in Hc as (b & <- & Hb).
    destruct (before_nul_spec (take 160 (drop 96 (take 256 (drop (Z.to_nat offset) file)))))
      as (rest & _ & Hall & _).
    rewrite List.Forall_forall in Hall. specialize (Hall b Hb).
    unfold is_ascii. destruct (Z.ltb_spec (ord b) 128); [left | right; reflexivity].
    pose proof (ord_nonneg b). lia.
Qed.

Lemma ReadCacheEntry_layout_witness :
  exists (trace : list event) (entry : CacheEntry.t),
    DataBlockFile.ReadCacheEntry Fixture.dirty_key_file (Some 8192)
    = Some (trace, Return entry) /\
    (length (CacheEntry.key entry) <= 160)%nat.
Proof.
  destruct (ReadCacheEntry_layout Fixture.dirty_key_file 8192)
    as (trace & entry & Hrun & _ & _ & _ & _ & Hlen & _).
  - lia.
  - apply Z.leb_le. vm_compute. reflexivity.
  - exists trace, entry. split; [exact Hrun | exact Hlen].
Defined.

(** An ASCII key comes back as it is.  When the block offset is not below
    zero, the block lies in the file and the key buffer holds bytes
    between 1 and 127 followed by a NUL, the key is those bytes, whatever
    follows the NUL, and nothing is logged; a buffer of 160 such bytes
    without any NUL gives a key of 160 characters. *)
Theorem ReadCacheEntry_ascii_key
    (self : DataBlockFile.t) (offset : Z) (kept rest : list byte) :
  let file := content (_file_object self) in
  let buffer := take 160 (drop (Z.to_nat offset + 96) file) in
  0 <= offset ->
  offset + 256 <= Z.of_nat (length file) ->
  Forall (fun b => 0 < ord b < 128) kept ->
  buffer = kept ++ x00 :: rest \/ buffer = kept ->
  exists entry : CacheEntry.t,
    DataBlockFile.ReadCacheEntry self (Some offset) = Some ([], Return entry) /\
    CacheEntry.key entry = map ord kept.
Proof.
  intros file buffer Hoffset Hlen Hkept Hbuffer.
  assert (Hdata : length (take 256 (drop (Z.to_nat offset) file)) = 256%nat).
  { rewrite length_take, length_drop. lia. }
  destruct (ReadCacheEntry_entry self offset Hoffset Hdata)
    as (entry & Hrun & Hkey & _).
  fold file in Hrun, Hkey.
  rewrite take_drop_prefix, drop_drop in Hrun, Hkey by lia.
  fold buffer in Hrun, Hkey.
  assert (Hnul : Forall (fun b => ord b <> 0) kept).
  { apply List.Forall_forall. intros b Hb.
    rewrite List.Forall_forall in Hkept. apply Hkept in Hb. lia. }
  assert (Hbefore : before_nul buffer = kept).
  { destruct Hbuffer as [-> | ->];
      [apply before_nul_prefix | apply before_nul_all]; exact Hnul. }
  rewrite Hbefore in Hrun, Hkey.
  assert (Hascii : forallb is_ascii kept = true).
  { apply forallb_forall. intros b Hb. rewrite List.Forall_forall in Hkept.
    apply Z.ltb_lt. apply Hkept in Hb. lia. }
  rewrite Hascii in Hrun. exists entry. split; [exact Hrun |].
  rewrite Hkey. unfold decode_ascii_replace. apply map_ext_in.
  intros b Hb. rewrite forallb_forall in Hascii. rewrite (Hascii b Hb).
  reflexivity.
Qed.

Lemma ReadCacheEntry_ascii_key_witness :
  exists entry : CacheEntry.t,
    DataBlockFile.ReadCacheEntry
      (DataBlockFile.Build 0 "2.0" 0 (FileObject Fixture.url_data 0))
      (Some 8192)
    = Some ([], Return entry) /\
    CacheEntry.key entry = [117; 114; 108].
Proof.
  destruct (ReadCacheEntry_ascii_key
              (DataBlockFile.Build 0 "2.0" 0 (FileObject Fixture.url_data 0))
              8192 ["u"; "r"; "l"]%byte (repeat x00 156))
    as (entry & Hrun & Hkey).
  - lia.
  - apply Z.leb_le. vm_compute. reflexivity.
  - repeat constructor.
  - left. vm_compute. reflexivity.
  - exists entry. split; [exact Hrun | exact Hkey].
Defined.

End DataBlockFileFacts.

(** ** Closing the files *)

(** The files closed in a run, in the order they are closed. *)
Fixpoint closed_names (trace : list event) : list string :=
  match trace with
  | [] => []
  | Closed name :: trace' => name :: closed_names trace'
  | _ :: trace' => closed_names trace'
  end.

(** The exceptions raised from inside the reading of a file or the
    following of a chain, as opposed to the two ParseDirectory raises
    itself. *)
Definition raised_inside (e : exception) : bool :=
  match e with
  | ParseError MissingIndexFile | ParseError MissingDataBlockFiles => false
  | _ => true
  end.

(** A run that got to the [Close] calls at the end of ParseDirectory: it
    returned, or raised "Missing data block files.". *)
Definition reaches_the_end (r : outcome unit) : bool :=
  match r with
  | Return _ => true
  | Raise (ParseError MissingDataBlockFiles) => true
  | Raise _ => false
  end.

Section ClosingFacts.

Import ChromeCacheParser.

Lemma closed_names_app t1 t2 :
  closed_names (t1 ++ t2) = closed_names t1 ++ closed_names t2.
Proof.
  induction t1 as [|ev t1 IH]; simpl; [reflexivity |].
  destruct ev; simpl; rewrite IH; reflexivity.
Qed.

Lemma only_logs_closed t : only_logs t -> closed_names t = [].
Proof.
  induction 1 as [|ev t (severity & message & ->) _ IH]; simpl;
    [reflexivity | exact IH].
Qed.

Lemma for_each_raise {S I : Type} (P : exception -> Prop)
    (body : S -> I -> run S) (items : list I) :
  (forall s i t e, In i items -> body s i = Some (t, Raise e) -> P e) ->
  forall s t e, for_each body s items = Some (t, Raise e) -> P e.
Proof.
  induction items as [|i items IH]; intros Hbody s t e; simpl.
  - intros H. discriminate H.
  - intros H. apply bind_inv in H as [(e' & H & He)|(t1 & a & t2 & H1 & H2 & ->)].
    + injection He as ->. eapply Hbody; [left; reflexivity | exact H].
    + eapply IH; [| exact H2]. intros s' i' t' e' Hin. apply Hbody.
      right. exact Hin.
Qed.

Lemma ReadCacheEntry_raises self block_offset t e :
  DataBlockFile.ReadCacheEntry self block_offset = Some (t, Raise e) ->
  t = [] /\
  (e = TypeError \/ e = ParseError (UnableToRead "data block cache entry")).
Proof.
  destruct block_offset as [offset|].
  - destruct (Z.lt_ge_cases offset 0) as [Hneg|Hoffset].
    { unfold DataBlockFile.ReadCacheEntry.
      rewrite ReadStructure_below by exact Hneg.
      intros H. injection H as <- <-. auto. }
    destruct (Nat.eq_dec
                (length (take 256%nat
                           (drop (Z.to_nat offset)
                              (content (DataBlockFile._file_object self)))))
                256%nat) as [Hlen|Hlen].
    + destruct (ReadCacheEntry_returns self offset Hoffset Hlen)
        as (entry & Hrun & _).
      rewrite Hrun. intros H. discriminate H.
    + unfold DataBlockFile.ReadCacheEntry.
      rewrite ReadStructure_at by exact Hoffset.
      change DataBlockFile._CACHE_ENTRY_SIZE with 256%nat. cbv zeta.
      apply Nat.eqb_neq in Hlen. rewrite Hlen.
      intros H. injection H as <- <-. auto.
  - intros H. injection H as <- <-. auto.
Qed.

(** What a chain leaves in the trace and how it can end. *)
Lemma follow_chain_closes_nothing (fuel : nat) :
  forall files a n t r,
    follow_chain fuel files a n = Some (t, r) ->
    closed_names t = [] /\ forall e, r = Raise e -> raised_inside e = true.
Proof.
  destruct fuel as [|fuel]; intros files a n t r; [discriminate |].
  rewrite follow_chain_unfold.
  destruct (negb _);
    [| intros [= <- <-]; split; [reflexivity | intros e He; discriminate He]].
  destruct (Nat.leb_spec 64 n) as [Hn|Hn];
    [intros [= <- <-]; split; [reflexivity | intros e He; discriminate He] |].
  destruct (get files _) as [data_file|];
    [| intros [= <- <-]; split; [reflexivity | intros e He; discriminate He]].
  destruct (ReadCacheEntry_runs data_file (CacheAddress.block_offset a))
    as (t0 & r0 & Hrun & Hlogs).
  pose proof (only_logs_closed _ Hlogs) as Hc0.
  intros H.
  apply bind_inv in H as [(e & H & ->)|(t1 & entry & t2 & H1 & H & ->)].
  { rewrite Hrun in H. injection H as <- ->. split; [exact Hc0 |].
    intros e' [= <-].
    destruct (ReadCacheEntry_raises _ _ _ _ Hrun) as (_ & [-> | ->]);
      reflexivity. }
  rewrite Hrun in H1. injection H1 as <- _.
  rewrite closed_names_app, Hc0. simpl.
  apply bind_inv in H as [(e & H & ->)|(t1 & key & t3 & H1 & H & ->)].
  - unfold decode_unicode_key in H. injection H as <- <-.
    split; [reflexivity | intros e' [= <-]; reflexivity].
  - unfold decode_unicode_key in H1. discriminate H1.
Qed.

Lemma chains_close_nothing fuel files (values : list CacheAddress.t) t r :
  for_each (fun _ a => follow_chain fuel files a 0) tt values = Some (t, r) ->
  closed_names t = [] /\ forall e, r = Raise e -> raised_inside e = true.
Proof.
  intros H. split.
  - revert H. apply (for_each_trace (fun t => closed_names t = [])).
    + reflexivity.
    + intros t1 t2 H1 H2. rewrite closed_names_app, H1, H2. reflexivity.
    + intros s a t' r' _ H'.
      apply follow_chain_closes_nothing in H' as [H' _]. exact H'.
  - intros e ->. revert H.
    apply (for_each_raise (fun e => raised_inside e = true)).
    intros s a t' e' _ H'.
    apply follow_chain_closes_nothing in H' as [_ H']. apply H'. reflexivity.
Qed.

Lemma DataBlockFile_Open_raises name data t e :
  DataBlockFile.Open name data = Some (t, Raise e) -> raised_inside e = true.
Proof.
  rewrite DataBlockFile_Open_cases. cbv zeta.
  destruct (_ =? _)%nat; [| intros [= _ <-]; reflexivity].
  destruct (negb (_ =? _)); [intros [= _ <-]; reflexivity |].
  destruct (negb (supported_version _)); [intros [= _ <-]; reflexivity |].
  intros H. discriminate H.
Qed.

Lemma scan_closes_nothing dir (values : list CacheAddress.t) s t r :
  for_each (open_data_block_file dir) s values = Some (t, r) ->
  closed_names t = [] /\ forall e, r = Raise e -> raised_inside e = true.
Proof.
  intros H. split.
  - revert H. apply (for_each_trace (fun t => closed_names t = [])).
    + reflexivity.
    + intros t1 t2 H1 H2. rewrite closed_names_app, H1, H2. reflexivity.
    + intros [files b] a t' r' _ H'.
      destruct (open_data_block_file_cases dir files b a)
        as [(name & f & _ & _ & Hs)|[(_ & Hs)|[(name & _ & _ & _ & Hs)
           |[(name & data & f & _ & _ & _ & _ & Hs)
            |(name & data & e & _ & _ & _ & _ & Hs)]]]];
        cbv zeta in Hs; rewrite Hs in H'; injection H' as <- _; reflexivity.
  - intros e ->. revert H.
    apply (for_each_raise (fun e => raised_inside e = true)).
    intros [files b] a t' e' _ H'.
    destruct (open_data_block_file_cases dir files b a)
      as [(name & f & _ & _ & Hs)|[(_ & Hs)|[(name & _ & _ & _ & Hs)
         |[(name & data & f & _ & _ & _ & _ & Hs)
          |(name & data & e0 & _ & _ & _ & Hopen & Hs)]]]];
      cbv zeta in Hs; rewrite Hs in H'; try discriminate H'.
    + injection H' as _ <-. reflexivity.
    + injection H' as _ <-. eapply DataBlockFile_Open_raises. exact Hopen.
Qed.

Lemma IndexFile_Open_raises fuel name data t e :
  IndexFile.Open fuel name data = Some (t, Raise e) -> raised_inside e = true.
Proof.
  unfold IndexFile.Open, IndexFile.ReadFileObject. intros H.
  apply bind_inv in H as [(e0 & H & _)|(ta & u & t2 & _ & H & _)];
    [discriminate H |].
  apply bind_inv in H as [(e' & H & He)|(tb & [[ct fv] f] & t3 & _ & H & _)].
  { injection He as ->.
    rewrite IndexFile_ReadFileHeader_cases in H. cbv zeta in H.
    destruct (_ =? _)%nat; [| injection H as _ <-; reflexivity].
    destruct (negb (_ =? _)); [injection H as _ <-; reflexivity |].
    destruct (negb (supported_version _)); [injection H as _ <-; reflexivity |].
    discriminate H. }
  apply bind_inv in H as [(e' & H & He)|(tc & f' & t4 & _ & H & _)].
  { injection He as ->.
    unfold IndexFile._ReadLRUData in H. revert H. run_step.
    destruct (_ =? _)%nat; intros [= _ <-]; reflexivity. }
  apply bind_inv in H as [(e3 & H & _)|(td & table & t5 & _ & H & _)].
  { exfalso. exact (ReadIndexTable_no_raise _ _ _ _ H). }
  discriminate H.
Qed.

Lemma closed_names_closes (items : list (string * DataBlockFile.t)) :
  closed_names (map (fun item => Closed (fst item)) items) = map fst items /\
  opened_names (map (fun item => Closed (fst item)) items) = [].
Proof.
  induction items as [|item items [IHc IHo]]; simpl; [auto |].
  rewrite IHc, IHo. auto.
Qed.

(** The parts of a run of ParseDirectory. *)
Lemma ParseDirectory_parts fuel (dir : directory) trace r :
  ParseDirectory fuel dir = Some (trace, r) ->
  (trace = [] /\ r = Raise (ParseError MissingIndexFile)) \/
  (exists e, trace = [Opened "index"%string] /\ r = Raise e /\
             raised_inside e = true) \/
  (exists t1 tch e,
      trace = Opened "index"%string :: t1 ++ tch /\ r = Raise e /\
      raised_inside e = true /\ closed_names t1 = [] /\
      closed_names tch = []) \/
  (exists values t1 files b tch,
      for_each (open_data_block_file dir) (∅, true) values
      = Some (t1, Return (files, b)) /\
      trace = Opened "index"%string :: t1 ++ tch
              ++ map (fun item => Closed (fst item)) (map_to_list files)
              ++ [Closed "index"%string] /\
      closed_names tch = [] /\ opened_names tch = [] /\
      r = if b then Return tt else Raise (ParseError MissingDataBlockFiles)).
Proof.
  intros H. unfold ParseDirectory in H.
  destruct (dir !! "index"%string) as [data|];
    [| injection H as <- <-; left; auto].
  right.
  apply bind_inv in H as [(e & H & ->)|(t0 & index_file & t2 & Hopen & H & ->)].
  { left. exists e. split; [eapply IndexFile_Open_trace; exact H |].
    split; [reflexivity |]. eapply IndexFile_Open_raises. exact H. }
  right. rewrite (IndexFile_Open_trace _ _ _ _ _ Hopen). simpl.
  set (values := map snd (IndexFile.index_table index_file)) in *.
  apply bind_inv in H
    as [(e & Hscan & ->)|(t1 & [files b] & t3 & Hscan & H & ->)].
  { left. exists t2, [], e. rewrite app_nil_r.
    destruct (scan_closes_nothing _ _ _ _ _ Hscan) as [Hc He].
    repeat split; auto. }
  destruct (scan_closes_nothing _ _ _ _ _ Hscan) as [Hc1 _].
  apply bind_inv in H
    as [(e & Hchains & ->)|(tch & u & t4 & Hchains & H & ->)].
  { left. exists t1, t3, e. destruct b; [| discriminate Hchains].
    destruct (chains_close_nothing _ _ _ _ _ Hchains) as [Hc He].
    repeat split; auto. }
  right. exists values, t1, files, b, tch.
  assert (Hch : closed_names tch = [] /\ opened_names tch = []).
  { destruct b.
    - split; [eapply chains_close_nothing; exact Hchains |].
      eapply chains_trace; exact Hchains.
    - injection Hchains as <- _. auto. }
  destruct Hch as [Hc Ho].
  rewrite (bind_return _ _ _ _ (close_files_trace files)) in H. cbv beta in H.
  destruct b; simpl in H; injection H as <- <-;
    (split; [exact Hscan |]); rewrite <- ?app_assoc; auto.
Qed.

(** ParseDirectory closes what it opened, when it gets to its end.  A run
    that returns, or that raises "Missing data block files.", has closed
    the files it opened, each as often as it was opened, the index file
    last.  A run that an exception leaves earlier has closed no file at
    all: the index file and the data block files opened so far stay open;
    only when the index file is missing was nothing opened. *)
Theorem ParseDirectory_closes_opened_files
    (fuel : nat) (dir : ChromeCacheParser.directory)
    (trace : list event) (r : outcome unit) :
  ChromeCacheParser.ParseDirectory fuel dir = Some (trace, r) ->
  if reaches_the_end r then
    closed_names trace ≡ₚ opened_names trace /\
    (exists names, closed_names trace = names ++ ["index"%string]) /\
    (exists names, opened_names trace = "index"%string :: names)
  else
    closed_names trace = [] /\
    (opened_names trace = [] <-> r = Raise (ParseError MissingIndexFile)).
Proof.
  intros H.
  destruct (ParseDirectory_parts _ _ _ _ H)
    as [(-> & ->)|[(e & -> & -> & He)|[(t1 & tch & e & -> & -> & He & Hc1 & Hc)
       |(values & t1 & files & b & tch & Hscan & -> & Hc & Ho & ->)]]].
  - simpl. split; [reflexivity |]. split; auto.
  - assert (reaches_the_end (@Raise unit e) = false) as ->.
    { destruct e as [[]| | | | |]; try reflexivity; discriminate He. }
    simpl. split; [reflexivity |].
    split; [intros Hn; discriminate Hn |].
    intros [= ->]. discriminate He.
  - assert (reaches_the_end (@Raise unit e) = false) as ->.
    { destruct e as [[]| | | | |]; try reflexivity; discriminate He. }
    simpl. rewrite closed_names_app, Hc1, Hc.
    split; [reflexivity |].
    split; [intros Hn; discriminate Hn |].
    intros [= ->]. discriminate He.
  - assert (reaches_the_end
              (if b then Return tt
               else Raise (ParseError MissingDataBlockFiles)) = true) as ->
      by (destruct b; reflexivity).
    destruct (scan_closes_nothing _ _ _ _ _ Hscan) as [Hc1 _].
    destruct (scan_opened dir values ∅ true t1 _ Hscan)
      as (Hnodup & _ & Hfiles).
    specialize (Hfiles files b eq_refl).
    destruct (closed_names_closes (map_to_list files)) as [Hcc Hco].
    simpl. rewrite !closed_names_app, !opened_names_app, Hc1, Hc, Ho, Hcc, Hco.
    simpl. rewrite !app_nil_r.
    assert (Hperm : map fst (map_to_list files) ≡ₚ opened_names t1).
    { apply NoDup_Permutation;
        [apply (NoDup_fst_map_to_list files) | exact Hnodup |].
      intros name. rewrite (list_elem_of_In (opened_names t1) name).
      split.
      - intros Hin. apply list_elem_of_fmap in Hin as ([n f] & -> & Hin).
        apply elem_of_map_to_list in Hin. simpl.
        assert (Hsome : is_Some (files !! n)) by eauto.
        apply Hfiles in Hsome as [[f' Hf'] | Hopened]; [| exact Hopened].
        rewrite lookup_empty in Hf'. discriminate Hf'.
      - intros Hin. assert (is_Some (files !! name)) as [f Hf]
          by (apply Hfiles; right; exact Hin).
        apply list_elem_of_fmap. exists (name, f). split; [reflexivity |].
        apply elem_of_map_to_list. exact Hf. }
    split; [| split; eauto].
    rewrite Hperm. symmetry. apply Permutation_cons_append.
Qed.

Lemma ParseDirectory_closes_opened_files_witness :
  exists trace,
    ChromeCacheParser.ParseDirectory 100 Fixture.missing_dir
    = Some (trace, Raise (ParseError MissingDataBlockFiles)) /\
    closed_names trace ≡ₚ opened_names trace.
Proof.
  eexists. split; [vm_compute; reflexivity |].
  refine (proj1 (ParseDirectory_closes_opened_files 100 Fixture.missing_dir _
                   (Raise (ParseError MissingDataBlockFiles)) _)).
  vm_compute. reflexivity.
Defined.

End ClosingFacts.

(** ** The entry that ends a run *)

(** A directory whose index table is empty. *)
Definition empty_table_dir : ChromeCacheParser.directory :=
  <["index"%string := Fixture.index_file []]> ∅.

Section FirstEntry.

Import ChromeCacheParser.

Lemma follow_chain_prints_nothing fuel files a n t r :
  follow_chain fuel files a n = Some (t, r) -> count_prints t = 0%nat.
Proof.
  destruct fuel as [|fuel]; [discriminate |].
  rewrite follow_chain_unfold.
  destruct (negb _); [| intros [= <- _]; reflexivity].
  destruct (64 <=? n)%nat; [intros [= <- _]; reflexivity |].
  destruct (get files _) as [data_file|]; [| intros [= <- _]; reflexivity].
  destruct (ReadCacheEntry_runs data_file (CacheAddress.block_offset a))
    as (t0 & r0 & Hrun & Hlogs).
  intros H.
  apply bind_inv in H as [(e & H & _)|(t1 & entry & t2 & H1 & H & ->)].
  - rewrite Hrun in H. injection H as <- _.
    apply only_logs_prints. exact Hlogs.
  - rewrite Hrun in H1. injection H1 as <- _.
    rewrite count_prints_app, (only_logs_prints _ Hlogs).
    apply bind_inv in H as [(e & H & _)|(t1 & key & t3 & H1 & _)].
    + unfold decode_unicode_key in H. injection H as <- _. reflexivity.
    + unfold decode_unicode_key in H1. discriminate H1.
Qed.

(** No chain gets past its first entry.  From an address that is not zero,
    below the cap and of an opened file, the loop ends with an exception:
    the one the read of the entry raises, or, when the entry is read,
    the AttributeError of the decoding of its key.  What is logged is what
    the read logs, and no record is printed. *)
Theorem follow_chain_ends_at_the_first_entry
    (fuel : nat) (files : gmap string DataBlockFile.t) (a : CacheAddress.t)
    (n : nat) (data_file : DataBlockFile.t) :
  CacheAddress.value a <> 0 -> (n < 64)%nat ->
  ChromeCacheParser.get files (CacheAddress.filename a) = Some data_file ->
  exists (t : list event) (r : outcome CacheEntry.t),
    DataBlockFile.ReadCacheEntry data_file (CacheAddress.block_offset a)
    = Some (t, r) /\
    ChromeCacheParser.follow_chain (S fuel) files a n
    = Some (t, Raise match r with
                     | Return _ => AttributeError
                     | Raise e => e
                     end) /\
    count_prints t = 0%nat.
Proof.
  intros Hv Hn Hget.
  destruct (ReadCacheEntry_runs data_file (CacheAddress.block_offset a))
    as (t & r & Hread & Hlogs).
  exists t, r. split; [exact Hread |]. split.
  - exact (follow_chain_read fuel files a n data_file t r Hv Hn Hget Hread).
  - apply only_logs_prints. exact Hlogs.
Qed.

Lemma follow_chain_ends_at_the_first_entry_witness :
  ChromeCacheParser.follow_chain 1
    {[ "data_0"%string :=
         DataBlockFile.Build 0 "2.0" 0 (FileObject Fixture.url_data 0) ]}
    (CacheAddress.Build (Some 0) (Some 8192) (Some 0)
       (Some "data_0"%string) true 0xa0000000 2) 0
  = Some ([], Raise AttributeError).
Proof.
  destruct (follow_chain_ends_at_the_first_entry 0
              {[ "data_0"%string :=
                   DataBlockFile.Build 0 "2.0" 0
                     (FileObject Fixture.url_data 0) ]}
              (CacheAddress.Build (Some 0) (Some 8192) (Some 0)
                 (Some "data_0"%string) true 0xa0000000 2)
              0
              (DataBlockFile.Build 0 "2.0" 0 (FileObject Fixture.url_data 0)))
    as (t & r & Hread & Hrun & _).
  - discriminate.
  - lia.
  - reflexivity.
  - assert (Hentry :
      DataBlockFile.ReadCacheEntry
        (DataBlockFile.Build 0 "2.0" 0 (FileObject Fixture.url_data 0))
        (Some 8192)
      = Some ([], Return (CacheEntry.Build 1000 7 [117; 114; 108]
                            (CacheAddress.Build None None None None false 0 0)
                            (CacheAddress.Build None None None None false 0 0))))
      by (vm_compute; reflexivity).
    simpl CacheAddress.block_offset in Hread.
    rewrite Hentry in Hread. injection Hread as <- <-. exact Hrun.
Defined.

(** The addresses of the table of an index file that opened are not
    zero. *)
Lemma IndexFile_Open_values fuel name data t file a :
  IndexFile.Open fuel name data = Some (t, Return file) ->
  In a (map snd (IndexFile.index_table file)) -> CacheAddress.value a <> 0.
Proof.
  unfold IndexFile.Open, IndexFile.ReadFileObject. intros H Hin.
  apply bind_inv in H as [(e & H & _)|(ta & u & t2 & _ & H & _)];
    [discriminate H |].
  apply bind_inv in H as [(e & _ & H)|(tb & [[ct fv] f] & t3 & _ & H & _)];
    [discriminate H |].
  apply bind_inv in H as [(e & _ & H)|(tc & f' & t4 & _ & H & _)];
    [discriminate H |].
  apply bind_inv in H as [(e & _ & H)|(td & table & t5 & Htable & H & _)];
    [discriminate H |].
  injection H as _ <-. simpl in Hin.
  apply ReadIndexTable_result in Htable. injection Htable as ->.
  apply in_map_iff in Hin as ([i a'] & <- & Hin). simpl.
  apply spec_table_elem in Hin as (w & _ & _ & Hnz & Hinit).
  destruct (init_total w) as (a'' & Hinit' & Hvalue).
  rewrite Hinit in Hinit'. injection Hinit' as <-. rewrite Hvalue. exact Hnz.
Qed.

(** Once a file was missing the flag stays down. *)
Lemma scan_flag_stays_down dir (values : list CacheAddress.t) :
  forall files t files' b',
    for_each (open_data_block_file dir) (files, false) values
    = Some (t, Return (files', b')) ->
    b' = false.
Proof.
  induction values as [|a values IH]; intros files t files' b' H.
  - injection H as _ _ <-. reflexivity.
  - rewrite for_each_cons in H.
    apply bind_inv in H as [(e & _ & H)|(t1 & [files1 b1] & t2 & Hstep & H & _)];
      [discriminate H |].
    destruct (open_data_block_file_cases dir files false a)
      as [(name & f & _ & _ & Hs)|[(_ & Hs)|[(name & _ & _ & _ & Hs)
         |[(name & data & f & _ & _ & _ & _ & Hs)
          |(name & data & e & _ & _ & _ & _ & Hs)]]]];
      cbv zeta in Hs; rewrite Hs in Hstep; try discriminate Hstep;
      injection Hstep as _ <- <-; exact (IH _ _ _ _ H).
Qed.

(** When the first loop returns with the flag up, every address of the
    table names a file of the dict. *)
Lemma scan_covers dir (values : list CacheAddress.t) :
  forall files b t files',
    for_each (open_data_block_file dir) (files, b) values
    = Some (t, Return (files', true)) ->
    forall a, In a values ->
              exists name, CacheAddress.filename a = Some name /\
                           is_Some (files' !! name).
Proof.
  induction values as [|a0 values IH]; intros files b t files' H a Hin;
    [destruct Hin |].
  rewrite for_each_cons in H.
  apply bind_inv in H as [(e & _ & H)|(t1 & [files1 b1] & t2 & Hstep & H & _)];
    [discriminate H |].
  destruct (scan_opened dir values files1 b1 t2 _ H) as (_ & _ & Hkept).
  specialize (Hkept files' true eq_refl).
  destruct Hin as [<-|Hin]; [| exact (IH _ _ _ _ H a Hin)].
  destruct (open_data_block_file_cases dir files b a0)
    as [(name & f & Hname & Hf & Hs)|[(_ & Hs)|[(name & _ & _ & _ & Hs)
       |[(name & data & f & Hname & _ & _ & _ & Hs)
        |(name & data & e & _ & _ & _ & _ & Hs)]]]];
    cbv zeta in Hs; rewrite Hs in Hstep; try discriminate Hstep.
  - injection Hstep as _ <- <-. exists name. split; [exact Hname |].
    apply Hkept. left. eauto.
  - injection Hstep as _ <- <-.
    apply scan_flag_stays_down in H. discriminate H.
  - injection Hstep as _ <- <-. exists name. split; [exact Hname |].
    apply Hkept. left. rewrite lookup_insert_eq. eauto.
Qed.

(** The chains of a table that is not empty do not all return. *)
Lemma chains_return fuel files (values : list CacheAddress.t) t :
  for_each (fun _ a => follow_chain fuel files a 0) tt values
  = Some (t, Return tt) ->
  (forall a, In a values ->
             CacheAddress.value a <> 0 /\
             exists name, CacheAddress.filename a = Some name /\
                          is_Some (files !! name)) ->
  values = [].
Proof.
  destruct values as [|a values]; [reflexivity |].
  intros H Hvalues. exfalso.
  destruct (Hvalues a (or_introl eq_refl)) as (Hv & name & Hname & [f Hf]).
  rewrite for_each_cons in H.
  apply bind_inv in H as [(e & _ & H)|(t1 & u & t2 & Hchain & _)];
    [discriminate H |].
  destruct fuel as [|fuel]; [discriminate Hchain |].
  destruct (ReadCacheEntry_runs f (CacheAddress.block_offset a))
    as (t0 & r0 & Hread & _).
  rewrite (follow_chain_read fuel files a 0 f t0 r0) in Hchain;
    [discriminate Hchain | exact Hv | lia | | exact Hread].
  unfold get. rewrite Hname. exact Hf.
Qed.

Lemma chains_print_nothing fuel files (values : list CacheAddress.t) t r :
  for_each (fun _ a => follow_chain fuel files a 0) tt values = Some (t, r) ->
  count_prints t = 0%nat.
Proof.
  apply (for_each_trace (fun t => count_prints t = 0%nat)).
  - reflexivity.
  - intros t1 t2 H1 H2. rewrite count_prints_app, H1, H2. reflexivity.
  - intros s a t' r' _ H'. eapply follow_chain_prints_nothing. exact H'.
Qed.

(** No run prints a record.  Whatever the directory holds, ParseDirectory
    prints nothing; and it returns only when the index file opens with an
    empty table, having opened and closed the index file and nothing
    else: with an address in the table, a run raises. *)
Theorem ParseDirectory_prints_no_record
    (fuel : nat) (dir : ChromeCacheParser.directory)
    (trace : list event) (r : outcome unit) :
  ChromeCacheParser.ParseDirectory fuel dir = Some (trace, r) ->
  count_prints trace = 0%nat /\
  (r = Return tt ->
   trace = [Opened "index"%string; Closed "index"%string] /\
   exists data file,
     dir !! "index"%string = Some data /\
     IndexFile.Open fuel "index" data
     = Some ([Opened "index"%string], Return file) /\
     IndexFile.index_table file = []).
Proof.
  intros H. unfold ParseDirectory in H.
  destruct (dir !! "index"%string) as [data|] eqn:Hdata;
    [| injection H as <- <-; split; [reflexivity | intros Hr; discriminate Hr]].
  apply bind_inv in H as [(e & H & ->)|(t0 & index_file & t2 & Hopen & H & ->)].
  { apply IndexFile_Open_trace in H as ->.
    split; [reflexivity | intros Hr; discriminate Hr]. }
  pose proof (IndexFile_Open_trace _ _ _ _ _ Hopen) as ->.
  pose proof (fun a => IndexFile_Open_values _ _ _ _ _ a Hopen) as Hnonzero.
  set (values := map snd (IndexFile.index_table index_file)) in *.
  apply bind_inv in H
    as [(e & Hscan & ->)|(t1 & [files b] & t3 & Hscan & H & ->)].
  { destruct (scan_missing dir _ _ _ _ _ Hscan (opened_exist_empty dir))
      as (Hp1 & _).
    split; [simpl; exact Hp1 | intros Hr; discriminate Hr]. }
  destruct (scan_missing dir _ _ _ _ _ Hscan (opened_exist_empty dir))
    as (Hp1 & _).
  apply bind_inv in H
    as [(e & Hchains & ->)|(tch & u & t4 & Hchains & H & ->)].
  { destruct b; [| discriminate Hchains].
    apply chains_print_nothing in Hchains.
    split; [| intros Hr; discriminate Hr].
    simpl. rewrite count_prints_app, Hp1, Hchains. reflexivity. }
  assert (Hptch : count_prints tch = 0%nat).
  { destruct b; [eapply chains_print_nothing; exact Hchains |].
    injection Hchains as <- _. reflexivity. }
  destruct u.
  destruct (close_files_runs files) as (tc & Hclose & Hpc & _).
  rewrite (bind_return _ _ _ _ Hclose) in H. cbv beta in H.
  destruct b; simpl in H; injection H as <- <-.
  - split.
    { simpl. rewrite !count_prints_app, Hp1, Hptch, Hpc. reflexivity. }
    intros _.
    assert (Hempty : values = []).
    { apply (chains_return _ _ _ _ Hchains). intros a Hin.
      split; [apply Hnonzero; exact Hin |].
      exact (scan_covers dir values ∅ true t1 files Hscan a Hin). }
    rewrite Hempty in Hscan, Hchains.
    injection Hscan as <- <-. injection Hchains as <-.
    pose proof (close_files_trace ∅) as Hnone.
    rewrite Hclose in Hnone. rewrite map_to_list_empty in Hnone.
    injection Hnone as ->.
    split; [reflexivity |].
    exists data, index_file. split; [reflexivity |]. split; [exact Hopen |].
    unfold values in Hempty. apply map_eq_nil in Hempty. exact Hempty.
  - split; [| intros Hr; discriminate Hr].
    simpl. rewrite !count_prints_app, Hp1, Hptch, Hpc. reflexivity.
Qed.

Lemma ParseDirectory_prints_no_record_witness :
  ChromeCacheParser.ParseDirectory 100 empty_table_dir
  = Some ([Opened "index"%string; Closed "index"%string], Return tt) /\
  count_prints [Opened "index"%string; Closed "index"%string] = 0%nat.
Proof.
  split; [vm_compute; reflexivity |].
  refine (proj1 (ParseDirectory_prints_no_record 100 empty_table_dir _
                   (Return tt) _)).
  vm_compute. reflexivity.
Defined.

End FirstEntry.

(** * GZip files *)

Module GZipFile.

Section Reader.

(** Modelled from the spec: the attribute [_file_size] of the file, which
    the base class sets when the file is opened, and the member readers,
    which go through [_ReadStructureFromFileObject] and [zlib]; each takes
    the file object where the one before left it. *)
Variable _file_size : Z.
Variable _ReadMemberHeader : file_object -> run file_object.
Variable _ReadMemberCompressedData : file_object -> run file_object.
Variable _ReadMemberFooter : file_object -> run file_object.

(** The [while file_offset < self._file_size] loop of [ReadFileObject];
    one unit of fuel for each test of its condition. *)
Fixpoint ReadFileObject_loop (fuel : nat) (file_offset : Z) (f : file_object)
    : run file_object :=
  match fuel with
  | O => out_of_fuel
  | S fuel' =>
      if file_offset <? _file_size then
        let* f := _ReadMemberHeader f in
        let* f := _ReadMemberCompressedData f in
        let* f := _ReadMemberFooter f in
        let file_offset := Z.of_nat (tell f) in
        ReadFileObject_loop fuel' file_offset f
      else ret f
  end.

Definition ReadFileObject (fuel : nat) (f : file_object) : run file_object :=
  let file_offset := 0 in
  ReadFileObject_loop fuel file_offset f.

End Reader.

(** A member header of 10 bytes and a member footer of 8, read where the
    file object is. *)
Definition fixed_size_reader (size : nat) (description : string)
    (f : file_object) : run file_object :=
  let* r := _ReadStructure f (Some (Z.of_nat (tell f))) size description in
  ret (snd r).

End GZipFile.

Section GZipFileFacts.

Import GZipFile.

Variable _file_size : Z.
Variable _ReadMemberHeader : file_object -> run file_object.
Variable _ReadMemberCompressedData : file_object -> run file_object.
Variable _ReadMemberFooter : file_object -> run file_object.

Let loop :=
  ReadFileObject_loop _file_size _ReadMemberHeader _ReadMemberCompressedData
    _ReadMemberFooter.

(** The readers end, and a member that is read leaves the file object
    further on than it was. *)
Definition members_advance : Prop :=
  (forall f, _ReadMemberHeader f <> None) /\
  (forall f, _ReadMemberCompressedData f <> None) /\
  (forall f, _ReadMemberFooter f <> None) /\
  forall f t1 f1 t2 f2 t3 f3,
    _ReadMemberHeader f = Some (t1, Return f1) ->
    _ReadMemberCompressedData f1 = Some (t2, Return f2) ->
    _ReadMemberFooter f2 = Some (t3, Return f3) ->
    (tell f < tell f3)%nat.

Lemma ReadFileObject_loop_ends (fuel : nat) :
  members_advance ->
  forall file_offset f,
    file_offset <= Z.of_nat (tell f) ->
    (Z.to_nat (_file_size - file_offset) < fuel)%nat ->
    loop fuel file_offset f <> None.
Proof.
  intros (Hheader & Hdata & Hfooter & Hadvance).
  induction fuel as [|fuel IH]; intros file_offset f Hoffset Hfuel; [lia |].
  unfold loop. simpl. fold loop.
  destruct (Z.ltb_spec file_offset _file_size) as [Hlt|Hge]; [| discriminate].
  destruct (_ReadMemberHeader f) as [[t1 [f1|e1]]|] eqn:H1;
    [| discriminate | destruct (Hheader f H1)].
  rewrite (bind_return _ _ _ _ eq_refl). cbv beta.
  destruct (_ReadMemberCompressedData f1) as [[t2 [f2|e2]]|] eqn:H2;
    [| discriminate | destruct (Hdata f1 H2)].
  rewrite (bind_return _ _ _ _ eq_refl). cbv beta.
  destruct (_ReadMemberFooter f2) as [[t3 [f3|e3]]|] eqn:H3;
    [| discriminate | destruct (Hfooter f2 H3)].
  rewrite (bind_return _ _ _ _ eq_refl). cbv beta zeta.
  pose proof (Hadvance _ _ _ _ _ _ _ H1 H2 H3) as Hmove.
  assert (Hrest : loop fuel (Z.of_nat (tell f3)) f3 <> None)
    by (apply IH; lia).
  destruct (loop fuel (Z.of_nat (tell f3)) f3) as [[t4 r4]|];
    [destruct (loop fuel (Z.of_nat (tell f3)) f3) as [[t5 r5]|];
       discriminate |].
  exfalso. apply Hrest. reflexivity.
Qed.

Lemma ReadFileObject_loop_returns (fuel : nat) :
  forall file_offset f t f',
    loop fuel file_offset f = Some (t, Return f') ->
    (_file_size <= file_offset /\ f' = f /\ t = []) \/
    _file_size <= Z.of_nat (tell f').
Proof.
  induction fuel as [|fuel IH]; intros file_offset f t f' H; [discriminate H |].
  unfold loop in H. simpl in H. fold loop in H.
  destruct (Z.ltb_spec file_offset _file_size) as [Hlt|Hge].
  - right.
    apply bind_inv in H as [(e & _ & H)|(t1 & f1 & t2 & _ & H & _)];
      [discriminate H |].
    apply bind_inv in H as [(e & _ & H)|(t3 & f2 & t4 & _ & H & _)];
      [discriminate H |].
    apply bind_inv in H as [(e & _ & H)|(t5 & f3 & t6 & _ & H & _)];
      [discriminate H |].
    cbv zeta in H.
    destruct (IH _ _ _ _ H) as [(Hend & -> & _)|Hend]; assumption.
  - left. injection H as <- <-. auto.
Qed.

(** ReadFileObject of a GZip file reads members until the file object
    stands at or past [self._file_size].  When the member readers end and
    each member that is read moves the file object on, the loop ends
    within [_file_size] members; and whenever it returns, either the
    size is not positive and nothing was read, or the file object stands
    at or past the size. *)
Theorem GZipFile_ReadFileObject_reads_to_the_end (f : file_object) :
  members_advance ->
  GZipFile.ReadFileObject _file_size _ReadMemberHeader
    _ReadMemberCompressedData _ReadMemberFooter
    (S (Z.to_nat _file_size)) f <> None /\
  forall fuel t f',
    GZipFile.ReadFileObject _file_size _ReadMemberHeader
      _ReadMemberCompressedData _ReadMemberFooter fuel f
    = Some (t, Return f') ->
    (_file_size <= 0 /\ f' = f /\ t = []) \/
    _file_size <= Z.of_nat (tell f').
Proof.
  intros Hadvance. split.
  - apply (ReadFileObject_loop_ends _ Hadvance); lia.
  - intros fuel t f' H. exact (ReadFileObject_loop_returns _ _ _ _ _ H).
Qed.

End GZipFileFacts.

Lemma fixed_size_reader_cases (size : nat) description (f : file_object) :
  GZipFile.fixed_size_reader size description f
  = Some ([], Raise (ParseError (UnableToRead description))) \/
  GZipFile.fixed_size_reader size description f
  = Some ([], Return (FileObject (content f) (tell f + size))).
Proof.
  unfold GZipFile.fixed_size_reader. rewrite ReadStructure_tell.
  unfold read_structure_at, read, seek. simpl content. simpl position.
  rewrite Nat2Z.id.
  destruct (length (take size (drop (tell f) (content f))) =? size)%nat
    eqn:Hlen; [right | left; reflexivity].
  apply Nat.eqb_eq in Hlen. rewrite Hlen. reflexivity.
Qed.

Lemma GZipFile_ReadFileObject_reads_to_the_end_witness :
  GZipFile.ReadFileObject 18 (GZipFile.fixed_size_reader 10 "member header")
    ret (GZipFile.fixed_size_reader 8 "member footer") 19
    (FileObject (repeat x00 18) 0)
  <> None.
Proof.
  refine (proj1 (GZipFile_ReadFileObject_reads_to_the_end 18
                   (GZipFile.fixed_size_reader 10 "member header") ret
                   (GZipFile.fixed_size_reader 8 "member footer")
                   (FileObject (repeat x00 18) 0) _)).
  split; [| split; [| split]].
  - intros f. destruct (fixed_size_reader_cases 10 "member header" f)
      as [-> | ->]; discriminate.
  - intros f. discriminate.
  - intros f. destruct (fixed_size_reader_cases 8 "member footer" f)
      as [-> | ->]; discriminate.
  - intros f t1 f1 t2 f2 t3 f3 H1 H2 H3.
    destruct (fixed_size_reader_cases 10 "member header" f) as [H | H];
      rewrite H in H1; [discriminate H1 |]. injection H1 as _ <-.
    injection H2 as _ <-.
    destruct (fixed_size_reader_cases 8 "member footer"
                (FileObject (content f) (tell f + 10))) as [H' | H'];
      rewrite H' in H3; [discriminate H3 |]. injection H3 as _ <-.
    unfold tell. simpl. lia.
Defined.

(** * The allocation bitmap of a data block file *)

Module AllocationBitmap.

(** The local variables of [_DebugPrintAllocationBitmap], and the values
    it has printed: [(start, end, size)] stands for
    [_DebugPrintValue(u'Block range', u'{0:d} - {1:d} ({2:d})'.format(
    block_range_start, block_range_end,
    block_range_end - block_range_start))]. *)
Record state : Type := State {
  block_number : Z;
  block_range_start : Z;
  block_range_end : Z;
  in_block_range : bool;
  printed : list (Z * Z * Z)
}.

(** What the body of the inner loop does with the lowest bit, given as
    the truth value of [value_32bit & 0x00000001]. *)
Definition flag_body (_debug : bool) (s : state) (flag : bool) : state :=
  let '(State block_number block_range_start block_range_end in_block_range
          printed) := s in
  if flag then
    let '(block_range_start, block_range_end, in_block_range) :=
      if negb in_block_range then (block_number, block_number, true)
      else (block_range_start, block_range_end, in_block_range) in
    State (block_number + 1) block_range_start (block_range_end + 1)
      in_block_range printed
  else if in_block_range then
    State (block_number + 1) block_range_start block_range_end false
      (if _debug then
         printed ++ [(block_range_start, block_range_end,
                      block_range_end - block_range_start)]
       else printed)
  else
    State (block_number + 1) block_range_start block_range_end in_block_range
      printed.

(** The body of [for unused_bit in range(32)]. *)
Definition bit_body (_debug : bool) (s : state * Z) (unused_bit : nat)
    : state * Z :=
  let '(s, value_32bit) := s in
  (flag_body _debug s (negb (Z.land value_32bit 0x00000001 =? 0)),
   Z.shiftr value_32bit 1).

(** The body of [for value_32bit in allocation_bitmap]. *)
Definition value_body (_debug : bool) (s : state) (value_32bit : Z) : state :=
  fst (fold_left (bit_body _debug) (seq 0 32) (s, value_32bit)).

Definition _DebugPrintAllocationBitmap (_debug : bool)
    (allocation_bitmap : list Z) : list (Z * Z * Z) :=
  printed (fold_left (value_body _debug) allocation_bitmap
             (State 0 0 0 false [])).

(** Block [k] is allocated: bit [k mod 32] of word [k / 32] is set. *)
Definition allocated (allocation_bitmap : list Z) (k : Z) : bool :=
  Z.testbit (nth (Z.to_nat (k / 32)) allocation_bitmap 0) (k mod 32).

End AllocationBitmap.

Section AllocationBitmapFacts.

Import AllocationBitmap.

(** The bits of the bitmap in the order the loops visit them. *)
Definition row (v : Z) : list bool :=
  map (fun i => Z.testbit v (Z.of_nat i)) (seq 0 32).

Definition flags (allocation_bitmap : list Z) : list bool :=
  flat_map row allocation_bitmap.

Definition flag_at (W : list bool) (k : Z) : bool :=
  nth (Z.to_nat k) W false.

Lemma land_one (x : Z) : (Z.land x 1 =? 0) = negb (Z.testbit x 0).
Proof.
  change 1 with (Z.ones 1). rewrite Z.land_ones by lia.
  rewrite Z.bit0_odd. change (2 ^ 1) with 2. rewrite Zmod_odd.
  destruct (Z.odd x); reflexivity.
Qed.

Lemma bits_flags (_debug : bool) (n : nat) :
  forall (start : nat) (s : state) (v : Z),
    fold_left (bit_body _debug) (seq start n) (s, v)
    = (fold_left (flag_body _debug)
         (map (fun i => Z.testbit v (Z.of_nat i)) (seq 0 n)) s,
       Z.shiftr v (Z.of_nat n)).
Proof.
  induction n as [|n IH]; intros start s v.
  - simpl. rewrite Z.shiftr_0_r. reflexivity.
  - simpl seq. simpl fold_left. rewrite IH.
    rewrite land_one, negb_involutive.
    rewrite <- seq_shift, map_map. f_equal.
    + f_equal. apply map_ext. intros i.
      rewrite Z.shiftr_spec by lia. f_equal. lia.
    + rewrite Z.shiftr_shiftr by lia. f_equal. lia.
Qed.

Lemma value_body_flags (_debug : bool) (s : state) (v : Z) :
  value_body _debug s v = fold_left (flag_body _debug) (row v) s.
Proof. unfold value_body, row. rewrite bits_flags. reflexivity. Qed.

Lemma bitmap_flags (_debug : bool) (allocation_bitmap : list Z) :
  forall s,
    fold_left (value_body _debug) allocation_bitmap s
    = fold_left (flag_body _debug) (flags allocation_bitmap) s.
Proof.
  induction allocation_bitmap as [|v l IH]; intros s; [reflexivity |].
  change (flags (v :: l)) with (row v ++ flags l). rewrite fold_left_app.
  change (fold_left (value_body _debug) (v :: l) s)
    with (fold_left (value_body _debug) l (value_body _debug s v)).
  rewrite IH, value_body_flags. reflexivity.
Qed.

Lemma row_length (v : Z) : length (row v) = 32%nat.
Proof. unfold row. rewrite length_map, length_seq. reflexivity. Qed.

Lemma flags_length (allocation_bitmap : list Z) :
  Z.of_nat (length (flags allocation_bitmap))
  = 32 * Z.of_nat (length allocation_bitmap).
Proof.
  induction allocation_bitmap as [|v l IH]; [reflexivity |].
  change (flags (v :: l)) with (row v ++ flags l).
  rewrite length_app, row_length. cbn [length]. lia.
Qed.

Lemma flag_at_allocated (allocation_bitmap : list Z) :
  forall k,
    0 <= k < 32 * Z.of_nat (length allocation_bitmap) ->
    flag_at (flags allocation_bitmap) k = allocated allocation_bitmap k.
Proof.
  induction allocation_bitmap as [|v l IH]; intros k Hk;
    [cbn [length] in Hk; lia |].
  unfold flag_at. change (flags (v :: l)) with (row v ++ flags l).
  cbn [length] in Hk.
  destruct (Z.lt_ge_cases k 32) as [Hlow|Hhigh].
  - rewrite app_nth1 by (rewrite row_length; lia).
    unfold row.
    rewrite (nth_indep _ false (Z.testbit v (Z.of_nat 0)))
      by (rewrite length_map, length_seq; lia).
    rewrite (map_nth (fun i => Z.testbit v (Z.of_nat i))).
    rewrite seq_nth by lia. unfold allocated.
    rewrite Z.div_small, Z.mod_small by lia.
    change (Z.to_nat 0) with 0%nat. cbn [nth]. f_equal. lia.
  - rewrite app_nth2 by (rewrite row_length; lia).
    rewrite row_length.
    replace (Z.to_nat k - 32)%nat with (Z.to_nat (k - 32)) by lia.
    fold (flag_at (flags l) (k - 32)).
    rewrite IH by lia.
    unfold allocated.
    replace (k / 32) with ((k - 32) / 32 + 1)
      by (Z.to_euclidean_division_equations; lia).
    replace (k mod 32) with ((k - 32) mod 32)
      by (Z.to_euclidean_division_equations; lia).
    replace (Z.to_nat ((k - 32) / 32 + 1)) with (S (Z.to_nat ((k - 32) / 32)))
      by (Z.to_euclidean_division_equations; lia).
    reflexivity.
Qed.

(** A range of set flags that cannot be extended and that ends before
    the end of the list. *)
Definition closed_run (W : list bool) (a b : Z) : Prop :=
  0 <= a < b /\ b < Z.of_nat (length W) /\
  (forall k, a <= k < b -> flag_at W k = true) /\
  flag_at W b = false /\
  (a = 0 \/ flag_at W (a - 1) = false).

(** What the local variables hold when the flags [pre] have been
    visited. *)
Definition visited (pre : list bool) (s : state) : Prop :=
  block_number s = Z.of_nat (length pre) /\
  if in_block_range s then
    block_range_end s = Z.of_nat (length pre) /\
    0 <= block_range_start s < Z.of_nat (length pre) /\
    (forall k, block_range_start s <= k < Z.of_nat (length pre) ->
               flag_at pre k = true) /\
    (block_range_start s = 0 \/ flag_at pre (block_range_start s - 1) = false)
  else
    pre = [] \/ flag_at pre (Z.of_nat (length pre) - 1) = false.

Lemma flag_at_prefix (pre rest : list bool) (k : Z) :
  0 <= k < Z.of_nat (length pre) -> flag_at (pre ++ rest) k = flag_at pre k.
Proof. intros Hk. unfold flag_at. apply app_nth1. lia. Qed.

Lemma flag_at_next (pre rest : list bool) (c : bool) :
  flag_at (pre ++ c :: rest) (Z.of_nat (length pre)) = c.
Proof.
  unfold flag_at. rewrite Nat2Z.id, app_nth2 by lia.
  rewrite Nat.sub_diag. reflexivity.
Qed.

Lemma visited_step (pre : list bool) (s : state) (c : bool) :
  visited pre s -> visited (pre ++ [c]) (flag_body true s c).
Proof.
  destruct s as [bn start stop inr out]. unfold visited. simpl.
  intros [Hbn Hs]. rewrite length_app. simpl length.
  destruct c; [destruct inr | destruct inr]; simpl.
  - destruct Hs as (Hstop & Hstart & Hall & Hleft).
    split; [lia |]. split; [lia |]. split; [lia |]. split.
    + intros k Hk. destruct (Z.eq_dec k (Z.of_nat (length pre))) as [->|Hne].
      * apply flag_at_next.
      * rewrite flag_at_prefix by lia. apply Hall. lia.
    + destruct Hleft as [Hz|Hleft]; [left; exact Hz |].
      destruct (Z.eq_dec start 0) as [Hz|Hnz]; [left; exact Hz | right].
      rewrite flag_at_prefix by lia. exact Hleft.
  - split; [lia |]. split; [lia |]. split; [lia |]. split.
    + intros k Hk. replace k with (Z.of_nat (length pre)) by lia.
      apply flag_at_next.
    + destruct Hs as [->|Hlast]; [left; simpl in Hbn; simpl; lia |].
      destruct (Z.eq_dec bn 0) as [Hz|Hnz]; [left; exact Hz | right].
      rewrite flag_at_prefix by lia. rewrite Hbn. exact Hlast.
  - split; [lia | right].
    replace (Z.of_nat (length pre + 1) - 1) with (Z.of_nat (length pre)) by lia.
    apply flag_at_next.
  - split; [lia | right].
    replace (Z.of_nat (length pre + 1) - 1) with (Z.of_nat (length pre)) by lia.
    apply flag_at_next.
Qed.

Lemma flag_body_printed (s : state) (c : bool) :
  printed (flag_body true s c)
  = printed s
    ++ (if negb c && in_block_range s
        then [(block_range_start s, block_range_end s,
               block_range_end s - block_range_start s)]
        else []).
Proof.
  destruct s as [bn start stop inr out]. destruct c, inr; simpl;
    rewrite ?app_nil_r; reflexivity.
Qed.

Lemma scan_closed_runs (bits : list bool) :
  forall (pre : list bool) (s : state),
    visited pre s ->
    exists new,
      printed (fold_left (flag_body true) bits s) = printed s ++ new /\
      forall a b n,
        In (a, b, n) new <->
        n = b - a /\ closed_run (pre ++ bits) a b /\
        Z.of_nat (length pre) <= b.
Proof.
  induction bits as [|c rest IH]; intros pre s Hs.
  - exists []. rewrite app_nil_r. split; [reflexivity |].
    intros a b n. split; [intros [] |].
    intros (_ & (_ & Hb & _) & Hge). rewrite app_nil_r in Hb. lia.
  - destruct (IH (pre ++ [c]) (flag_body true s c) (visited_step _ _ _ Hs))
      as (new & Hout & Hnew).
    rewrite <- app_assoc in Hnew. simpl in Hnew.
    rewrite length_app in Hnew. simpl length in Hnew.
    simpl fold_left. rewrite Hout, flag_body_printed, <- app_assoc.
    eexists. split; [reflexivity |].
    intros a b n. rewrite in_app_iff, Hnew.
    pose proof (flag_at_next pre rest c) as Hc.
    destruct Hs as [Hbn Hs].
    destruct c; simpl negb; cbv iota beta; simpl andb.
    + split.
      * intros [[]|(Hn & Hrun & Hge)]. split; [exact Hn |].
        split; [exact Hrun | lia].
      * intros (Hn & Hrun & Hge). right. split; [exact Hn |].
        split; [exact Hrun |].
        destruct Hrun as (_ & _ & _ & Hclear & _).
        destruct (Z.eq_dec b (Z.of_nat (length pre))) as [->|Hne]; [| lia].
        rewrite Hc in Hclear. discriminate Hclear.
    + destruct (in_block_range s) eqn:Hin.
      * destruct Hs as (Hstop & Hstart & Hall & Hleft). split.
        -- intros [[[= <- <- <-]|[]]|(Hn & Hrun & Hge)].
           ++ split; [reflexivity |]. split; [| lia].
              unfold closed_run. rewrite Hstop.
              split; [lia |]. split; [rewrite length_app; simpl; lia |].
              split; [intros k Hk; rewrite flag_at_prefix by lia;
                      apply Hall; lia |].
              split; [exact Hc |].
              destruct Hleft as [Hz|Hleft]; [left; exact Hz |].
              destruct (Z.eq_dec (block_range_start s) 0) as [Hz|Hnz];
                [left; exact Hz | right].
              rewrite flag_at_prefix by lia. exact Hleft.
           ++ split; [exact Hn |]. split; [exact Hrun | lia].
        -- intros (Hn & Hrun & Hge).
           destruct (Z.eq_dec b (Z.of_nat (length pre))) as [->|Hne];
             [left; left | right; split; [exact Hn |];
                           split; [exact Hrun | lia]].
           destruct Hrun as (Ha & _ & Hset & _ & Haleft).
           assert (a = block_range_start s) as ->.
           { destruct (Z.lt_trichotomy a (block_range_start s))
               as [Hlt|[Heq|Hgt]]; [| exact Heq |].
             - destruct Hleft as [Hz|Hleft]; [lia |].
               rewrite <- (flag_at_prefix pre (false :: rest)) in Hleft by lia.
               rewrite Hset in Hleft by lia. discriminate Hleft.
             - destruct Haleft as [Hz|Haleft]; [lia |].
               rewrite flag_at_prefix in Haleft by lia.
               rewrite Hall in Haleft by lia. discriminate Haleft. }
           rewrite Hstop, Hn. reflexivity.
      * split.
        -- intros [[]|(Hn & Hrun & Hge)]. split; [exact Hn |].
           split; [exact Hrun | lia].
        -- intros (Hn & Hrun & Hge). right. split; [exact Hn |].
           split; [exact Hrun |].
           destruct (Z.eq_dec b (Z.of_nat (length pre))) as [->|Hne]; [| lia].
           exfalso. destruct Hrun as (Ha & _ & Hset & _).
           destruct Hs as [->|Hlast]; [simpl in Ha; lia |].
           rewrite <- (flag_at_prefix pre (false :: rest)) in Hlast by lia.
           rewrite Hset in Hlast by lia. discriminate Hlast.
Qed.

Lemma flag_body_quiet (bits : list bool) :
  forall s, printed (fold_left (flag_body false) bits s) = printed s.
Proof.
  induction bits as [|c rest IH]; intros s; [reflexivity |].
  simpl. rewrite IH. destruct s as [bn start stop inr out].
  destruct c, inr; reflexivity.
Qed.

(** The block ranges that are printed.  With debug output on, the ranges
    printed for an allocation bitmap are the ranges of allocated blocks
    that cannot be extended and that end before the end of the bitmap:
    [start] is the first block of the range, [end] the block after its
    last, the third number their difference.  A range that reaches the
    last bit of the bitmap is not printed.  With debug output off nothing
    is printed. *)
Theorem DebugPrintAllocationBitmap_block_ranges
    (allocation_bitmap : list Z) :
  AllocationBitmap._DebugPrintAllocationBitmap false allocation_bitmap = [] /\
  forall start stop size : Z,
    In (start, stop, size)
      (AllocationBitmap._DebugPrintAllocationBitmap true allocation_bitmap)
    <->
    size = stop - start /\
    0 <= start < stop /\ stop < 32 * Z.of_nat (length allocation_bitmap) /\
    (forall k, start <= k < stop ->
               AllocationBitmap.allocated allocation_bitmap k = true) /\
    AllocationBitmap.allocated allocation_bitmap stop = false /\
    (start = 0 \/
     AllocationBitmap.allocated allocation_bitmap (start - 1) = false).
Proof.
  unfold _DebugPrintAllocationBitmap. rewrite !bitmap_flags. split.
  { rewrite flag_body_quiet. reflexivity. }
  intros start stop size.
  destruct (scan_closed_runs (flags allocation_bitmap) [] (State 0 0 0 false []))
    as (new & Hout & Hnew).
  { split; [reflexivity | left; reflexivity]. }
  cbn [app length] in Hnew. rewrite Hout. cbn [printed app].
  rewrite Hnew. unfold closed_run. rewrite flags_length.
  pose proof (@flag_at_allocated allocation_bitmap) as Hat.
  split.
  - intros (Hn & (Ha & Hb & Hset & Hclear & Hleft) & _).
    split; [exact Hn |]. split; [exact Ha |]. split; [exact Hb |].
    split; [intros k Hk; rewrite <- Hat by lia; apply Hset; exact Hk |].
    split; [rewrite <- Hat by lia; exact Hclear |].
    destruct Hleft as [Hz|Hleft]; [left; exact Hz |].
    destruct (Z.eq_dec start 0) as [Hz|Hnz]; [left; exact Hz | right].
    rewrite <- Hat by lia. exact Hleft.
  - intros (Hn & Ha & Hb & Hset & Hclear & Hleft).
    split; [exact Hn |]. split; [| lia].
    split; [exact Ha |]. split; [exact Hb |].
    split; [intros k Hk; rewrite Hat by lia; apply Hset; exact Hk |].
    split; [rewrite Hat by lia; exact Hclear |].
    destruct Hleft as [Hz|Hleft]; [left; exact Hz |].
    destruct (Z.eq_dec start 0) as [Hz|Hnz]; [left; exact Hz | right].
    rewrite Hat by lia. exact Hleft.
Qed.

End AllocationBitmapFacts.
